(** * adobe-mine: the front end's graph layout, graph interaction, selection
    bridge and upload session, embedded from the TypeScript sources

    Sources: [src/components/insights-panel.tsx] (InsightsPanel,
    RecommendationsPanel, DocumentUpload, KnowledgeGraph),
    [src/components/pdf-viewer.tsx] (PDFViewer) and [src/app/page.tsx]
    (DocumentInsightEngine).

    Numbers are JavaScript numbers, that is IEEE-754 binary64 values: they are
    embedded as Rocq's primitive floats, whose operations are the same
    correctly rounded binary64 operations.  Asynchronous calls are embedded by
    passing the outcome of the awaited promise as an argument; calls to
    [toast], [fetch] and the parent's callbacks are recorded in the state. *)

From Stdlib Require Import ZArith List String Ascii Bool Floats Lia.
From stdpp Require Import base list strings pretty.

Set Warnings "-inexact-float".

(* ================================================================== *)
(** * Part I.  The embedding                                           *)
(* ================================================================== *)

(** ** JavaScript values used by the components *)
Module JS.
Local Open Scope float_scope.

Definition number := float.

(** [ToBoolean] on a number: [NaN], [+0] and [-0] are falsy. *)
Definition truthy (a : number) : bool := negb (is_nan a || is_zero a).

(** [a || d] where [a] is a number. *)
Definition or_num (a d : number) : number := if truthy a then a else d.

(** [field || d] where [field] is an optional number property
    ([undefined] when absent). *)
Definition num_or (a : option number) (d : number) : number :=
  match a with
  | Some v => or_num v d
  | None => d
  end.

(** [ToNumber] of an optional number property: [undefined] reads as [NaN]. *)
Definition num_of (a : option number) : number :=
  match a with
  | Some v => v
  | None => nan
  end.

(** [Math.min(a, b)] and [Math.max(a, b)]: [NaN] if either is [NaN], and
    [-0] is below [+0]. *)
Definition Math_min (a b : number) : number :=
  if is_nan a || is_nan b then nan
  else if a <? b then a
  else if b <? a then b
  else if get_sign a then a else b.

Definition Math_max (a b : number) : number :=
  if is_nan a || is_nan b then nan
  else if a <? b then b
  else if b <? a then a
  else if get_sign a then b else a.

(** [Math.sqrt]: the correctly rounded square root, as the engines compute
    it. *)
Definition Math_sqrt (a : number) : number := sqrt a.

(** [ToBoolean] on a string: only the empty string is falsy. *)
Definition str_truthy (s : string) : bool := negb (String.eqb s "").

(** [field || d] where [field] is an optional string property. *)
Definition str_or (a : option string) (d : string) : string :=
  match a with
  | Some s => if str_truthy s then s else d
  | None => d
  end.

(** [s.includes(sub)]. *)
Fixpoint includes (s sub : string) : bool :=
  String.prefix sub s ||
  match s with
  | EmptyString => false
  | String _ s' => includes s' sub
  end.

(** A string as a sequence of UTF-16 code units, where the code reads its
    [length], slices it or trims it. *)
Definition code_unit := N.
Definition jsstring := list code_unit.

(** ECMAScript [WhiteSpace] and [LineTerminator] code points (all of them
    are single code units). *)
Definition is_white_space (c : code_unit) : bool :=
  (N.leb 9 c && N.leb c 13) || N.eqb c 32 || N.eqb c 160 || N.eqb c 5760
  || (N.leb 8192 c && N.leb c 8202) || N.eqb c 8232 || N.eqb c 8233
  || N.eqb c 8239 || N.eqb c 8287 || N.eqb c 12288 || N.eqb c 65279.

Fixpoint trimStart (s : jsstring) : jsstring :=
  match s with
  | [] => []
  | c :: s' => if is_white_space c then trimStart s' else s
  end.

Definition trimEnd (s : jsstring) : jsstring := rev (trimStart (rev s)).

(** [s.trim()]. *)
Definition trim (s : jsstring) : jsstring := trimEnd (trimStart s).

(** An ASCII literal of the source, as code units. *)
Definition lit (s : string) : jsstring :=
  map (fun c => N_of_ascii c) (list_ascii_of_string s).

(** [ToBoolean] on a string of code units: only the empty string is falsy. *)
Definition text_truthy (s : jsstring) : bool :=
  match s with
  | [] => false
  | _ :: _ => true
  end.

(** [field || d] where [field] is an optional string property kept as code
    units. *)
Definition text_or (a : option jsstring) (d : jsstring) : jsstring :=
  match a with
  | Some s => if text_truthy s then s else d
  | None => d
  end.

(** A call to [toast({title, description, variant})]. *)
Record Toast := {
  title : string;
  description : string;
  variant : option string
}.

End JS.

(** ** GraphLayoutEngine and GraphInteractionController: [KnowledgeGraph] *)
Module Graph.
Import JS.
Local Open Scope float_scope.

(** [interface GraphNode]: every property but [id] and [label] is optional.
    The label is kept as code units: line 1500 reads its [length] and slices
    it. *)
Record GraphNode := {
  node_id : string;
  node_label : jsstring;
  node_size : option number;
  node_color : option string;
  node_x : option number;
  node_y : option number;
  node_vx : option number;
  node_vy : option number
}.

(** [interface GraphLink]. *)
Record GraphLink := {
  link_source : string;
  link_target : string;
  link_weight : option number;
  link_label : option string
}.

(** [interface GraphData]. *)
Record GraphData := {
  nodes : list GraphNode;
  links : list GraphLink
}.

(** Assignments [node.x = v], [node.y = v], [node.vx = v], [node.vy = v]. *)
Definition set_x (n : GraphNode) (v : number) : GraphNode :=
  {| node_id := node_id n; node_label := node_label n; node_size := node_size n;
     node_color := node_color n; node_x := Some v; node_y := node_y n;
     node_vx := node_vx n; node_vy := node_vy n |}.

Definition set_y (n : GraphNode) (v : number) : GraphNode :=
  {| node_id := node_id n; node_label := node_label n; node_size := node_size n;
     node_color := node_color n; node_x := node_x n; node_y := Some v;
     node_vx := node_vx n; node_vy := node_vy n |}.

Definition set_vx (n : GraphNode) (v : number) : GraphNode :=
  {| node_id := node_id n; node_label := node_label n; node_size := node_size n;
     node_color := node_color n; node_x := node_x n; node_y := node_y n;
     node_vx := Some v; node_vy := node_vy n |}.

Definition set_vy (n : GraphNode) (v : number) : GraphNode :=
  {| node_id := node_id n; node_label := node_label n; node_size := node_size n;
     node_color := node_color n; node_x := node_x n; node_y := node_y n;
     node_vx := node_vx n; node_vy := Some v |}.

(** *** The simulation tick ([simulate], lines 1269-1336)

    The node objects are mutated in place.  The array of nodes is embedded as
    a list, an object being the list element at its index; a loop over the
    array threads the list, and reads an element when its turn comes. *)

(** [array.forEach] over an array whose elements the body may mutate. *)
Definition forEach_index {A} (body : nat -> list A -> list A) (l : list A) : list A :=
  fold_left (fun st i => body i st) (seq 0 (length l)) l.

(** Lines 1278-1283: the center force on [node]. *)
Definition center_force (node : GraphNode) : GraphNode :=
  let centerX := 300 in
  let centerY := 200 in
  let centerForce := 0.01 in
  let node := set_vx node (num_or (node_vx node) 0 + (centerX - num_or (node_x node) 0) * centerForce) in
  set_vy node (num_or (node_vy node) 0 + (centerY - num_or (node_y node) 0) * centerForce).

(** Lines 1287-1294: the repulsion of [other] on [node]. *)
Definition repulsion (other node : GraphNode) : GraphNode :=
  if negb (String.eqb (node_id node) (node_id other)) then
    let dx := num_or (node_x node) 0 - num_or (node_x other) 0 in
    let dy := num_or (node_y node) 0 - num_or (node_y other) 0 in
    let distance := or_num (Math_sqrt (dx * dx + dy * dy)) 1 in
    let force := 500 / (distance * distance) in
    let node := set_vx node (num_or (node_vx node) 0 + (dx / distance) * force) in
    set_vy node (num_or (node_vy node) 0 + (dy / distance) * force)
  else node.

(** Lines 1277-1296: the body of the outer loop for the node at index [i]. *)
Definition apply_forces_body (i : nat) (st : list GraphNode) : list GraphNode :=
  let st := alter center_force i st in
  forEach_index
    (fun j st =>
       match st !! j with
       | Some other => alter (repulsion other) i st
       | None => st
       end) st.

Definition apply_forces (st : list GraphNode) : list GraphNode :=
  forEach_index apply_forces_body st.

(** [nodes.find((n) => n.id === ident)], with the index of the object found. *)
Definition find_node (st : list GraphNode) (ident : string) : option (nat * GraphNode) :=
  list_find (fun n => node_id n = ident) st.

(** Lines 1300-1317: the spring of one link. *)
Definition link_force (st : list GraphNode) (link : GraphLink) : list GraphNode :=
  match find_node st (link_source link), find_node st (link_target link) with
  | Some (i, source), Some (j, target) =>
      let dx := num_or (node_x target) 0 - num_or (node_x source) 0 in
      let dy := num_or (node_y target) 0 - num_or (node_y source) 0 in
      let distance := or_num (Math_sqrt (dx * dx + dy * dy)) 1 in
      let targetDistance := 100 in
      let force := (distance - targetDistance) * 0.1 in
      let fx := (dx / distance) * force in
      let fy := (dy / distance) * force in
      let st := alter (fun s => set_vx s (num_or (node_vx s) 0 + fx)) i st in
      let st := alter (fun s => set_vy s (num_or (node_vy s) 0 + fy)) i st in
      let st := alter (fun t => set_vx t (num_or (node_vx t) 0 - fx)) j st in
      alter (fun t => set_vy t (num_or (node_vy t) 0 - fy)) j st
  | _, _ => st
  end.

Definition link_forces (st : list GraphNode) (ls : list GraphLink) : list GraphNode :=
  fold_left link_force ls st.

(** Lines 1322-1329: damping, integration and the clamp of one node. *)
Definition integrate (node : GraphNode) : GraphNode :=
  let node := set_vx node (num_or (node_vx node) 0 * 0.9) in
  let node := set_vy node (num_or (node_vy node) 0 * 0.9) in
  let node := set_x node (num_or (node_x node) 0 + num_or (node_vx node) 0) in
  let node := set_y node (num_or (node_y node) 0 + num_or (node_vy node) 0) in
  let node := set_x node (Math_max 20 (Math_min 580 (num_of (node_x node)))) in
  set_y node (Math_max 20 (Math_min 380 (num_of (node_y node)))).

Definition integrate_all (st : list GraphNode) : list GraphNode :=
  forEach_index (fun i st => alter integrate i st) st.

(** One tick on the graph data. *)
Definition tick (d : GraphData) : GraphData :=
  let nodes := nodes d in
  let links := links d in
  let nodes := apply_forces nodes in
  let nodes := link_forces nodes links in
  let nodes := integrate_all nodes in
  {| nodes := nodes; links := links |}.

(** The updater [simulate] passes to [setGraphData]. *)
Definition simulate (prevData : option GraphData) : option GraphData :=
  match prevData with
  | None => None
  | Some d => Some (tick d)
  end.


(** *** The tick as the specification words it

    Five steps: centering, pairwise repulsion, link springs, damping with
    integration, clamp.  [guard] is how the distance of a pair of nodes is
    kept away from zero. *)

Definition pos_x (n : GraphNode) : number := num_or (node_x n) 0.
Definition pos_y (n : GraphNode) : number := num_or (node_y n) 0.
Definition vel_x (n : GraphNode) : number := num_or (node_vx n) 0.
Definition vel_y (n : GraphNode) : number := num_or (node_vy n) 0.

Definition add_velocity (fx fy : number) (n : GraphNode) : GraphNode :=
  set_vy (set_vx n (vel_x n + fx)) (vel_y n + fy).

Definition sub_velocity (fx fy : number) (n : GraphNode) : GraphNode :=
  set_vy (set_vx n (vel_x n - fx)) (vel_y n - fy).

(** Step 1: 0.01 times the displacement toward the center (300, 200). *)
Definition spec_centering (n : GraphNode) : GraphNode :=
  add_velocity ((300 - pos_x n) * 0.01) ((200 - pos_y n) * 0.01) n.

(** Step 2: the force 500/d^2 of [other] on [n], along their separation. *)
Definition spec_repel (guard : number -> number) (other n : GraphNode) : GraphNode :=
  if String.eqb (node_id n) (node_id other) then n
  else
    let dx := pos_x n - pos_x other in
    let dy := pos_y n - pos_y other in
    let d := guard (Math_sqrt (dx * dx + dy * dy)) in
    add_velocity ((dx / d) * (500 / (d * d))) ((dy / d) * (500 / (d * d))) n.

Definition spec_repulsion (guard : number -> number) (all : list GraphNode)
    (n : GraphNode) : GraphNode :=
  fold_left (fun acc other => spec_repel guard other acc) all n.

(** Step 3: the spring of a link whose two endpoints resolve, (d - 100) * 0.1
    along the link, added to the source and subtracted from the target. *)
Definition spec_spring (st : list GraphNode) (link : GraphLink) : list GraphNode :=
  match find_node st (link_source link), find_node st (link_target link) with
  | Some (i, source), Some (j, target) =>
      let dx := pos_x target - pos_x source in
      let dy := pos_y target - pos_y source in
      let d := or_num (Math_sqrt (dx * dx + dy * dy)) 1 in
      let f := (d - 100) * 0.1 in
      alter (sub_velocity ((dx / d) * f) ((dy / d) * f)) j
        (alter (add_velocity ((dx / d) * f) ((dy / d) * f)) i st)
  | _, _ => st
  end.

(** Steps 4 and 5: damping 0.9, position += velocity, clamp to
    [20, 580] x [20, 380]. *)
Definition clamp (lo hi v : number) : number := Math_max lo (Math_min hi v).

Definition spec_integrate (n : GraphNode) : GraphNode :=
  let vx := vel_x n * 0.9 in
  let vy := vel_y n * 0.9 in
  let x := clamp 20 580 (pos_x n + or_num vx 0) in
  let y := clamp 20 380 (pos_y n + or_num vy 0) in
  set_y (set_x (set_vy (set_vx n vx) vy) x) y.

Definition spec_tick (guard : number -> number) (d : GraphData) : GraphData :=
  let centered := map spec_centering (nodes d) in
  let repelled := map (spec_repulsion guard centered) centered in
  let sprung := fold_left spec_spring (links d) repelled in
  {| nodes := map spec_integrate sprung; links := links d |}.

(** The distance of a pair "minimum 1", and as the code keeps it from zero. *)
Definition guard_min_1 (d : number) : number := Math_max d 1.
Definition guard_or_1 (d : number) : number := or_num d 1.

(** The canvas bounds the clamp keeps: x in [20, 580], y in [20, 380]. *)
Definition between (lo hi v : number) : bool := (lo <=? v) && (v <=? hi).

Definition in_bounds (n : GraphNode) : bool :=
  between 20 580 (num_of (node_x n)) && between 20 380 (num_of (node_y n)).

(** A coordinate that is not an infinity ([undefined] and [NaN] read as 0). *)
Definition not_infinite (c : option number) : bool :=
  match c with
  | Some v => negb (is_infinity v)
  | None => true
  end.

Definition finite_position (n : GraphNode) : bool :=
  not_infinite (node_x n) && not_infinite (node_y n).

(** [k] ticks. *)
Fixpoint ticks (k : nat) (d : GraphData) : GraphData :=
  match k with
  | O => d
  | S k' => ticks k' (tick d)
  end.

(** *** Fetching and normalising the graph ([fetchGraphData], lines 1193-1248) *)

(** The payload of the graph endpoint, as parsed, with the types the
    interfaces declare: the elements of [nodes] and [links] are objects, and
    an absent property is [None]. *)
Record RawNode := {
  raw_id : option string;
  raw_label : option jsstring;
  raw_name : option jsstring;
  raw_size : option number;
  raw_color : option string
}.

Record RawLink := {
  raw_source : string;
  raw_target : string;
  raw_weight : option number;
  raw_link_label : option string
}.

Record RawGraph := {
  raw_nodes : option (list RawNode);
  raw_links : option (list RawLink)
}.

(** What [fetch] and [response.json()] settle to. *)
Inductive FetchResult :=
| Rejected (message : string)
| Response (ok : bool) (statusText : string) (json : string + RawGraph).

(** [getNodeColor] (lines 1250-1262). *)
Definition colors : list string :=
  ["#dc2626"; "#f59e0b"; "#10b981"; "#3b82f6"; "#8b5cf6"; "#f97316"; "#06b6d4"; "#84cc16"]%string.

Definition getNodeColor (index : nat) : string :=
  nth (index mod length colors) colors ""%string.

(** Lines 1211-1220.  [rnd] is the sequence of values [Math.random()]
    returns, [k] the number of values drawn so far. *)
Fixpoint normalize_nodes (rnd : nat -> number) (k index : nat) (raw : list RawNode)
    : list GraphNode :=
  match raw with
  | [] => []
  | node :: rest =>
      let '(size, k) :=
        match raw_size node with
        | Some v => if truthy v then (v, k) else (rnd k * 20 + 10, S k)
        | None => (rnd k * 20 + 10, S k)
        end in
      {| node_id := str_or (raw_id node) ("node-" +:+ pretty index);
         node_label := text_or (raw_label node)
                         (text_or (raw_name node)
                            (lit ("Concept " +:+ pretty (index + 1)%nat)));
         node_size := Some size;
         node_color := Some (str_or (raw_color node) (getNodeColor index));
         node_x := Some (rnd k * 400 + 100);
         node_y := Some (rnd (S k) * 300 + 100);
         node_vx := Some 0;
         node_vy := Some 0 |}
      :: normalize_nodes rnd (S (S k)) (S index) rest
  end.

(** Lines 1221-1226. *)
Definition normalize_link (link : RawLink) : GraphLink :=
  {| link_source := raw_source link;
     link_target := raw_target link;
     link_weight := Some (num_or (raw_weight link) 1);
     link_label := Some (str_or (raw_link_label link) "") |}.

(** Lines 1210-1227: [processedData], or the message of the error thrown.
    [typeError] is the message the engine gives the [TypeError] of calling
    [map] on [undefined]. *)
Definition process (typeError : string) (rnd : nat -> number) (data : RawGraph)
    : string + GraphData :=
  match raw_nodes data with
  | None => inl typeError
  | Some ns =>
      match raw_links data with
      | None => inl typeError
      | Some ls =>
          inr {| nodes := normalize_nodes rnd 0 0 ns; links := map normalize_link ls |}
      end
  end.

(** The value of [selectedNode].  [setSelectedNode(node)] stores the node
    object itself, which stays shared with the graph: [simulate] goes on
    writing its [x], [y], [vx] and [vy] in place for as long as the object is
    in the graph.  [SelectedNode] holds the properties of that object that no
    code writes, which are also the only ones read from [selectedNode]
    (lines 1477-1478 and 1539-1540). *)
Record SelectedNode := {
  selected_id : string;
  selected_label : jsstring;
  selected_color : option string
}.

Definition selected_of (node : GraphNode) : SelectedNode :=
  {| selected_id := node_id node; selected_label := node_label node;
     selected_color := node_color node |}.

(** The state of the [KnowledgeGraph] component, and its calls to [toast]. *)
Record State := {
  graphData : option GraphData;
  isLoading : bool;
  error : option string;
  selectedNode : option SelectedNode;
  zoom : number;
  pan : number * number;
  toasts : list Toast
}.

Definition initial : State :=
  {| graphData := None; isLoading := false; error := None; selectedNode := None;
     zoom := 1; pan := (0, 0); toasts := [] |}.

Definition setGraphData (f : option GraphData -> option GraphData) (st : State) : State :=
  {| graphData := f (graphData st); isLoading := isLoading st; error := error st;
     selectedNode := selectedNode st; zoom := zoom st; pan := pan st; toasts := toasts st |}.

Definition setIsLoading (b : bool) (st : State) : State :=
  {| graphData := graphData st; isLoading := b; error := error st;
     selectedNode := selectedNode st; zoom := zoom st; pan := pan st; toasts := toasts st |}.

Definition setError (e : option string) (st : State) : State :=
  {| graphData := graphData st; isLoading := isLoading st; error := e;
     selectedNode := selectedNode st; zoom := zoom st; pan := pan st; toasts := toasts st |}.

Definition setSelectedNode (n : option SelectedNode) (st : State) : State :=
  {| graphData := graphData st; isLoading := isLoading st; error := error st;
     selectedNode := n; zoom := zoom st; pan := pan st; toasts := toasts st |}.

Definition setZoom (f : number -> number) (st : State) : State :=
  {| graphData := graphData st; isLoading := isLoading st; error := error st;
     selectedNode := selectedNode st; zoom := f (zoom st); pan := pan st; toasts := toasts st |}.

Definition setPan (p : number * number) (st : State) : State :=
  {| graphData := graphData st; isLoading := isLoading st; error := error st;
     selectedNode := selectedNode st; zoom := zoom st; pan := p; toasts := toasts st |}.

Definition toast (t : Toast) (st : State) : State :=
  {| graphData := graphData st; isLoading := isLoading st; error := error st;
     selectedNode := selectedNode st; zoom := zoom st; pan := pan st;
     toasts := toasts st ++ [t] |}.

(** The [try] block of [fetchGraphData] up to [processedData]: the message of
    the error thrown, or the processed data. *)
Definition fetch_attempt (typeError : string) (rnd : nat -> number) (res : FetchResult)
    : string + GraphData :=
  match res with
  | Rejected message => inl message
  | Response ok statusText json =>
      if negb ok then inl ("Failed to fetch graph data: " +:+ statusText)
      else
        match json with
        | inl message => inl message
        | inr data => process typeError rnd data
        end
  end.

Definition fetchGraphData (typeError : string) (rnd : nat -> number) (res : FetchResult)
    (st : State) : State :=
  let st := setIsLoading true st in
  let st := setError None st in
  let st :=
    match fetch_attempt typeError rnd res with
    | inr processedData =>
        let st := setGraphData (fun _ => Some processedData) st in
        toast {| title := "Knowledge graph loaded";
                 description := "Visualizing " +:+ pretty (length (nodes processedData))
                                +:+ " concepts and " +:+ pretty (length (links processedData))
                                +:+ " connections.";
                 variant := None |} st
    | inl errorMessage =>
        let st := setError (Some errorMessage) st in
        toast {| title := "Failed to load knowledge graph";
                 description := errorMessage;
                 variant := Some "destructive"%string |} st
    end in
  setIsLoading false st.

(** [handleNodeClick], [zoomIn], [zoomOut] (lines 1347-1350, 1378-1379). *)
Definition handleNodeClick (node : GraphNode) (st : State) : State :=
  setSelectedNode (Some (selected_of node)) st.

Definition zoomIn_value (prev : number) : number := Math_min (prev * 1.2) 3.
Definition zoomOut_value (prev : number) : number := Math_max (prev / 1.2) 0.5.

Definition zoomIn (st : State) : State := setZoom zoomIn_value st.
Definition zoomOut (st : State) : State := setZoom zoomOut_value st.

(** [resetGraph] (lines 1370-1376); the fetch it starts settles to [res]. *)
Definition resetGraph (typeError : string) (rnd : nat -> number) (res : FetchResult)
    (st : State) : State :=
  let st := setGraphData (fun _ => None) st in
  let st := setSelectedNode None st in
  let st := setZoom (fun _ => 1) st in
  let st := setPan (0, 0) st in
  fetchGraphData typeError rnd res st.

(** Sequences of clicks on the two zoom buttons, from the initial state. *)
Inductive ZoomClick := ClickZoomIn | ClickZoomOut.

Definition click (st : State) (c : ZoomClick) : State :=
  match c with
  | ClickZoomIn => zoomIn st
  | ClickZoomOut => zoomOut st
  end.

Definition zoom_after (cs : list ZoomClick) : number := zoom (fold_left click cs initial).

(** *** Dragging ([handleNodeDrag], lines 1352-1368) *)

Record MouseEvent := { clientX : number; clientY : number }.

Record DOMRect := { left : number; top : number }.

(** [{ ...n, x, y, vx: 0, vy: 0 }]. *)
Definition dragged (n : GraphNode) (x y : number) : GraphNode :=
  {| node_id := node_id n; node_label := node_label n; node_size := node_size n;
     node_color := node_color n; node_x := Some x; node_y := Some y;
     node_vx := Some 0; node_vy := Some 0 |}.

(** The pointer-derived coordinate. *)
Definition pointer_x (zoom : number) (pan : number * number) (rect : DOMRect)
    (event : MouseEvent) : number :=
  (clientX event - left rect) / zoom - fst pan.

Definition pointer_y (zoom : number) (pan : number * number) (rect : DOMRect)
    (event : MouseEvent) : number :=
  (clientY event - top rect) / zoom - snd pan.

(** [handleNodeDrag], as a function of the values its closure holds
    ([graphData_c], [zoom], [pan]), of the bounding rectangle of the mounted
    [svg] ([None] when it is not mounted), and of the data at the time the
    updater runs. *)
Definition handleNodeDrag (graphData_c : option GraphData) (zoom : number)
    (pan : number * number) (rect : option DOMRect) (node : GraphNode)
    (event : MouseEvent) (prevData : option GraphData) : option GraphData :=
  match graphData_c, rect with
  | Some _, Some rect =>
      let x := pointer_x zoom pan rect event in
      let y := pointer_y zoom pan rect event in
      match prevData with
      | None => None
      | Some d =>
          Some {| nodes := map (fun n => if String.eqb (node_id n) (node_id node)
                                         then dragged n x y else n) (nodes d);
                  links := links d |}
      end
  | _, _ => prevData
  end.

(** The [mousemove] listener a [mousedown] on a node's circle registers on
    the document (lines 1481-1491): the closure of the render it comes from. *)
Record Listener := {
  l_graphData : option GraphData;
  l_zoom : number;
  l_pan : number * number;
  l_node : GraphNode
}.

(** The component in the page: its state, the rectangle its [svg] occupies
    when it is rendered, the registered [mousemove] listeners. *)
Record Page := {
  component : State;
  viewport : DOMRect;
  mousemove : list Listener
}.

(** [svgRef.current?.getBoundingClientRect()]: the [svg] is mounted when
    there is data and no load is in progress (line 1435). *)
Definition svg (p : Page) : option DOMRect :=
  match graphData (component p) with
  | Some _ => if isLoading (component p) then None else Some (viewport p)
  | None => None
  end.

Inductive Event :=
| MouseDown (index : nat)
| MouseMove (event : MouseEvent)
| MouseUp
| AnimationFrame
| Click (index : nat).

Definition with_component (f : State -> State) (p : Page) : Page :=
  {| component := f (component p); viewport := viewport p; mousemove := mousemove p |}.

Definition run_listener (rect : option DOMRect) (event : MouseEvent) (st : State)
    (l : Listener) : State :=
  setGraphData (handleNodeDrag (l_graphData l) (l_zoom l) (l_pan l) rect (l_node l) event) st.

(** One event.  [MouseDown index] is a press on the circle of the node at
    [index], which exists when the [svg] is mounted; [MouseMove] runs the
    registered listeners in the order of their registration; [MouseUp] runs
    the [mouseup] listeners, each of which removes its pair; an
    [AnimationFrame] runs [simulate] when the effect of lines 1265-1345 has
    scheduled it; [Click index] is the click the browser sends to the circle
    of the node at [index] after a press and a release on it (the circle
    carries [onClick] next to [onMouseDown], lines 1480-1481): it runs
    [handleNodeClick] with the node as rendered. *)
Definition step (p : Page) (e : Event) : Page :=
  match e with
  | MouseDown index =>
      match graphData (component p), svg p with
      | Some d, Some _ =>
          match nodes d !! index with
          | Some node =>
              {| component := component p; viewport := viewport p;
                 mousemove := mousemove p ++
                   [{| l_graphData := graphData (component p); l_zoom := zoom (component p);
                       l_pan := pan (component p); l_node := node |}] |}
          | None => p
          end
      | _, _ => p
      end
  | MouseMove event =>
      with_component (fun st => fold_left (run_listener (svg p) event) (mousemove p) st) p
  | MouseUp => {| component := component p; viewport := viewport p; mousemove := [] |}
  | AnimationFrame =>
      match graphData (component p), svg p with
      | Some _, Some _ => with_component (setGraphData simulate) p
      | _, _ => p
      end
  | Click index =>
      match graphData (component p), svg p with
      | Some d, Some _ =>
          match nodes d !! index with
          | Some node => with_component (handleNodeClick node) p
          | None => p
          end
      | _, _ => p
      end
  end.

(** *** Rendering (lines 1435-1506) *)

Record Line := {
  x1 : option number; y1 : option number;
  x2 : option number; y2 : option number;
  strokeWidth : number
}.

Record Circle := {
  key : string;
  cx : option number; cy : option number;
  r : option number;
  fill : option string;
  stroke : string;
  circle_strokeWidth : number
}.

Record Text := {
  text_x : option number;
  text_y : number;
  text : jsstring
}.

(** Lines 1445-1465: one link, [None] for [null]. *)
Definition render_link (d : GraphData) (link : GraphLink) : option Line :=
  match find_node (nodes d) (link_source link), find_node (nodes d) (link_target link) with
  | Some (_, source), Some (_, target) =>
      Some {| x1 := node_x source; y1 := node_y source;
              x2 := node_x target; y2 := node_y target;
              strokeWidth := Math_sqrt (num_or (link_weight link) 1) |}
  | _, _ => None
  end.

(** Lines 1470-1503: one node. *)
Definition render_node (selected : option SelectedNode) (node : GraphNode) : Circle * Text :=
  let is_selected :=
    match selected with
    | Some s => String.eqb (selected_id s) (node_id node)
    | None => false
    end in
  ({| key := node_id node; cx := node_x node; cy := node_y node; r := node_size node;
      fill := node_color node;
      stroke := if is_selected then "#000"%string else "#fff"%string;
      circle_strokeWidth := if is_selected then 3 else 2 |},
   {| text_x := node_x node;
      text_y := num_of (node_y node) + (num_of (node_size node) + 15);
      text := if (12 <? length (node_label node))%nat
              then take 12 (node_label node) ++ lit "..."
              else node_label node |}).

(** The [svg], rendered when there is data and no load is in progress. *)
Definition render (st : State) : option (list (option Line) * list (Circle * Text)) :=
  match graphData st with
  | Some d =>
      if isLoading st then None
      else Some (map (render_link d) (links d), map (render_node (selectedNode st)) (nodes d))
  | None => None
  end.

End Graph.

(** ** SelectionBridge: the event listener of [PDFViewer]
    ([initializePDFViewer], lines 198-210) *)
Module Viewer.
Import JS.

(** An event of the embedded viewer: its [type], and
    [event.data?.selection?.text] ([None] when a link of the chain is
    absent). *)
Record ViewerEvent := {
  event_type : string;
  selection_text : option jsstring
}.

(** The listener registered on the viewer: [Some (selectedText, documentName)]
    when it calls [onTextSelection(selectedText, documentName)], [None] when
    it returns without calling it. *)
Definition event_listener (documentName : string) (event : ViewerEvent)
    : option (jsstring * string) :=
  if String.eqb (event_type event) "SELECTION_END" then
    match selection_text event with
    | Some t =>
        match t with
        | [] => None
        | _ :: _ =>
            let selectedText := trim t in
            match selectedText with
            | [] => None
            | _ :: _ => Some (selectedText, documentName)
            end
        end
    | None => None
    end
  else None.

(** The calls of [onTextSelection] over a sequence of events. *)
Definition selections (documentName : string) (events : list ViewerEvent)
    : list (jsstring * string) :=
  omap (event_listener documentName) events.

End Viewer.

(** ** UploadSession: [DocumentUpload] (lines 885-1033) *)
Module Upload.
Import JS.
Local Open Scope string_scope.

(** A [File]: [name], [size], [type]. *)
Record File := {
  file_name : string;
  file_size : N;
  file_type : string
}.

Inductive Status := Uploading | Success | Error.

(** [interface UploadedDocument]. *)
Record UploadedDocument := {
  name : string;
  size : N;
  status : Status
}.

(** The [result] of an upload: its [cluster_id], and its
    [processed_files_count] as the template literal of line 1000 prints it
    (the text of the value, ["3"] for the number 3), which is the one use the
    code makes of it. *)
Record UploadResult := {
  cluster_id : string;
  processed_files_count : string
}.

(** A [Response]: [ok], [statusText], the [content-type] header ([None] when
    absent), the body as [text()] gives it, and what [json()] settles to (the
    message of its rejection, or the parsed body). *)
Record Response := {
  ok : bool;
  statusText : string;
  content_type : option string;
  body_text : string;
  body_json : string + UploadResult
}.

(** What [fetch] settles to. *)
Inductive FetchResult :=
| Rejected (message : string)
| Responded (response : Response).

(** The state of the component, and what it has done: the calls to [toast],
    the bodies of the requests sent to [/api/v1/documents/upload_cluster],
    the calls to [onUploadComplete]. *)
Record State := {
  files : list UploadedDocument;
  isUploading : bool;
  uploadProgress : N;
  error : option string;
  toasts : list Toast;
  requests : list (list File);
  completed : list (string * list string)
}.

Definition initial : State :=
  {| files := []; isUploading := false; uploadProgress := 0; error := None;
     toasts := []; requests := []; completed := [] |}.

Definition setFiles (f : list UploadedDocument -> list UploadedDocument) (st : State) : State :=
  {| files := f (files st); isUploading := isUploading st;
     uploadProgress := uploadProgress st; error := error st; toasts := toasts st;
     requests := requests st; completed := completed st |}.

Definition setIsUploading (b : bool) (st : State) : State :=
  {| files := files st; isUploading := b;
     uploadProgress := uploadProgress st; error := error st; toasts := toasts st;
     requests := requests st; completed := completed st |}.

Definition setUploadProgress (p : N) (st : State) : State :=
  {| files := files st; isUploading := isUploading st;
     uploadProgress := p; error := error st; toasts := toasts st;
     requests := requests st; completed := completed st |}.

Definition setError (e : option string) (st : State) : State :=
  {| files := files st; isUploading := isUploading st;
     uploadProgress := uploadProgress st; error := e; toasts := toasts st;
     requests := requests st; completed := completed st |}.

Definition toast (t : Toast) (st : State) : State :=
  {| files := files st; isUploading := isUploading st;
     uploadProgress := uploadProgress st; error := error st; toasts := toasts st ++ [t];
     requests := requests st; completed := completed st |}.

Definition fetch (body : list File) (st : State) : State :=
  {| files := files st; isUploading := isUploading st;
     uploadProgress := uploadProgress st; error := error st; toasts := toasts st;
     requests := requests st ++ [body]; completed := completed st |}.

Definition onUploadComplete (clusterId : string) (names : list string) (st : State) : State :=
  {| files := files st; isUploading := isUploading st;
     uploadProgress := uploadProgress st; error := error st; toasts := toasts st;
     requests := requests st; completed := completed st ++ [(clusterId, names)] |}.

Definition set_status (s : Status) (file : UploadedDocument) : UploadedDocument :=
  {| name := name file; size := size file; status := s |}.

(** Lines 941-965: the inner [try] block after [fetch] has settled: the
    message of the error it throws, or [result]. *)
Definition read_response (res : FetchResult) : string + UploadResult :=
  match res with
  | Rejected message => inl message
  | Responded response =>
      if negb (ok response) then inl ("Upload failed: " +:+ statusText response)
      else
        let is_json :=
          match content_type response with
          | Some contentType => str_truthy contentType && includes contentType "application/json"
          | None => false
          end in
        if negb is_json then
          if includes (body_text response) "<!DOCTYPE" || includes (body_text response) "<html"
          then inl "API_NOT_AVAILABLE"
          else inl "Server returned non-JSON response"
        else body_json response
  end.

(** Lines 970-975: the failures that switch to the demo mode. *)
Definition api_unavailable (message : string) : bool :=
  includes message "API_NOT_AVAILABLE" || includes message "Failed to fetch"
  || includes message "NetworkError".

(** Lines 917-926 and 942: [uploadFiles] up to its first [await]. *)
Definition uploadFiles_begin (filesToUpload : list File) (st : State) : State :=
  let st := setIsUploading true st in
  let st := setUploadProgress 0 st in
  fetch filesToUpload st.

(** Lines 947-1022: [uploadFiles] once [fetch] has settled to [res].  [now]
    is the value of [Date.now()].  The progress timer is left out: only the
    final [setUploadProgress(100)] is kept. *)
Definition uploadFiles_settle (now : N) (filesToUpload : list File) (res : FetchResult)
    (st : State) : State :=
  let st := setUploadProgress 100 st in
  let outcome :=
    match read_response res with
    | inr result => (inr result, st)
    | inl message =>
        if api_unavailable message then
          (inr {| cluster_id := "demo_cluster_" +:+ pretty now;
                  processed_files_count := pretty (length filesToUpload) |},
           toast {| title := "Demo Mode Active";
                    description := "Backend API not available. Using demo mode for testing.";
                    variant := Some "default" |} st)
        else (inl message, st)
    end in
  let st :=
    match outcome with
    | (inr result, st) =>
        let st := setFiles (map (set_status Success)) st in
        let st := toast {| title := "Upload successful";
                           description := processed_files_count result
                                          +:+ " documents uploaded successfully.";
                           variant := None |} st in
        onUploadComplete (cluster_id result) (map file_name filesToUpload) st
    | (inl errorMessage, st) =>
        let st := setError (Some errorMessage) st in
        let st := setFiles (map (set_status Error)) st in
        toast {| title := "Upload failed"; description := errorMessage;
                 variant := Some "destructive" |} st
    end in
  setIsUploading false st.

Definition uploadFiles (now : N) (filesToUpload : list File) (res : FetchResult)
    (st : State) : State :=
  uploadFiles_settle now filesToUpload res (uploadFiles_begin filesToUpload st).

(** Lines 885-915: [handleFiles].  [res] is what the fetch of the upload it
    may start settles to. *)
Definition is_pdf (file : File) : bool := String.eqb (file_type file) "application/pdf".

Definition handleFiles (now : N) (res : FetchResult) (selectedFiles : list File)
    (st : State) : State :=
  let pdfFiles := List.filter is_pdf selectedFiles in
  let st :=
    if negb (Nat.eqb (length pdfFiles) (length selectedFiles)) then
      toast {| title := "Invalid files detected";
               description := "Only PDF files are supported. Non-PDF files have been filtered out.";
               variant := Some "destructive" |} st
    else st in
  if Nat.eqb (length pdfFiles) 0 then
    toast {| title := "No valid files";
             description := "Please select PDF files to upload.";
             variant := Some "destructive" |} st
  else
    let newFiles :=
      map (fun file => {| name := file_name file; size := file_size file; status := Uploading |})
        pdfFiles in
    let st := setFiles (fun _ => newFiles) st in
    let st := setError None st in
    uploadFiles now pdfFiles res st.

(** [removeFile] and [clearAll] (lines 1025-1033). *)
Definition removeFile (index : nat) (st : State) : State :=
  setFiles (fun prev => map snd (List.filter (fun p => negb (Nat.eqb (fst p) index))
                                   (combine (seq 0 (length prev)) prev))) st.

Definition clearAll (st : State) : State :=
  setUploadProgress 0 (setError None (setFiles (fun _ => []) st)).

End Upload.

(** ** Strings: the double quote, [join], the content type *)
Module Text.
Import JS.

(** The double quote (code 34), in a [string] and as a code unit. *)
Definition quote : string := String (ascii_of_nat 34) EmptyString.

Definition quote_unit : jsstring := [34%N].

(** [parts.join(sep)]. *)
Fixpoint join (sep : jsstring) (parts : list jsstring) : jsstring :=
  match parts with
  | [] => []
  | p :: rest =>
      match rest with
      | [] => p
      | _ :: _ => p ++ sep ++ join sep rest
      end
  end.

(** [!contentType || !contentType.includes("application/json")], negated:
    the answer announces a JSON body. *)
Definition announces_json (contentType : option string) : bool :=
  match contentType with
  | Some c => str_truthy c && includes c "application/json"
  | None => false
  end.

End Text.

(** ** InsightsPanel ([src/components/insights-panel.tsx], lines 12-266) *)
Module Insights.
Import JS Text.
Local Open Scope string_scope.

(** [interface RelatedSnippet].  The text of a snippet is kept as code units,
    like the selected text it is joined to; [page_number] is a page count, a
    natural number, [None] when the property is absent. *)
Record RelatedSnippet := {
  document_name : string;
  section_title : string;
  snippet : jsstring;
  relevance_score : number;
  page_number : option N
}.

(** [interface InsightData]. *)
Record InsightData := {
  key_takeaways : list string;
  contradictions_or_counterpoints : list string;
  related_examples : list string
}.

(** The props the functions read. *)
Record Props := {
  selectedText : jsstring;
  clusterId : string
}.

(** The bodies of the three requests. *)
Inductive Request :=
| Recommendations_request (query_text : jsstring) (cluster_id : string)
| Insights_request (text : jsstring)
| Podcast_request (intro discussion : jsstring).

(** A [Response]: [ok], [statusText], the [content-type] header ([None] when
    absent) and what [json()] settles to (the message of its rejection, or
    the parsed body). *)
Record Response (A : Type) := {
  ok : bool;
  statusText : string;
  content_type : option string;
  json : string + A
}.
Arguments ok {A}.
Arguments statusText {A}.
Arguments content_type {A}.
Arguments json {A}.

(** What [fetch] settles to. *)
Inductive FetchResult (A : Type) :=
| Rejected (message : string)
| Responded (response : Response A).
Arguments Rejected {A}.
Arguments Responded {A}.

(** The parsed body of the recommendations endpoint: an array of snippets,
    [null], or another value with its [snippets] property ([None] when it is
    absent or [null]). *)
Inductive SnippetsBody :=
| Body_array (data : list RelatedSnippet)
| Body_null
| Body_object (snippets : option (list RelatedSnippet)).

(** [Array.isArray(data) ? data : data.snippets || []] (line 114): the
    snippets, or the message of the [TypeError] of reading a property of
    [null].  An array, even an empty one, is truthy. *)
Definition snippets_of (typeError : string) (data : SnippetsBody)
    : string + list RelatedSnippet :=
  match data with
  | Body_array data => inr data
  | Body_null => inl typeError
  | Body_object (Some snippets) => inr snippets
  | Body_object None => inr []
  end.

(** The state of the component, and what it has done: the calls to [toast],
    the requests sent, the calls to [onNavigateToDocument].  [isPlaying] and
    [activeTab], which none of the functions below reads or writes, are left
    out. *)
Record State := {
  recommendations : list RelatedSnippet;
  insights : option InsightData;
  podcastUrl : option string;
  isLoadingRecommendations : bool;
  isLoadingInsights : bool;
  isGeneratingPodcast : bool;
  error : option string;
  toasts : list Toast;
  requests : list Request;
  navigations : list (string * option N)
}.

Definition initial : State :=
  {| recommendations := []; insights := None; podcastUrl := None;
     isLoadingRecommendations := false; isLoadingInsights := false;
     isGeneratingPodcast := false; error := None; toasts := []; requests := [];
     navigations := [] |}.

Definition setRecommendations (l : list RelatedSnippet) (st : State) : State :=
  {| recommendations := l; insights := insights st; podcastUrl := podcastUrl st;
     isLoadingRecommendations := isLoadingRecommendations st;
     isLoadingInsights := isLoadingInsights st;
     isGeneratingPodcast := isGeneratingPodcast st; error := error st;
     toasts := toasts st; requests := requests st; navigations := navigations st |}.

Definition setInsights (i : option InsightData) (st : State) : State :=
  {| recommendations := recommendations st; insights := i; podcastUrl := podcastUrl st;
     isLoadingRecommendations := isLoadingRecommendations st;
     isLoadingInsights := isLoadingInsights st;
     isGeneratingPodcast := isGeneratingPodcast st; error := error st;
     toasts := toasts st; requests := requests st; navigations := navigations st |}.

Definition setPodcastUrl (u : option string) (st : State) : State :=
  {| recommendations := recommendations st; insights := insights st; podcastUrl := u;
     isLoadingRecommendations := isLoadingRecommendations st;
     isLoadingInsights := isLoadingInsights st;
     isGeneratingPodcast := isGeneratingPodcast st; error := error st;
     toasts := toasts st; requests := requests st; navigations := navigations st |}.

Definition setIsLoadingRecommendations (b : bool) (st : State) : State :=
  {| recommendations := recommendations st; insights := insights st;
     podcastUrl := podcastUrl st;
     isLoadingRecommendations := b;
     isLoadingInsights := isLoadingInsights st;
     isGeneratingPodcast := isGeneratingPodcast st; error := error st;
     toasts := toasts st; requests := requests st; navigations := navigations st |}.

Definition setIsLoadingInsights (b : bool) (st : State) : State :=
  {| recommendations := recommendations st; insights := insights st;
     podcastUrl := podcastUrl st;
     isLoadingRecommendations := isLoadingRecommendations st;
     isLoadingInsights := b;
     isGeneratingPodcast := isGeneratingPodcast st; error := error st;
     toasts := toasts st; requests := requests st; navigations := navigations st |}.

Definition setIsGeneratingPodcast (b : bool) (st : State) : State :=
  {| recommendations := recommendations st; insights := insights st;
     podcastUrl := podcastUrl st;
     isLoadingRecommendations := isLoadingRecommendations st;
     isLoadingInsights := isLoadingInsights st;
     isGeneratingPodcast := b; error := error st;
     toasts := toasts st; requests := requests st; navigations := navigations st |}.

Definition setError (e : option string) (st : State) : State :=
  {| recommendations := recommendations st; insights := insights st;
     podcastUrl := podcastUrl st;
     isLoadingRecommendations := isLoadingRecommendations st;
     isLoadingInsights := isLoadingInsights st;
     isGeneratingPodcast := isGeneratingPodcast st; error := e;
     toasts := toasts st; requests := requests st; navigations := navigations st |}.

Definition toast (t : Toast) (st : State) : State :=
  {| recommendations := recommendations st; insights := insights st;
     podcastUrl := podcastUrl st;
     isLoadingRecommendations := isLoadingRecommendations st;
     isLoadingInsights := isLoadingInsights st;
     isGeneratingPodcast := isGeneratingPodcast st; error := error st;
     toasts := (toasts st ++ [t])%list; requests := requests st;
     navigations := navigations st |}.

Definition fetch (body : Request) (st : State) : State :=
  {| recommendations := recommendations st; insights := insights st;
     podcastUrl := podcastUrl st;
     isLoadingRecommendations := isLoadingRecommendations st;
     isLoadingInsights := isLoadingInsights st;
     isGeneratingPodcast := isGeneratingPodcast st; error := error st;
     toasts := toasts st; requests := (requests st ++ [body])%list;
     navigations := navigations st |}.

Definition onNavigateToDocument (documentName : string) (pageNumber : option N)
    (st : State) : State :=
  {| recommendations := recommendations st; insights := insights st;
     podcastUrl := podcastUrl st;
     isLoadingRecommendations := isLoadingRecommendations st;
     isLoadingInsights := isLoadingInsights st;
     isGeneratingPodcast := isGeneratingPodcast st; error := error st;
     toasts := toasts st; requests := requests st;
     navigations := (navigations st ++ [(documentName, pageNumber)])%list |}.

(** The demo data of lines 79-104 and 145-160. *)
Definition mockRecommendations : list RelatedSnippet :=
  [ {| document_name := "ML_Fundamentals.pdf";
       section_title := "Introduction to Machine Learning";
       snippet := lit "Machine learning is a subset of artificial intelligence that focuses on algorithms that can learn and make decisions from data without being explicitly programmed for every scenario.";
       relevance_score := 0.92%float;
       page_number := Some 15%N |};
    {| document_name := "Data_Analysis_Guide.pdf";
       section_title := "Pattern Recognition Techniques";
       snippet := lit "Advanced pattern recognition techniques enable systems to identify complex relationships in large datasets, leading to more accurate predictions and insights.";
       relevance_score := 0.87%float;
       page_number := Some 23%N |};
    {| document_name := "AI_Applications.pdf";
       section_title := "Real-world Applications";
       snippet := lit "From recommendation systems to autonomous vehicles, machine learning algorithms are transforming industries by processing vast amounts of data to make intelligent decisions.";
       relevance_score := 0.81%float;
       page_number := Some 8%N |} ].

Definition mockInsights : InsightData :=
  {| key_takeaways :=
       [ "Machine learning enables computers to learn from data without explicit programming";
         "Pattern recognition is fundamental to extracting meaningful insights from large datasets";
         "ML algorithms can revolutionize data analysis across various industries" ];
     contradictions_or_counterpoints :=
       [ "While ML can automate analysis, human expertise is still crucial for interpreting results";
         "Large datasets don't always guarantee better outcomes - quality matters more than quantity" ];
     related_examples :=
       [ "Netflix uses ML algorithms to recommend movies based on viewing patterns";
         "Financial institutions employ ML for fraud detection and risk assessment";
         "Healthcare systems use pattern recognition for medical image analysis" ] |}.

(** [fetchRecommendations] (lines 57-123) up to its [await fetch]. *)
Definition fetchRecommendations_begin (p : Props) (st : State) : State :=
  let st := setIsLoadingRecommendations true st in
  let st := setError None st in
  fetch (Recommendations_request (selectedText p) (clusterId p)) st.

(** [fetchRecommendations] once [fetch] has settled to [res].  [typeError]
    is the message the engine gives the [TypeError] of reading a property of
    [null]. *)
Definition fetchRecommendations_settle (typeError : string)
    (res : FetchResult SnippetsBody) (st : State) : State :=
  let st :=
    match res with
    | Rejected message => setError (Some message) st
    | Responded response =>
        if negb (announces_json (content_type response)) then
          setRecommendations mockRecommendations st
        else if negb (ok response) then
          setError (Some ("Failed to fetch recommendations: " +:+ statusText response)) st
        else
          match json response with
          | inl message => setError (Some message) st
          | inr data =>
              match snippets_of typeError data with
              | inl message => setError (Some message) st
              | inr snippets => setRecommendations (take 5 snippets) st
              end
          end
    end in
  setIsLoadingRecommendations false st.

Definition fetchRecommendations (typeError : string) (p : Props)
    (res : FetchResult SnippetsBody) (st : State) : State :=
  fetchRecommendations_settle typeError res (fetchRecommendations_begin p st).

(** [fetchInsights] (lines 125-187) up to its [await fetch], and once
    [fetch] has settled.  The parsed body is [None] for [null]. *)
Definition fetchInsights_begin (p : Props) (st : State) : State :=
  let st := setIsLoadingInsights true st in
  fetch (Insights_request (selectedText p)) st.

Definition fetchInsights_settle (res : FetchResult (option InsightData)) (st : State)
    : State :=
  let st :=
    match res with
    | Rejected _ => st
    | Responded response =>
        if negb (announces_json (content_type response)) then
          let st := setInsights (Some mockInsights) st in
          toast {| title := "Insights generated (Demo)";
                   description := "AI analysis of your selected text is ready.";
                   variant := None |} st
        else if negb (ok response) then st
        else
          match json response with
          | inl _ => st
          | inr data =>
              let st := setInsights data st in
              toast {| title := "Insights generated";
                       description := "AI analysis of your selected text is ready.";
                       variant := None |} st
          end
    end in
  setIsLoadingInsights false st.

Definition fetchInsights (p : Props) (res : FetchResult (option InsightData))
    (st : State) : State :=
  fetchInsights_settle res (fetchInsights_begin p st).

(** The effect of lines 45-55, run when [selectedText] or [clusterId]
    changes: what it does before any answer arrives, and the whole of it when
    the answers arrive in the order of the requests. *)
Definition no_selection (p : Props) : bool :=
  negb (text_truthy (selectedText p)) || negb (str_truthy (clusterId p)).

Definition effect_begin (p : Props) (st : State) : State :=
  if no_selection p then
    let st := setRecommendations [] st in
    let st := setInsights None st in
    setPodcastUrl None st
  else
    let st := fetchRecommendations_begin p st in
    fetchInsights_begin p st.

Definition effect (typeError : string) (p : Props) (recs : FetchResult SnippetsBody)
    (ins : FetchResult (option InsightData)) (st : State) : State :=
  if no_selection p then effect_begin p st
  else fetchInsights_settle ins (fetchRecommendations_settle typeError recs (effect_begin p st)).

(** [generatePodcast] (lines 189-246); [res] is what its [fetch] settles to.
    The parsed body is [None] for [null], and otherwise its [audio_url]
    property ([None] when absent). *)
Definition podcast_intro (p : Props) : jsstring :=
  (lit "Welcome to Document Insights. Today we're exploring: " ++ quote_unit
   ++ take 100 (selectedText p) ++ lit "..." ++ quote_unit)%list.

Definition podcast_discussion (p : Props) (recommendations : list RelatedSnippet) : jsstring :=
  let topSnippets := join (lit " ") (map snippet (take 3 recommendations)) in
  (selectedText p ++ lit " " ++ topSnippets)%list.

Definition podcast_failed (errorMessage : string) (st : State) : State :=
  toast {| title := "Podcast generation failed"; description := errorMessage;
           variant := Some "destructive" |} st.

Definition generatePodcast (typeError : string) (p : Props)
    (res : FetchResult (option (option string))) (st : State) : State :=
  if negb (text_truthy (selectedText p)) || Nat.eqb (length (recommendations st)) 0 then
    toast {| title := "Cannot generate podcast";
             description := "Need selected text and related snippets to create podcast content.";
             variant := Some "destructive" |} st
  else
    let st := setIsGeneratingPodcast true st in
    let st := fetch (Podcast_request (podcast_intro p)
                       (podcast_discussion p (recommendations st))) st in
    let st :=
      match res with
      | Rejected message => podcast_failed message st
      | Responded response =>
          if negb (ok response) then
            podcast_failed ("Failed to generate podcast: " +:+ statusText response) st
          else
            match json response with
            | inl message => podcast_failed message st
            | inr None => podcast_failed typeError st
            | inr (Some audio_url) =>
                let st := setPodcastUrl audio_url st in
                toast {| title := "Podcast generated";
                         description := "Your AI-generated podcast is ready to play.";
                         variant := None |} st
            end
      end in
    setIsGeneratingPodcast false st.

(** [handleSnippetClick] (lines 248-256). *)
Definition handleSnippetClick (snippet : RelatedSnippet) (st : State) : State :=
  let st := onNavigateToDocument (document_name snippet) (page_number snippet) st in
  toast {| title := "Navigating to document";
           description :=
             "Opening " +:+ quote +:+ document_name snippet +:+ quote +:+ " "
             +:+ match page_number snippet with
                 | Some n => if N.eqb n 0 then "" else "at page " +:+ pretty n
                 | None => ""
                 end;
           variant := None |} st.

(** [getRelevanceColor] (lines 258-262). *)
Definition getRelevanceColor (score : number) : string :=
  if (0.8 <=? score)%float then "bg-green-100 text-green-800 dark:bg-green-900 dark:text-green-200"
  else if (0.6 <=? score)%float
  then "bg-yellow-100 text-yellow-800 dark:bg-yellow-900 dark:text-yellow-200"
  else "bg-gray-100 text-gray-800 dark:bg-gray-800 dark:text-gray-200".

(** What the component does between two renders. *)
Inductive Event :=
| Props_change (p : Props)
| Recommendations_settle (res : FetchResult SnippetsBody)
| Insights_settle (res : FetchResult (option InsightData))
| Generate_podcast (p : Props) (res : FetchResult (option (option string)))
| Snippet_click (index : nat).

(** One event.  A change of the props runs the effect, which starts its two
    requests; their answers arrive later, in any order; a click on the card
    at [index] of the list calls [handleSnippetClick] with its snippet. *)
Definition step (typeError : string) (st : State) (e : Event) : State :=
  match e with
  | Props_change p => effect_begin p st
  | Recommendations_settle res => fetchRecommendations_settle typeError res st
  | Insights_settle res => fetchInsights_settle res st
  | Generate_podcast p res => generatePodcast typeError p res st
  | Snippet_click index =>
      match recommendations st !! index with
      | Some snippet => handleSnippetClick snippet st
      | None => st
      end
  end.

End Insights.

(** ** RecommendationsPanel ([src/components/insights-panel.tsx],
    lines 594-694) *)
Module Recommendations.
Import JS Text.
Local Open Scope string_scope.

(** [interface RelatedSnippet] is declared again with the same properties
    and the panel has the same props: [Insights.RelatedSnippet] and
    [Insights.Props] stand for them.  The state of the component, the timeout
    its effect has pending ([None] when there is none), and what it has
    done. *)
Record State := {
  recommendations : list Insights.RelatedSnippet;
  isLoading : bool;
  error : option string;
  timeout : option Insights.Props;
  toasts : list Toast;
  requests : list Insights.Request
}.

Definition initial : State :=
  {| recommendations := []; isLoading := false; error := None; timeout := None;
     toasts := []; requests := [] |}.

Definition setRecommendations (l : list Insights.RelatedSnippet) (st : State) : State :=
  {| recommendations := l; isLoading := isLoading st; error := error st;
     timeout := timeout st; toasts := toasts st; requests := requests st |}.

Definition setIsLoading (b : bool) (st : State) : State :=
  {| recommendations := recommendations st; isLoading := b; error := error st;
     timeout := timeout st; toasts := toasts st; requests := requests st |}.

Definition setError (e : option string) (st : State) : State :=
  {| recommendations := recommendations st; isLoading := isLoading st; error := e;
     timeout := timeout st; toasts := toasts st; requests := requests st |}.

Definition setTimeout (p : Insights.Props) (st : State) : State :=
  {| recommendations := recommendations st; isLoading := isLoading st; error := error st;
     timeout := Some p; toasts := toasts st; requests := requests st |}.

Definition clearTimeout (st : State) : State :=
  {| recommendations := recommendations st; isLoading := isLoading st; error := error st;
     timeout := None; toasts := toasts st; requests := requests st |}.

Definition toast (t : Toast) (st : State) : State :=
  {| recommendations := recommendations st; isLoading := isLoading st; error := error st;
     timeout := timeout st; toasts := (toasts st ++ [t])%list; requests := requests st |}.

Definition fetch (body : Insights.Request) (st : State) : State :=
  {| recommendations := recommendations st; isLoading := isLoading st; error := error st;
     timeout := timeout st; toasts := toasts st; requests := (requests st ++ [body])%list |}.

(** [fetchRecommendations] (lines 621-669) up to its [await fetch], and once
    [fetch] has settled to [res]. *)
Definition fetchRecommendations_begin (p : Insights.Props) (st : State) : State :=
  let st := setIsLoading true st in
  let st := setError None st in
  fetch (Insights.Recommendations_request (Insights.selectedText p) (Insights.clusterId p)) st.

Definition failed (errorMessage : string) (st : State) : State :=
  let st := setError (Some errorMessage) st in
  toast {| title := "Failed to find related content"; description := errorMessage;
           variant := Some "destructive" |} st.

Definition found (snippets : list Insights.RelatedSnippet) (st : State) : State :=
  let st := setRecommendations (take 5 snippets) st in
  if Nat.ltb 0 (length snippets) then
    toast {| title := "Related content found";
             description :=
               "Found " +:+ pretty (length snippets) +:+ " related snippet"
               +:+ (if negb (Nat.eqb (length snippets) 1) then "s" else "")
               +:+ " across your documents.";
             variant := None |} st
  else st.

Definition fetchRecommendations_settle (typeError : string)
    (res : Insights.FetchResult Insights.SnippetsBody) (st : State) : State :=
  let st :=
    match res with
    | Insights.Rejected message => failed message st
    | Insights.Responded response =>
        if negb (Insights.ok response) then
          failed ("Failed to fetch recommendations: " +:+ Insights.statusText response) st
        else
          match Insights.json response with
          | inl message => failed message st
          | inr data =>
              match Insights.snippets_of typeError data with
              | inl message => failed message st
              | inr snippets => found snippets st
              end
          end
    end in
  setIsLoading false st.

(** The effect of lines 615-674, run when [selectedText] or [clusterId]
    changes, after the cleanup the previous run has returned (which clears
    its timeout). *)
Definition effect (st : State) (p : Insights.Props) : State :=
  let st := clearTimeout st in
  if Insights.no_selection p then setRecommendations [] st
  else setTimeout p st.

(** The pending timeout fires, 500 ms after the effect that set it: it calls
    the [fetchRecommendations] of that effect. *)
Definition timeout_fires (st : State) : State :=
  match timeout st with
  | Some p => fetchRecommendations_begin p (clearTimeout st)
  | None => st
  end.

End Recommendations.

(** ** PDFViewer ([src/components/pdf-viewer.tsx]): the state of the
    component *)
Module PDFViewer.
Import JS Text.
Local Open Scope string_scope.

(** The props, and [process.env.NEXT_PUBLIC_ADOBE_CLIENT_ID] ([None] when
    it is not set). *)
Record Props := {
  clientId : option string;
  documentUrl : string;
  documentName : string
}.

(** The state, [adobeViewRef.current] ([true] when it holds a view), and the
    calls of [apis.gotoLocation]. *)
Record State := {
  isLoading : bool;
  error : option string;
  isAdobeSDKReady : bool;
  useFallback : bool;
  adobeViewRef : bool;
  gotoLocation : list N
}.

Definition initial : State :=
  {| isLoading := true; error := None; isAdobeSDKReady := false; useFallback := false;
     adobeViewRef := false; gotoLocation := [] |}.

Definition setIsLoading (b : bool) (st : State) : State :=
  {| isLoading := b; error := error st; isAdobeSDKReady := isAdobeSDKReady st;
     useFallback := useFallback st; adobeViewRef := adobeViewRef st;
     gotoLocation := gotoLocation st |}.

Definition setError (e : option string) (st : State) : State :=
  {| isLoading := isLoading st; error := e; isAdobeSDKReady := isAdobeSDKReady st;
     useFallback := useFallback st; adobeViewRef := adobeViewRef st;
     gotoLocation := gotoLocation st |}.

Definition setIsAdobeSDKReady (b : bool) (st : State) : State :=
  {| isLoading := isLoading st; error := error st; isAdobeSDKReady := b;
     useFallback := useFallback st; adobeViewRef := adobeViewRef st;
     gotoLocation := gotoLocation st |}.

Definition setUseFallback (b : bool) (st : State) : State :=
  {| isLoading := isLoading st; error := error st; isAdobeSDKReady := isAdobeSDKReady st;
     useFallback := b; adobeViewRef := adobeViewRef st;
     gotoLocation := gotoLocation st |}.

Definition setAdobeViewRef (b : bool) (st : State) : State :=
  {| isLoading := isLoading st; error := error st; isAdobeSDKReady := isAdobeSDKReady st;
     useFallback := useFallback st; adobeViewRef := b;
     gotoLocation := gotoLocation st |}.

(** [!clientId]: the variable is not set, or is the empty string. *)
Definition no_clientId (p : Props) : bool :=
  match clientId p with
  | Some c => negb (str_truthy c)
  | None => true
  end.

(** Line 32. *)
Definition shouldUseFallback (p : Props) : bool :=
  no_clientId p || String.prefix "blob:" (documentUrl p).

(** [checkAdobeSDK] (lines 42-61).  [sdk k] tells whether [window.AdobeDC]
    is defined at the call number [k]; a call that finds nothing and has
    attempts left schedules the next one, 100 ms later.  The result is the
    number of attempts made and the state. *)
Definition maxAttempts : nat := 30.

Fixpoint checkAdobeSDK (fuel : nat) (sdk : nat -> bool) (attempts : nat) (st : State)
    : option (nat * State) :=
  match fuel with
  | O => None
  | S fuel =>
      if sdk attempts then Some (attempts, setIsAdobeSDKReady true st)
      else
        let attempts := S attempts in
        if Nat.leb maxAttempts attempts then
          Some (attempts, setIsLoading false (setUseFallback true st))
        else checkAdobeSDK fuel sdk attempts st
  end.

(** The effect of lines 34-68, with the calls of [checkAdobeSDK] it leads
    to. *)
Definition sdk_effect (fuel : nat) (p : Props) (sdk : nat -> bool) (st : State)
    : option State :=
  if shouldUseFallback p then Some (setIsLoading false (setUseFallback true st))
  else
    match checkAdobeSDK fuel sdk 0 st with
    | Some (_, st) => Some st
    | None => None
    end.

(** How a call of [initializePDFViewer] (lines 150-219) goes: an exception
    before the view is stored (no SDK, the constructor throws), a rejection of
    [previewFile] or an exception after it, the loading timeout before
    [previewFile] resolves, or success. *)
Inductive Initialization :=
| Throws_before_view
| Throws_after_view
| Times_out
| Succeeds.

Definition initializePDFViewer (how : Initialization) (st : State) : State :=
  let st := setIsLoading true st in
  let st := setError None st in
  match how with
  | Throws_before_view => setIsLoading false (setUseFallback true st)
  | Throws_after_view => setIsLoading false (setUseFallback true (setAdobeViewRef true st))
  | Times_out => setIsLoading false (setUseFallback true (setAdobeViewRef true st))
  | Succeeds => setIsLoading false (setAdobeViewRef true st)
  end.

(** The effect of lines 137-228, after the cleanup the previous run has
    returned (which clears [adobeViewRef]).  [viewer] tells whether
    [viewerRef.current] holds the element. *)
Definition viewer_effect (p : Props) (viewer : bool) (how : Initialization) (st : State)
    : State :=
  let st := setAdobeViewRef false st in
  if shouldUseFallback p || useFallback st then setIsLoading false st
  else if no_clientId p then
    let st := setError (Some "Adobe Client ID not configured. Please set NEXT_PUBLIC_ADOBE_CLIENT_ID environment variable.") st in
    setIsLoading false st
  else if isAdobeSDKReady st && viewer && str_truthy (documentUrl p) then
    initializePDFViewer how st
  else st.

(** [goToLocation] (lines 230-236). *)
Definition goToLocation (pageNumber : N) (st : State) : State :=
  if adobeViewRef st then
    {| isLoading := isLoading st; error := error st; isAdobeSDKReady := isAdobeSDKReady st;
       useFallback := useFallback st; adobeViewRef := adobeViewRef st;
       gotoLocation := (gotoLocation st ++ [pageNumber])%list |}
  else st.

(** What the component renders (lines 242-333). *)
Inductive View :=
| Fallback_viewer
| Loading_SDK
| Error_alert (error : string)
| Adobe_viewer (loading : bool).

Definition render (p : Props) (st : State) : View :=
  if shouldUseFallback p || useFallback st then Fallback_viewer
  else if negb (isAdobeSDKReady st) then Loading_SDK
  else
    match error st with
    | Some e => if str_truthy e then Error_alert e else Adobe_viewer (isLoading st)
    | None => Adobe_viewer (isLoading st)
    end.

(** The two sample selections of the fallback viewer (lines 95-116). *)
Definition sample_text_1 : jsstring :=
  lit "Machine learning algorithms have revolutionized data analysis by enabling computers to learn patterns from large datasets without explicit programming.".

Definition sample_text_2 : jsstring :=
  lit "The integration of artificial intelligence in business processes has led to significant improvements in efficiency and decision-making capabilities.".

(** What happens to the component. *)
Inductive Event :=
| Sdk_effect (p : Props) (sdk : nat -> bool)
| Viewer_effect (p : Props) (viewer : bool) (how : Initialization)
| Use_demo_mode
| Navigate (pageNumber : N).

Definition step (st : State) (e : Event) : State :=
  match e with
  | Sdk_effect p sdk =>
      match sdk_effect maxAttempts p sdk st with
      | Some st => st
      | None => st
      end
  | Viewer_effect p viewer how => viewer_effect p viewer how st
  | Use_demo_mode => setUseFallback true st
  | Navigate pageNumber => goToLocation pageNumber st
  end.

End PDFViewer.

(** ** The page ([src/app/page.tsx]): [DocumentInsightEngine] *)
Module Page.
Import JS Text.
Local Open Scope string_scope.

(** The state of the page, and the timeouts [handleNavigateToDocument] has
    set: the page numbers [window.pdfNavigate] is to be called with.  The
    theme is left out. *)
Record State := {
  clusterId : option string;
  documents : list string;
  selectedDocument : option string;
  showInsights : bool;
  showKnowledgeGraph : bool;
  selectedText : jsstring;
  sidebarCollapsed : bool;
  isMobile : bool;
  timeouts : list N
}.

Definition initial : State :=
  {| clusterId := None; documents := []; selectedDocument := None; showInsights := false;
     showKnowledgeGraph := false; selectedText := []; sidebarCollapsed := false;
     isMobile := false; timeouts := [] |}.

(** [checkMobile] (lines 27-32). *)
Definition checkMobile (innerWidth : number) (st : State) : State :=
  {| clusterId := clusterId st; documents := documents st;
     selectedDocument := selectedDocument st; showInsights := showInsights st;
     showKnowledgeGraph := showKnowledgeGraph st; selectedText := selectedText st;
     sidebarCollapsed := if (innerWidth <? 768)%float then true else sidebarCollapsed st;
     isMobile := (innerWidth <? 768)%float; timeouts := timeouts st |}.

(** [handleUploadComplete] (lines 39-45). *)
Definition handleUploadComplete (newClusterId : string) (documentNames : list string)
    (st : State) : State :=
  {| clusterId := Some newClusterId; documents := documentNames;
     selectedDocument := match documentNames with
                         | first :: _ => Some first
                         | [] => selectedDocument st
                         end;
     showInsights := showInsights st;
     showKnowledgeGraph := showKnowledgeGraph st; selectedText := selectedText st;
     sidebarCollapsed := sidebarCollapsed st; isMobile := isMobile st;
     timeouts := timeouts st |}.

(** [handleTextSelection] (lines 47-51). *)
Definition handleTextSelection (text : jsstring) (documentName : string) (st : State)
    : State :=
  {| clusterId := clusterId st; documents := documents st;
     selectedDocument := selectedDocument st; showInsights := true;
     showKnowledgeGraph := showKnowledgeGraph st; selectedText := text;
     sidebarCollapsed := sidebarCollapsed st; isMobile := isMobile st;
     timeouts := timeouts st |}.

(** [handleNavigateToDocument] (lines 53-63), in the browser. *)
Definition handleNavigateToDocument (documentName : string) (pageNumber : option N)
    (st : State) : State :=
  {| clusterId := clusterId st; documents := documents st;
     selectedDocument := Some documentName; showInsights := showInsights st;
     showKnowledgeGraph := showKnowledgeGraph st; selectedText := selectedText st;
     sidebarCollapsed := sidebarCollapsed st; isMobile := isMobile st;
     timeouts := match pageNumber with
                 | Some n => if N.eqb n 0 then timeouts st else (timeouts st ++ [n])%list
                 | None => timeouts st
                 end |}.

(** What the main area shows (lines 268-302). *)
Inductive MainArea :=
| Ready_to_analyze
| Viewer_of (documentName clusterId : string)
| Select_a_document.

Definition main_area (st : State) : MainArea :=
  match clusterId st with
  | Some c =>
      if str_truthy c then
        match selectedDocument st with
        | Some d => if str_truthy d then Viewer_of d c else Select_a_document
        | None => Select_a_document
        end
      else Ready_to_analyze
  | None => Ready_to_analyze
  end.

(** The children call the page: [DocumentUpload] with the calls of
    [onUploadComplete] it has made, or an [InsightsPanel] with the calls of
    [onNavigateToDocument] it has made. *)
Definition uploads_completed (calls : list (string * list string)) (st : State) : State :=
  fold_left (fun st call => handleUploadComplete (fst call) (snd call) st) calls st.

Definition navigations_made (calls : list (string * option N)) (st : State) : State :=
  fold_left (fun st call => handleNavigateToDocument (fst call) (snd call) st) calls st.

(** A selection reaches the page from the listener of the embedded viewer,
    or from one of the two buttons of the fallback viewer: the call of
    [onTextSelection] it leads to, if any. *)
Inductive Selection :=
| Viewer_event (event : Viewer.ViewerEvent)
| Sample_text_1
| Sample_text_2.

Definition onTextSelection (documentName : string) (s : Selection)
    : option (jsstring * string) :=
  match s with
  | Viewer_event event => Viewer.event_listener documentName event
  | Sample_text_1 => Some (PDFViewer.sample_text_1, documentName)
  | Sample_text_2 => Some (PDFViewer.sample_text_2, documentName)
  end.

Definition select (documentName : string) (st : State) (s : Selection) : State :=
  match onTextSelection documentName s with
  | Some (selectedText, documentName) => handleTextSelection selectedText documentName st
  | None => st
  end.

(** The other writers of the state: the cards of the library (line 171),
    the buttons of the sidebar (lines 195, 212, 227 and 246, disabled without
    a cluster), the close button of the insights (line 319), [onClose] of the
    graph (line 339), the sidebar toggles (lines 79 and 135) and the overlay
    (line 260). *)
Definition setSelectedDocument (doc : string) (st : State) : State :=
  {| clusterId := clusterId st; documents := documents st;
     selectedDocument := Some doc; showInsights := showInsights st;
     showKnowledgeGraph := showKnowledgeGraph st; selectedText := selectedText st;
     sidebarCollapsed := sidebarCollapsed st; isMobile := isMobile st;
     timeouts := timeouts st |}.

Definition setShowInsights (b : bool) (st : State) : State :=
  {| clusterId := clusterId st; documents := documents st;
     selectedDocument := selectedDocument st; showInsights := b;
     showKnowledgeGraph := showKnowledgeGraph st; selectedText := selectedText st;
     sidebarCollapsed := sidebarCollapsed st; isMobile := isMobile st;
     timeouts := timeouts st |}.

Definition setShowKnowledgeGraph (b : bool) (st : State) : State :=
  {| clusterId := clusterId st; documents := documents st;
     selectedDocument := selectedDocument st; showInsights := showInsights st;
     showKnowledgeGraph := b; selectedText := selectedText st;
     sidebarCollapsed := sidebarCollapsed st; isMobile := isMobile st;
     timeouts := timeouts st |}.

Definition setSidebarCollapsed (b : bool) (st : State) : State :=
  {| clusterId := clusterId st; documents := documents st;
     selectedDocument := selectedDocument st; showInsights := showInsights st;
     showKnowledgeGraph := showKnowledgeGraph st; selectedText := selectedText st;
     sidebarCollapsed := b; isMobile := isMobile st;
     timeouts := timeouts st |}.

(** [!!clusterId]. *)
Definition has_cluster (st : State) : bool :=
  match clusterId st with
  | Some c => str_truthy c
  | None => false
  end.

(** What happens to the page.  A selection comes from the viewer, which is
    mounted when the main area shows a document, with the name of that
    document. *)
Inductive Event :=
| Upload_completed (newClusterId : string) (documentNames : list string)
| Selection_made (s : Selection)
| Navigation (documentName : string) (pageNumber : option N)
| Resize (innerWidth : number)
| Document_click (index : nat)
| Insights_button
| Insights_close
| Graph_button
| Graph_close
| Sidebar_toggle
| Overlay_click.

Definition step (st : State) (e : Event) : State :=
  match e with
  | Upload_completed newClusterId documentNames =>
      handleUploadComplete newClusterId documentNames st
  | Selection_made s =>
      match main_area st with
      | Viewer_of documentName _ => select documentName st s
      | _ => st
      end
  | Navigation documentName pageNumber => handleNavigateToDocument documentName pageNumber st
  | Resize innerWidth => checkMobile innerWidth st
  | Document_click index =>
      match documents st !! index with
      | Some doc => setSelectedDocument doc st
      | None => st
      end
  | Insights_button => if has_cluster st then setShowInsights true st else st
  | Insights_close => setShowInsights false st
  | Graph_button => if has_cluster st then setShowKnowledgeGraph true st else st
  | Graph_close => setShowKnowledgeGraph false st
  | Sidebar_toggle => setSidebarCollapsed (negb (sidebarCollapsed st)) st
  | Overlay_click => setSidebarCollapsed true st
  end.

End Page.

(* ================================================================== *)
(** * Part II.  Definitions the proofs use                             *)
(* ================================================================== *)

(** ** Binary64 rounding, read off [SpecFloat] *)
Module Round.
Local Open Scope Z_scope.

(** The record [shr] holds after [k] right shifts of the mantissa [M]: the
    quotient by [2^k], with both round bits clear when the shift was exact. *)
Definition shifted (M k : Z) (mrs : shr_record) : Prop :=
  0 <= shr_m mrs /\
  shr_m mrs * 2 ^ k <= M < (shr_m mrs + 1) * 2 ^ k /\
  (M = shr_m mrs * 2 ^ k -> shr_r mrs = false /\ shr_s mrs = false).

(** What [binary_round_aux] returns for the final mantissa and exponent. *)
Definition rounded (s : bool) (m2 e2 : Z) : spec_float :=
  match m2 with
  | 0 => S754_zero s
  | Zpos m => if e2 <=? emax - prec then S754_finite s m e2 else S754_infinity s
  | Zneg _ => S754_nan
  end.

(** The order of two positive floats given by mantissa and exponent. *)
Definition below (m : positive) (e : Z) (m' : positive) (e' : Z) : Prop :=
  e < e' \/ (e = e' /\ Zpos m <= Zpos m').

(** Side conditions on constants, decided by evaluation.  [mul_check A c B]:
    the exact product [A * c] is at most [B].  [add_check T c Lo Hi]: the
    exact sum [T + c] is at most [Hi], and [Lo] is at most [c]. *)
Definition mul_check (A c B : float) : bool :=
  match Prim2SF A, Prim2SF c, Prim2SF B with
  | S754_finite false mA eA, S754_finite false mc ec, S754_finite false mB eB =>
      (eA + ec <=? eB) &&
      (Zpos mA * Zpos mc * 2 ^ (eA + ec + 2148) <=? Zpos mB * 2 ^ (eB + 2148))
  | _, _, _ => false
  end.

Definition add_check (T c Lo Hi : float) : bool :=
  match Prim2SF T, Prim2SF c, Prim2SF Lo, Prim2SF Hi with
  | S754_finite false mT eT, S754_finite false mc ec,
    S754_finite false mL eL, S754_finite false mH eH =>
      (ec <=? eH) &&
      (Zpos mT * 2 ^ (eT + 1074) + Zpos mc * 2 ^ (ec + 1074) <=? Zpos mH * 2 ^ (eH + 1074)) &&
      (Zpos mL * 2 ^ (eL + 1074) <=? Zpos mc * 2 ^ (ec + 1074)) &&
      (Lo <=? c)%float && (c <=? Hi)%float
  | _, _, _, _ => false
  end.

End Round.

(** ** The graph: what a force reads of a node, zoom levels, concrete inputs *)
Module Support.
Import JS Graph.
Local Open Scope float_scope.

(** What the forces read of another node: its id and its position.  No loop
    of the force phases writes them. *)
Definition place (n : GraphNode) : string * option number * option number :=
  (node_id n, node_x n, node_y n).

(** A node that stands at a place. *)
Definition at_place (k : string * option number * option number) : GraphNode :=
  {| node_id := fst (fst k); node_label := []; node_size := None; node_color := None;
     node_x := snd (fst k); node_y := snd k; node_vx := None; node_vy := None |}.

(** The force on one node: the center force, then the repulsion of every
    node with another id, in the order of the array. *)
Definition forces_on (K : list (string * option number * option number)) (n : GraphNode)
    : GraphNode :=
  fold_left (fun acc k => spec_repel guard_or_1 (at_place k) acc) K (spec_centering n).

(** The zoom factors reachable from 1 by clicks on the two zoom buttons. *)
Fixpoint mem (z : number) (l : list number) : bool :=
  match l with
  | [] => false
  | z' :: l' => Leibniz.eqb z z' || mem z l'
  end.

Fixpoint reach (fuel : nat) (frontier seen : list number) : list number :=
  match fuel with
  | O => seen
  | S fuel' =>
      match frontier with
      | [] => seen
      | z :: rest =>
          let a := zoomIn_value z in
          let b := zoomOut_value z in
          let '(rest, seen) := if mem a seen then (rest, seen) else (rest ++ [a], a :: seen) in
          let '(rest, seen) := if mem b seen then (rest, seen) else (rest ++ [b], b :: seen) in
          reach fuel' rest seen
      end
  end.

Definition zoom_levels : list number := Eval vm_compute in reach 200 [1] [1].

Definition zoom_closed (l : list number) : bool :=
  forallb (fun z => mem (zoomIn_value z) l && mem (zoomOut_value z) l && between 0.5 3 z) l.

(** [b * b * ... * b], [n] factors, from the left. *)
Fixpoint power (b : number) (n : nat) : number :=
  match n with
  | O => 1
  | S n' => power b n' * b
  end.

(** The graph fetch fails (network error, non-success response, a body that
    is no JSON) or returns a payload without its [nodes] or [links] array. *)
Definition fetch_failed (res : FetchResult) : Prop :=
  match res with
  | Rejected _ => True
  | Response ok _ json =>
      ok = false \/
      match json with
      | inl _ => True
      | inr data => raw_nodes data = None \/ raw_links data = None
      end
  end.

(** A node as the fetch leaves it. *)
Definition normalized_node (n : GraphNode) : Prop :=
  node_id n <> ""%string /\ node_label n <> [] /\
  is_Some (node_size n) /\ is_Some (node_color n) /\
  node_vx n = Some 0 /\ node_vy n = Some 0 /\
  exists x y, node_x n = Some x /\ node_y n = Some y /\
              between 100 500 x = true /\ between 100 400 y = true.

(** A link as the fetch leaves it, from the link of the payload. *)
Definition normalized_link (raw : RawLink) (l : GraphLink) : Prop :=
  link_source l = raw_source raw /\ link_target l = raw_target raw /\
  link_weight l = Some (match raw_weight raw with
                        | Some w => if truthy w then w else 1
                        | None => 1
                        end) /\
  link_label l = Some (match raw_link_label raw with
                       | Some s => s
                       | None => ""%string
                       end).

(** The values [Math.random()] returns are in [0, 1). *)
Definition unit_interval (rnd : nat -> number) : Prop :=
  forall k, (0 <=? rnd k) = true /\ (rnd k <? 1) = true.

(** Events during a drag: pointer moves and animation frames. *)
Definition during_drag (e : Event) : Prop :=
  match e with
  | MouseMove _ | AnimationFrame => True
  | MouseDown _ | MouseUp | Click _ => False
  end.

(** Two nodes half a unit apart. *)
Definition node_at (ident : string) (x y : number) : GraphNode :=
  {| node_id := ident; node_label := lit ident; node_size := Some 10; node_color := Some "#dc2626"%string;
     node_x := Some x; node_y := Some y; node_vx := Some 0; node_vy := Some 0 |}.

Definition close_pair : GraphData :=
  {| nodes := [node_at "a" 300 200; node_at "b" 300.5 200]; links := [] |}.

(** The payload [{nodes: [{id: "a"}, {id: "b"}], links: [{source: "a", target: "z"}]}]. *)
Definition raw_bare (ident : string) : RawNode :=
  {| raw_id := Some ident; raw_label := None; raw_name := None; raw_size := None;
     raw_color := None |}.

Definition payload_a_b_z : RawGraph :=
  {| raw_nodes := Some [raw_bare "a"; raw_bare "b"];
     raw_links := Some [{| raw_source := "a"; raw_target := "z"; raw_weight := None;
                           raw_link_label := None |}] |}.

Definition link_a_z : GraphLink :=
  {| link_source := "a"; link_target := "z"; link_weight := Some 1; link_label := Some ""%string |}.

Definition graph_a_b_z : GraphData :=
  {| nodes := normalize_nodes (fun _ => 0.5) 0 0 [raw_bare "a"; raw_bare "b"];
     links := [link_a_z] |}.

Definition graph_a_b : GraphData :=
  {| nodes := [node_at "a" 150 120; node_at "b" 420 310];
     links := [{| link_source := "a"; link_target := "b"; link_weight := Some 1;
                  link_label := Some ""%string |}] |}.

(** The graph [graph_a_b] rendered at (10, 20), no pointer pressed. *)
Definition dragging_page : Page :=
  {| component := setGraphData (fun _ => Some graph_a_b) initial;
     viewport := {| left := 10; top := 20 |};
     mousemove := [] |}.

(** A payload with no [nodes] array. *)
Definition payload_no_nodes : RawGraph :=
  {| raw_nodes := None; raw_links := Some [] |}.

(** Files of a batch. *)
Definition report_pdf : Upload.File :=
  {| Upload.file_name := "report.pdf"; Upload.file_size := 1024;
     Upload.file_type := "application/pdf" |}.

Definition notes_txt : Upload.File :=
  {| Upload.file_name := "notes.txt"; Upload.file_size := 12;
     Upload.file_type := "text/plain" |}.

(** The answer "500 Internal Server Error", and the state in which the
    batch [report.pdf] is uploading. *)
Definition server_error : Upload.FetchResult :=
  Upload.Responded
    {| Upload.ok := false; Upload.statusText := "Internal Server Error";
       Upload.content_type := None; Upload.body_text := "";
       Upload.body_json := inl "Unexpected end of JSON input"%string |}.


Definition uploading_report : Upload.State :=
  Upload.setFiles
    (fun _ => [{| Upload.name := "report.pdf"; Upload.size := 1024;
                  Upload.status := Upload.Uploading |}])
    Upload.initial.


(** On a list of zoom factors: zoom-in raises each of them but 3, which it
    keeps, and zoom-out lowers each of them but 0.5, which it keeps. *)
Definition zoom_steps (l : list number) : bool :=
  forallb (fun z => (if Leibniz.eqb z 3 then Leibniz.eqb (zoomIn_value z) 3
                     else z <? zoomIn_value z)
                    && (if Leibniz.eqb z 0.5 then Leibniz.eqb (zoomOut_value z) 0.5
                        else zoomOut_value z <? z))
    l.

(** What the user does to the upload component, each operation settled
    before the next: a batch of files dropped or chosen (with the value of
    [Date.now()] and what the fetch of the upload settles to), a click on the
    remove button of the file at [index], a click on "Clear All". *)
Inductive UploadOp :=
| Drop_files (now : N) (res : Upload.FetchResult) (selectedFiles : list Upload.File)
| Remove_file (index : nat)
| Clear_all.

Definition upload_op (st : Upload.State) (op : UploadOp) : Upload.State :=
  match op with
  | Drop_files now res selectedFiles => Upload.handleFiles now res selectedFiles st
  | Remove_file index => Upload.removeFile index st
  | Clear_all => Upload.clearAll st
  end.

Definition upload_session (ops : list UploadOp) : Upload.State :=
  fold_left upload_op ops Upload.initial.

(** The fetch of the insights fails: [fetch] rejects, or the answer
    announces JSON and is not a success or has a body that does not parse. *)
Definition insights_fetch_failed (res : Insights.FetchResult (option Insights.InsightData))
    : Prop :=
  match res with
  | Insights.Rejected _ => True
  | Insights.Responded response =>
      Text.announces_json (Insights.content_type response) = true /\
      (Insights.ok response = false \/ exists message, Insights.json response = inl message)
  end.

(** The answer "500 Internal Server Error" with an HTML body, to a request
    for recommendations and to a request for insights; the answer 503 that
    announces JSON. *)
Definition html_error {A} : Insights.Response A :=
  {| Insights.ok := false; Insights.statusText := "Internal Server Error";
     Insights.content_type := Some "text/html; charset=utf-8"%string;
     Insights.json := inl "Unexpected token < in JSON at position 0"%string |}.

Definition json_unavailable : Insights.FetchResult (option Insights.InsightData) :=
  Insights.Responded
    {| Insights.ok := false; Insights.statusText := "Service Unavailable";
       Insights.content_type := Some "application/json"%string;
       Insights.json := inr None |}.

(** A selection in the cluster "c1", and a snippet. *)
Definition selection_c1 : Insights.Props :=
  {| Insights.selectedText := lit "neural networks"; Insights.clusterId := "c1" |}.

Definition snippet_of (documentName : string) (pageNumber : option N)
    : Insights.RelatedSnippet :=
  {| Insights.document_name := documentName; Insights.section_title := "Overview";
     Insights.snippet := lit "Layers of units."; Insights.relevance_score := 0.7;
     Insights.page_number := pageNumber |}.

(** The answer of the recommendations endpoint with the given snippets. *)
Definition snippets_answer (snippets : list Insights.RelatedSnippet)
    : Insights.FetchResult Insights.SnippetsBody :=
  Insights.Responded
    {| Insights.ok := true; Insights.statusText := "OK";
       Insights.content_type := Some "application/json"%string;
       Insights.json := inr (Insights.Body_array snippets) |}.

(** A viewer with a client id, showing a document of the page. *)
Definition viewer_props : PDFViewer.Props :=
  {| PDFViewer.clientId := Some "0123456789abcdef"%string;
     PDFViewer.documentUrl := "/placeholder.pdf?name=report.pdf";
     PDFViewer.documentName := "report.pdf" |}.

(** The viewer once the initialization has thrown. *)
Definition fallen_back : PDFViewer.State :=
  PDFViewer.viewer_effect viewer_props true PDFViewer.Throws_before_view
    (PDFViewer.setIsAdobeSDKReady true PDFViewer.initial).

(** What holds of the requests an upload component has sent and of its
    calls of [onUploadComplete]: every body is a non-empty list of PDF files,
    every call hands over the names of the files of one request, and there are
    no more calls than requests. *)
Definition upload_io (st : Upload.State) : Prop :=
  Forall (fun body => body <> [] /\
                      Forall (fun file => Upload.file_type file = "application/pdf"%string) body)
    (Upload.requests st) /\
  Forall (fun call => exists body, In body (Upload.requests st) /\
                                   snd call = map Upload.file_name body)
    (Upload.completed st) /\
  (length (Upload.completed st) <= length (Upload.requests st))%nat.

(** Events after a release that press no node: pointer moves, frames,
    clicks and releases; and the number of animation frames among events. *)
Definition after_release (e : Event) : Prop :=
  match e with
  | MouseDown _ => False
  | MouseMove _ | MouseUp | AnimationFrame | Click _ => True
  end.

Definition frames (es : list Event) : nat :=
  length (List.filter (fun e => match e with AnimationFrame => true | _ => false end) es).

(** Events that click no node. *)
Definition no_click (e : Event) : Prop :=
  match e with
  | Click _ => False
  | MouseDown _ | MouseMove _ | MouseUp | AnimationFrame => True
  end.

(** The payload [{nodes: [{id: "node-1"}, {}], links: []}], whose second
    node gets the id of the first, and the page that shows its graph at the
    origin. *)
Definition payload_twins : RawGraph :=
  {| raw_nodes := Some [raw_bare "node-1";
                        {| raw_id := None; raw_label := None; raw_name := None;
                           raw_size := None; raw_color := None |}];
     raw_links := Some [] |}.

Definition twins_page : Page :=
  {| component := fetchGraphData "" (fun _ => 0.5) (Response true "OK" (inr payload_twins))
                    initial;
     viewport := {| left := 0; top := 0 |};
     mousemove := [] |}.

(** Events of the page that bring no selection, and events that do not
    close the insights. *)
Definition no_selection_made (e : Page.Event) : Prop :=
  match e with
  | Page.Selection_made _ => False
  | _ => True
  end.

Definition keeps_insights_open (e : Page.Event) : Prop :=
  match e with
  | Page.Insights_close => False
  | _ => True
  end.

(** The selection "  hi " reported by the embedded viewer. *)
Definition hi_event : Viewer.ViewerEvent :=
  {| Viewer.event_type := "SELECTION_END";
     Viewer.selection_text := Some [32; 32; 104; 105; 32]%N |}.

(** Events of a viewer whose props require the fallback. *)
Definition fallback_props (e : PDFViewer.Event) : Prop :=
  match e with
  | PDFViewer.Sdk_effect p _ => PDFViewer.shouldUseFallback p = true
  | PDFViewer.Viewer_effect p _ _ => PDFViewer.shouldUseFallback p = true
  | PDFViewer.Use_demo_mode | PDFViewer.Navigate _ => True
  end.

End Support.

(* ================================================================== *)
(** * Part III.  Proofs                                                *)
(* ================================================================== *)

(** ** Binary64 arithmetic

    The operations of primitive floats are specified by [SpecFloat]'s
    functions on mantissa and exponent.  What follows reads the rounding of
    [binary_round_aux] off its definition, far enough to bound a product and
    a sum of non-negative floats, and to see that a sum is a number. *)
Section Binary64.
Import Round.
Local Open Scope Z_scope.

Lemma pow2_pos k : 0 <= k -> 0 < 2 ^ k.
Proof. intros. apply Z.pow_pos_nonneg; lia. Qed.

Lemma pow2_add a b : 0 <= a -> 0 <= b -> 2 ^ (a + b) = 2 ^ a * 2 ^ b.
Proof. intros. apply Z.pow_add_r; assumption. Qed.

Lemma pow2_succ k : 0 <= k -> 2 ^ (k + 1) = 2 * 2 ^ k.
Proof. intros. rewrite pow2_add by lia. simpl. lia. Qed.

Lemma pow2_le a b : 0 <= a <= b -> 2 ^ a <= 2 ^ b.
Proof. intros. apply Z.pow_le_mono_r; lia. Qed.

Lemma pow2_lt_inv a b : 0 <= a -> 0 <= b -> 2 ^ a < 2 ^ b -> a < b.
Proof. intros Ha Hb H. apply (Z.pow_lt_mono_r_iff 2); lia. Qed.

Lemma digits2_pos_spec m :
  2 ^ (Zpos (digits2_pos m) - 1) <= Zpos m < 2 ^ Zpos (digits2_pos m).
Proof.
  induction m as [m IH|m IH|]; simpl digits2_pos.
  - rewrite Pos2Z.inj_succ. replace (Z.succ (Zpos (digits2_pos m)) - 1) with (Zpos (digits2_pos m) - 1 + 1) by lia.
    rewrite pow2_succ by lia. unfold Z.succ. rewrite pow2_succ by lia. lia.
  - rewrite Pos2Z.inj_succ. replace (Z.succ (Zpos (digits2_pos m)) - 1) with (Zpos (digits2_pos m) - 1 + 1) by lia.
    rewrite pow2_succ by lia. unfold Z.succ. rewrite pow2_succ by lia. lia.
  - simpl. lia.
Qed.

(* bound on the number of digits from a bound on the value *)
Lemma Zdigits2_le m k : 0 <= m -> 0 <= k -> m < 2 ^ k -> Zdigits2 m <= k.
Proof.
  intros Hm Hk H. destruct m as [|p|p]; simpl; [lia| |lia].
  pose proof (digits2_pos_spec p) as [H1 _].
  assert (2 ^ (Zpos (digits2_pos p) - 1) < 2 ^ k) by lia.
  apply pow2_lt_inv in H0; lia.
Qed.

(* iteration with a counter *)
Lemma iter_pos_count {A} (f : A -> A) (P : Z -> A -> Prop) :
  (forall k x, 0 <= k -> P k x -> P (k + 1) (f x)) ->
  forall p k x, 0 <= k -> P k x -> P (k + Zpos p) (SpecFloat.iter_pos f p x).
Proof.
  intros Hstep. induction p as [p IH|p IH|]; intros k x Hk HP; simpl.
  - replace (k + Zpos p~1) with (k + 1 + Zpos p + Zpos p) by lia.
    apply IH; [lia|]. apply IH; [lia|]. apply Hstep; assumption.
  - replace (k + Zpos p~0) with (k + Zpos p + Zpos p) by lia.
    apply IH; [lia|]. apply IH; assumption.
  - apply Hstep; assumption.
Qed.

Lemma shr_1_shifted M k mrs : 0 <= k -> shifted M k mrs -> shifted M (k + 1) (shr_1 mrs).
Proof.
  unfold shifted. intros Hk (Hm & Hb & Hx). destruct mrs as [m r s].
  cbn [shr_m shr_r shr_s] in *.
  pose proof (pow2_pos k Hk) as Hp. rewrite pow2_succ by assumption.
  destruct m as [|[p|p|]|p]; cbn [shr_1 shr_m shr_r shr_s]; try lia;
    (split; [lia|]; split; [nia|]; intros HM;
     first [ exfalso; nia | destruct Hx as [-> ->]; [nia|]; split; reflexivity ]).
Qed.

Lemma shifted_init M : 0 <= M -> shifted M 0 {| shr_m := M; shr_r := false; shr_s := false |}.
Proof.
  intros HM. unfold shifted. cbn [shr_m shr_r shr_s]. rewrite Z.pow_0_r.
  split; [assumption|]. split; [lia|]. intros _. split; reflexivity.
Qed.

Lemma shr_shifted M E n :
  0 <= M ->
  exists mrs, shr {| shr_m := M; shr_r := false; shr_s := false |} E n = (mrs, E + Z.max n 0)
              /\ shifted M (Z.max n 0) mrs.
Proof.
  intros HM. unfold shr. destruct n as [|p|p].
  - eexists; split; [f_equal; lia|]. apply shifted_init; assumption.
  - eexists; split; [f_equal; lia|].
    replace (Z.max (Zpos p) 0) with (0 + Zpos p) by lia.
    apply (iter_pos_count shr_1 (shifted M)); [apply shr_1_shifted|lia|].
    apply shifted_init; assumption.
  - eexists; split; [f_equal; lia|]. apply shifted_init; assumption.
Qed.

Lemma round_nearest_even_spec M k mrs :
  shifted M k mrs ->
  let m1 := round_nearest_even (shr_m mrs) (loc_of_shr_record mrs) in
  m1 = shr_m mrs \/ (m1 = shr_m mrs + 1 /\ M <> shr_m mrs * 2 ^ k).
Proof.
  intros (Hm & Hb & Hx). destruct mrs as [m [] []]; simpl in *.
  - right. split; [reflexivity|]. intros H. destruct (Hx H); discriminate.
  - destruct (Z.even m); [left; reflexivity|].
    right. split; [reflexivity|]. intros H. destruct (Hx H); discriminate.
  - left; reflexivity.
  - left; reflexivity.
Qed.

Lemma fexp_eq e : fexp prec emax e = Z.max (e - 53) (-1074).
Proof. reflexivity. Qed.

Lemma binary_round_aux_spec s M E :
  0 < M ->
  exists q m1 m2 k1 k2 : Z,
    k1 = Z.max (fexp prec emax (Zdigits2 M + E) - E) 0 /\
    k2 = Z.max (fexp prec emax (Zdigits2 m1 + (E + k1)) - (E + k1)) 0 /\
    0 <= q /\ q * 2 ^ k1 <= M < (q + 1) * 2 ^ k1 /\
    (m1 = q \/ (m1 = q + 1 /\ M <> q * 2 ^ k1)) /\
    0 <= m2 /\ m2 * 2 ^ k2 <= m1 < (m2 + 1) * 2 ^ k2 /\
    binary_round_aux prec emax s M E loc_Exact = rounded s m2 (E + k1 + k2).
Proof.
  intros HM. unfold binary_round_aux, shr_fexp. cbn [shr_record_of_loc].
  destruct (shr_shifted M E (fexp prec emax (Zdigits2 M + E) - E)) as (mrs1 & -> & H1); [lia|].
  pose proof (round_nearest_even_spec _ _ _ H1) as Hr. cbv zeta in Hr.
  set (m1 := round_nearest_even (shr_m mrs1) (loc_of_shr_record mrs1)) in *.
  destruct H1 as (Hq & Hb & _).
  assert (0 <= m1) as Hm1 by (destruct Hr as [->|[-> _]]; lia).
  set (k1 := Z.max (fexp prec emax (Zdigits2 M + E) - E) 0) in *.
  destruct (shr_shifted m1 (E + k1) (fexp prec emax (Zdigits2 m1 + (E + k1)) - (E + k1)))
    as (mrs2 & -> & H2); [assumption|].
  destruct H2 as (Hm2 & Hb2 & _).
  exists (shr_m mrs1), m1, (shr_m mrs2), k1,
    (Z.max (fexp prec emax (Zdigits2 m1 + (E + k1)) - (E + k1)) 0).
  repeat (split; [first [reflexivity|assumption]|]).
  rewrite <- Z.add_assoc. reflexivity.
Qed.

Lemma mul_pow2_le_inv a b k : 0 <= k -> a * 2 ^ k <= b * 2 ^ k -> a <= b.
Proof. intros Hk H. pose proof (pow2_pos k Hk). nia. Qed.

Lemma mul_pow2_lt_inv a b k : 0 <= k -> a * 2 ^ k < b * 2 ^ k -> a < b.
Proof. intros Hk H. pose proof (pow2_pos k Hk). nia. Qed.

Lemma binary_round_aux_upper s M E mB eB :
  0 < M -> E <= eB -> -1074 <= eB <= 971 -> 0 < mB < 2 ^ 53 ->
  M <= mB * 2 ^ (eB - E) ->
  exists m2 e2,
    binary_round_aux prec emax s M E loc_Exact = rounded s m2 e2 /\
    0 <= m2 /\ E <= e2 <= eB /\ m2 * 2 ^ (e2 - E) <= mB * 2 ^ (eB - E).
Proof.
  intros HM HE HeB HmB Hle.
  destruct (binary_round_aux_spec s M E HM)
    as (q & m1 & m2 & k1 & k2 & Hk1 & Hk2 & Hq & Hqb & Hm1 & Hm2 & Hm2b & ->).
  rewrite fexp_eq in Hk1, Hk2.
  (* the first shift stays below the exponent of the bound *)
  assert (M < 2 ^ (53 + (eB - E))) as HMlt.
  { rewrite pow2_add by lia. pose proof (pow2_pos (eB - E)). nia. }
  pose proof (Zdigits2_le M (53 + (eB - E)) ltac:(lia) ltac:(lia) HMlt) as Hd.
  assert (0 <= k1 <= eB - E) as Hk1b by lia.
  set (a := eB - E - k1) in *.
  assert (2 ^ (eB - E) = 2 ^ a * 2 ^ k1) as Hsplit1.
  { rewrite <- pow2_add by lia. f_equal. lia. }
  assert (m1 <= mB * 2 ^ a) as Hm1le.
  { destruct Hm1 as [->|[-> Hne]].
    - apply (mul_pow2_le_inv _ _ k1); [lia|]. nia.
    - assert (q < mB * 2 ^ a); [|lia].
      apply (mul_pow2_lt_inv _ _ k1); [lia|]. nia. }
  assert (0 <= m1) as Hm1nn by (destruct Hm1 as [->|[-> _]]; lia).
  assert (m1 < 2 ^ (53 + a)) as Hm1lt.
  { rewrite pow2_add by lia. pose proof (pow2_pos a). nia. }
  pose proof (Zdigits2_le m1 (53 + a) Hm1nn ltac:(lia) Hm1lt) as Hd1.
  assert (0 <= k2 <= a) as Hk2b by lia.
  set (b := a - k2) in *.
  assert (2 ^ a = 2 ^ b * 2 ^ k2) as Hsplit2.
  { rewrite <- pow2_add by lia. f_equal. lia. }
  assert (m2 <= mB * 2 ^ b) as Hm2le.
  { apply (mul_pow2_le_inv _ _ k2); [lia|]. nia. }
  exists m2, (E + k1 + k2). split; [reflexivity|]. split; [assumption|].
  split; [lia|].
  replace (E + k1 + k2 - E) with (k1 + k2) by lia.
  rewrite Hsplit1, Hsplit2, pow2_add by lia.
  pose proof (pow2_pos k1). pose proof (pow2_pos k2). pose proof (pow2_pos b). nia.
Qed.

Lemma Zdigits2_spec M :
  0 < M -> 0 < Zdigits2 M /\ 2 ^ (Zdigits2 M - 1) <= M < 2 ^ Zdigits2 M.
Proof.
  destruct M as [|p|p]; try lia. intros _. simpl. split; [lia|]. apply digits2_pos_spec.
Qed.

Lemma canonical_mantissa_spec m e :
  canonical_mantissa prec emax m e = true ->
  Z.max (Zpos (digits2_pos m) + e - 53) (-1074) = e.
Proof.
  unfold canonical_mantissa. rewrite fexp_eq. intros H. apply Z.eqb_eq in H. exact H.
Qed.

Lemma binary_round_aux_lower s M E mB eB K :
  0 < M -> K <= E -> K <= eB ->
  canonical_mantissa prec emax mB eB = true ->
  Zpos mB * 2 ^ (eB - K) <= M * 2 ^ (E - K) ->
  exists m2 e2,
    binary_round_aux prec emax s M E loc_Exact = rounded s m2 e2 /\
    0 < m2 /\ eB <= e2 /\ (e2 = eB -> Zpos mB <= m2).
Proof.
  intros HM HKE HKB Hcan Hle.
  apply canonical_mantissa_spec in Hcan.
  destruct (binary_round_aux_spec s M E HM)
    as (q & m1 & m2 & k1 & k2 & Hk1 & Hk2 & Hq & Hqb & Hm1 & Hm2 & Hm2b & ->).
  rewrite fexp_eq in Hk1, Hk2.
  destruct (Zdigits2_spec M HM) as (Hdpos & HdM).
  pose proof (digits2_pos_spec mB) as HdB.
  set (d := Zdigits2 M) in *. set (dB := Zpos (digits2_pos mB)) in *.
  pose proof (pow2_pos (eB - K) ltac:(lia)) as HpB.
  pose proof (pow2_pos (E - K) ltac:(lia)) as HpE.
  (* the magnitude of the bound is at most that of the exact value *)
  assert (dB + eB <= d + E) as Hmag.
  { assert (2 ^ (dB - 1 + (eB - K)) < 2 ^ (d + (E - K))) as Hlt.
    { rewrite !pow2_add by lia. nia. }
    apply pow2_lt_inv in Hlt; lia. }
  assert (eB <= E + k1) as He1 by lia.
  (* the first shift leaves a nonzero mantissa *)
  assert (2 ^ k1 <= M) as Hk1M.
  { destruct (Z.max_spec (Z.max (d + E - 53) (-1074) - E) 0) as [[_ Hmax]|[_ Hmax]];
      rewrite <- Hk1 in Hmax; [rewrite Hmax; simpl; lia|].
    destruct (Z.max_spec (d + E - 53) (-1074)) as [[_ Hf]|[_ Hf]]; rewrite Hf in Hmax.
    - (* subnormal range *)
      assert (2 ^ (-1074 - K) <= M * 2 ^ (E - K)) as H1.
      { assert (2 ^ (-1074 - K) <= 2 ^ (eB - K)) by (apply pow2_le; lia). nia. }
      replace (-1074 - K) with (k1 + (E - K)) in H1 by lia.
      rewrite pow2_add in H1 by lia.
      apply (mul_pow2_le_inv _ _ (E - K)); [lia|assumption].
    - assert (2 ^ k1 <= 2 ^ (d - 1)) by (apply pow2_le; lia). lia. }
  assert (1 <= q) as Hq1.
  { assert (1 * 2 ^ k1 < (q + 1) * 2 ^ k1) as Hlt by lia.
    apply mul_pow2_lt_inv in Hlt; lia. }
  assert (1 <= m1) as Hm11 by (destruct Hm1 as [->|[-> _]]; lia).
  destruct (Zdigits2_spec m1 ltac:(lia)) as (Hd1pos & Hd1).
  set (d1 := Zdigits2 m1) in *.
  assert (2 ^ k2 <= m1) as Hk2M.
  { destruct (Z.max_spec (Z.max (d1 + (E + k1) - 53) (-1074) - (E + k1)) 0) as [[_ Hmax]|[_ Hmax]];
      rewrite <- Hk2 in Hmax; [rewrite Hmax; simpl; lia|].
    assert (2 ^ k2 <= 2 ^ (d1 - 1)) by (apply pow2_le; lia). lia. }
  assert (1 <= m2) as Hm21.
  { assert (1 * 2 ^ k2 < (m2 + 1) * 2 ^ k2) as Hlt by lia.
    apply mul_pow2_lt_inv in Hlt; lia. }
  exists m2, (E + k1 + k2). split; [reflexivity|]. split; [lia|]. split; [lia|].
  intros He2.
  assert (k2 = 0) as -> by lia. rewrite Z.pow_0_r in Hm2b.
  assert (m2 = m1) as -> by lia.
  assert (Zpos mB * 2 ^ k1 <= M) as HB.
  { apply (mul_pow2_le_inv _ _ (E - K)); [lia|].
    rewrite <- Z.mul_assoc, <- pow2_add by lia.
    replace (k1 + (E - K)) with (eB - K) by lia. assumption. }
  assert (Zpos mB < q + 1); [|destruct Hm1 as [->|[-> _]]; lia].
  apply (mul_pow2_lt_inv _ _ k1); lia.
Qed.

(** ** Primitive floats through their specification *)
Local Open Scope float_scope.

Lemma SFcompare_refl f : f <> S754_nan -> SFcompare f f = Some Eq.
Proof.
  destruct f as [[]|[]| |[] m e]; simpl; try congruence; intros _;
  rewrite Z.compare_refl, Pos.compare_cont_refl; reflexivity.
Qed.

Lemma is_nan_spec x : is_nan x = true <-> Prim2SF x = S754_nan.
Proof.
  unfold is_nan. rewrite FloatAxioms.eqb_spec. unfold SFeqb.
  split.
  - intros H. destruct (Prim2SF x) eqn:E; try reflexivity;
    rewrite SFcompare_refl in H by congruence; discriminate.
  - intros ->. reflexivity.
Qed.

Lemma is_nan_false x : is_nan x = false <-> Prim2SF x <> S754_nan.
Proof.
  rewrite <- is_nan_spec. destruct (is_nan x); split; congruence.
Qed.

Lemma leb_refl x : is_nan x = false -> (x <=? x) = true.
Proof.
  rewrite is_nan_false, FloatAxioms.leb_spec. unfold SFleb. intros H.
  rewrite SFcompare_refl by assumption. reflexivity.
Qed.

(* not (a < b), both non-NaN -> b <= a *)
Lemma SFcompare_antisym f1 f2 : SFcompare f2 f1 = option_map CompOpp (SFcompare f1 f2).
Proof.
  destruct f1 as [[]|[]| |[] m1 e1], f2 as [[]|[]| |[] m2 e2]; simpl; try reflexivity;
  rewrite (Z.compare_antisym e1 e2); destruct (e1 ?= e2)%Z; simpl; try reflexivity;
  rewrite (Pos.compare_cont_antisym); simpl; try rewrite CompOpp_involutive; reflexivity.
Qed.

Lemma valid_finite x s m e :
  Prim2SF x = S754_finite s m e ->
  canonical_mantissa prec emax m e = true /\ (-1074 <= e <= 971)%Z /\ (Zpos m < 2 ^ 53)%Z.
Proof.
  intros Hx. pose proof (Prim2SF_valid x) as Hv. rewrite Hx in Hv.
  unfold valid_binary, bounded in Hv. apply andb_prop in Hv as [Hc He].
  split; [assumption|].
  pose proof (canonical_mantissa_spec m e Hc) as Hm.
  apply Z.leb_le in He. change (emax - prec)%Z with 971%Z in He.
  split; [lia|].
  pose proof (digits2_pos_spec m) as [_ Hd].
  assert (2 ^ Zpos (digits2_pos m) <= 2 ^ 53)%Z by (apply pow2_le; lia). lia.
Qed.

Lemma below_value m e m' e' :
  canonical_mantissa prec emax m e = true ->
  canonical_mantissa prec emax m' e' = true ->
  below m e m' e' ->
  (Zpos m * 2 ^ (e + 1074) <= Zpos m' * 2 ^ (e' + 1074))%Z.
Proof.
  intros Hc Hc' [Hlt|[-> Hle]].
  - apply canonical_mantissa_spec in Hc, Hc'.
    assert (Zpos (digits2_pos m') = 53)%Z as E' by lia.
    assert (Zpos (digits2_pos m) <= 53)%Z as E by lia.
    assert (-1074 <= e)%Z as He by lia.
    clear Hc Hc'.
    pose proof (digits2_pos_spec m) as [_ Hd]. pose proof (digits2_pos_spec m') as [Hd' _].
    rewrite E' in Hd'.
    assert (Zpos m < 2 ^ 53)%Z as Hm.
    { eapply Z.lt_le_trans; [exact Hd|]. apply pow2_le; lia. }
    clear Hd.
    replace (e' + 1074)%Z with ((e' - e - 1) + 1 + (e + 1074))%Z by lia.
    rewrite (pow2_add (e' - e - 1 + 1) (e + 1074)), (pow2_add (e' - e - 1) 1) by lia.
    pose proof (pow2_pos (e + 1074) ltac:(lia)). pose proof (pow2_pos (e' - e - 1) ltac:(lia)).
    change (2 ^ (53 - 1))%Z with 4503599627370496%Z in Hd'.
    change (2 ^ 53)%Z with 9007199254740992%Z in Hm. change (2 ^ 1)%Z with 2%Z.
    rewrite Z.mul_assoc.
    apply Z.mul_le_mono_nonneg_r; [lia|].
    assert (1 <= 2 ^ (e' - e - 1))%Z by lia. nia.
  - pose proof (canonical_mantissa_spec _ _ Hc).
    pose proof (pow2_pos (e' + 1074) ltac:(lia)). nia.
Qed.

Lemma SFleb_below m e m' e' :
  SFleb (S754_finite false m e) (S754_finite false m' e') = true <-> below m e m' e'.
Proof.
  unfold SFleb, below. cbn [SFcompare].
  change (Pos.compare_cont Eq m m') with (m ?= m')%positive.
  destruct (Z.compare_spec e e') as [->|Hlt|Hgt].
  - destruct (Pos.compare_spec m m') as [->|H|H]; split; intros H'; try reflexivity;
      try discriminate; lia.
  - split; [intros _; left; assumption|reflexivity].
  - split; [discriminate|intros [H|[H _]]; lia].
Qed.

(** A float in [0, A], where A is finite and positive. *)
Lemma nonneg_below a A mA eA :
  (0 <=? a) = true -> (a <=? A) = true ->
  Prim2SF A = S754_finite false mA eA ->
  (exists s, Prim2SF a = S754_zero s) \/
  (exists m e, Prim2SF a = S754_finite false m e /\ below m e mA eA).
Proof.
  rewrite !FloatAxioms.leb_spec. intros H0 HA EA. rewrite EA in HA.
  change (Prim2SF 0) with (S754_zero false) in H0.
  destruct (Prim2SF a) as [s|[]| |[] m e]; try discriminate.
  - left. exists s. reflexivity.
  - right. exists m, e. split; [reflexivity|]. apply SFleb_below. assumption.
Qed.

Lemma rounded_upper s m2 e2 E mB eB :
  (0 <= m2)%Z -> (E <= e2 <= eB)%Z -> (eB <= 971)%Z ->
  (m2 * 2 ^ (e2 - E) <= Zpos mB * 2 ^ (eB - E))%Z ->
  rounded s m2 e2 = S754_zero s \/
  exists m, rounded s m2 e2 = S754_finite s m e2 /\ below m e2 mB eB.
Proof.
  intros Hm He HeB Hle. unfold rounded. destruct m2 as [|p|p]; [left; reflexivity| |lia].
  right. exists p. change (emax - prec)%Z with 971%Z.
  destruct (Z.leb_spec e2 971) as [_|]; [|lia]. split; [reflexivity|].
  unfold below. destruct (Z.eq_dec e2 eB) as [->|Hne]; [right|left; lia].
  split; [reflexivity|]. apply (mul_pow2_le_inv _ _ (eB - E)); [lia|assumption].
Qed.

Lemma rounded_lower s m2 e2 mB eB :
  (0 < m2)%Z -> (eB <= e2)%Z -> (e2 = eB -> Zpos mB <= m2)%Z ->
  rounded s m2 e2 = S754_infinity s \/
  exists m, rounded s m2 e2 = S754_finite s m e2 /\ below mB eB m e2.
Proof.
  intros Hm He Hle. unfold rounded. destruct m2 as [|p|p]; [lia| |lia].
  destruct (e2 <=? emax - prec)%Z; [right|left; reflexivity].
  exists p. split; [reflexivity|]. unfold below.
  destruct (Z.eq_dec e2 eB) as [->|Hne]; [right; split; [reflexivity|auto]|left; lia].
Qed.

Lemma mul_bounds a c A B :
  (0 <=? a) = true -> (a <=? A) = true -> mul_check A c B = true ->
  (0 <=? a * c) = true /\ (a * c <=? B) = true.
Proof.
  intros H0 HA Hchk. unfold mul_check in Hchk.
  destruct (Prim2SF A) as [| | |[] mA eA] eqn:EA; try discriminate.
  destruct (Prim2SF c) as [| | |[] mc ec] eqn:Ec; try discriminate.
  destruct (Prim2SF B) as [| | |[] mB eB] eqn:EB; try discriminate.
  apply andb_prop in Hchk as [He Hv]. apply Z.leb_le in He, Hv.
  rewrite !FloatAxioms.leb_spec, mul_spec, Ec, EB. change (Prim2SF 0) with (S754_zero false).
  destruct (nonneg_below a A mA eA H0 HA EA) as [[s Ea]|(m & e & Ea & Hbelow)]; rewrite Ea.
  - destruct s; split; reflexivity.
  - destruct (valid_finite _ _ _ _ EA) as (HcA & HeA & _).
    destruct (valid_finite _ _ _ _ Ec) as (_ & Hec & _).
    destruct (valid_finite _ _ _ _ EB) as (_ & HeB & HmB).
    destruct (valid_finite _ _ _ _ Ea) as (Hca & Hea & _).
    pose proof (below_value _ _ _ _ Hca HcA Hbelow) as Hval.
    assert (e <= eA)%Z as HeeA by (destruct Hbelow as [?|[? _]]; lia).
    cbn [SF64mul SFmul xorb].
    destruct (binary_round_aux_upper false (Zpos (m * mc)) (e + ec) (Zpos mB) eB)
      as (m2 & e2 & -> & Hm2 & He2 & Hle); try lia.
    { apply (mul_pow2_le_inv _ _ (e + ec + 2148)); [lia|].
      rewrite <- Z.mul_assoc, <- pow2_add by lia.
      replace (eB - (e + ec) + (e + ec + 2148))%Z with (eB + 2148)%Z by lia.
      eapply Z.le_trans; [|exact Hv].
      replace (e + ec + 2148)%Z with ((e + 1074) + (ec + 1074))%Z by lia.
      replace (eA + ec + 2148)%Z with ((eA + 1074) + (ec + 1074))%Z by lia.
      rewrite (pow2_add (e + 1074) (ec + 1074)), (pow2_add (eA + 1074) (ec + 1074)) by lia.
      rewrite Pos2Z.inj_mul.
      pose proof (pow2_pos (ec + 1074) ltac:(lia)).
      set (P := (2 ^ (ec + 1074))%Z) in *. set (Q := (2 ^ (e + 1074))%Z) in *.
      set (R := (2 ^ (eA + 1074))%Z) in *. clearbody P Q R.
      replace (Zpos m * Zpos mc * (Q * P))%Z with (Zpos m * Q * (Zpos mc * P))%Z by ring.
      replace (Zpos mA * Zpos mc * (R * P))%Z with (Zpos mA * R * (Zpos mc * P))%Z by ring.
      apply Z.mul_le_mono_nonneg_r; [lia|exact Hval]. }
    destruct (rounded_upper false m2 e2 (e + ec) mB eB Hm2 He2 ltac:(lia) Hle)
      as [->|(p & -> & Hb)].
    + split; reflexivity.
    + split; [reflexivity|]. apply SFleb_below. assumption.
Qed.

Lemma iter_xO m d : (Zpos (Pos.iter xO m d) = Zpos m * 2 ^ Zpos d)%Z.
Proof.
  induction d as [|d IH] using Pos.peano_ind.
  - cbn [Pos.iter]. rewrite Pos2Z.inj_xO. change (2 ^ 1)%Z with 2%Z. lia.
  - rewrite Pos.iter_succ, Pos2Z.inj_xO, IH, Pos2Z.inj_succ.
    unfold Z.succ. rewrite pow2_succ by lia. ring.
Qed.

Lemma shl_align_spec mx ex ex' :
  exists mz ez, shl_align mx ex ex' = (mz, ez) /\ ez = Z.min ex ex' /\
                (Zpos mz = Zpos mx * 2 ^ (ex - ez))%Z.
Proof.
  unfold shl_align. destruct (ex' - ex)%Z as [|d|d] eqn:E.
  - exists mx, ex. split; [reflexivity|]. split; [lia|].
    rewrite Z.sub_diag. simpl. lia.
  - exists mx, ex. split; [reflexivity|]. split; [lia|].
    rewrite Z.sub_diag. simpl. lia.
  - exists (Pos.iter xO mx d), ex'. split; [reflexivity|]. split; [lia|].
    rewrite iter_xO. f_equal. f_equal. lia.
Qed.

(** [binary_round] rounds the exact value [m * 2^e]: what it passes to
    [binary_round_aux] has the same value. *)
Lemma binary_round_spec s m e :
  (-1074 <= e)%Z ->
  exists mz ez,
    binary_round prec emax s m e = binary_round_aux prec emax s (Zpos mz) ez loc_Exact /\
    (-1074 <= ez <= e)%Z /\ (Zpos mz * 2 ^ (ez + 1074) = Zpos m * 2 ^ (e + 1074))%Z.
Proof.
  intros He. unfold binary_round.
  destruct (shl_align_spec m e (fexp prec emax (Zpos (digits2_pos m) + e)))
    as (mz & ez & -> & Hez & Hmz).
  rewrite fexp_eq in Hez.
  exists mz, ez. split; [reflexivity|]. split; [lia|].
  rewrite Hmz, <- Z.mul_assoc, <- pow2_add by lia. f_equal. f_equal. lia.
Qed.

Lemma add_bounds t c T Lo Hi :
  (0 <=? t) = true -> (t <=? T) = true -> add_check T c Lo Hi = true ->
  (Lo <=? t + c) = true /\ (t + c <=? Hi) = true.
Proof.
  intros H0 HT Hchk. unfold add_check in Hchk.
  destruct (Prim2SF T) as [| | |[] mT eT] eqn:ET; try discriminate.
  destruct (Prim2SF c) as [| | |[] mc ec] eqn:Ec; try discriminate.
  destruct (Prim2SF Lo) as [| | |[] mL eL] eqn:EL; try discriminate.
  destruct (Prim2SF Hi) as [| | |[] mH eH] eqn:EH; try discriminate.
  apply andb_prop in Hchk as [Hchk HcH]. apply andb_prop in Hchk as [Hchk HLc].
  apply andb_prop in Hchk as [Hchk HvL]. apply andb_prop in Hchk as [He HvH].
  apply Z.leb_le in He, HvH, HvL.
  rewrite FloatAxioms.leb_spec in HLc, HcH. rewrite EL, Ec in HLc. rewrite Ec, EH in HcH.
  rewrite !FloatAxioms.leb_spec, add_spec, Ec, EL, EH.
  destruct (nonneg_below t T mT eT H0 HT ET) as [[s Et]|(m & e & Et & Hbelow)]; rewrite Et.
  - cbn [SF64add SFadd]. split; assumption.
  - destruct (valid_finite _ _ _ _ ET) as (HcT & HeT & _).
    destruct (valid_finite _ _ _ _ Ec) as (_ & Hec & _).
    destruct (valid_finite _ _ _ _ EL) as (HcL & HeL & _).
    destruct (valid_finite _ _ _ _ EH) as (_ & HeH & HmH).
    destruct (valid_finite _ _ _ _ Et) as (Hct & Het & _).
    pose proof (below_value _ _ _ _ Hct HcT Hbelow) as Hval.
    cbn [SF64add SFadd cond_Zopp].
    destruct (shl_align_spec m e (Z.min e ec)) as (m1 & e1 & -> & He1 & Hm1).
    destruct (shl_align_spec mc ec (Z.min e ec)) as (m2 & e2 & -> & He2 & Hm2).
    cbn [fst]. change (Zpos m1 + Zpos m2)%Z with (Zpos (m1 + m2)). cbn [binary_normalize].
    destruct (binary_round_spec false (m1 + m2) (Z.min e ec) ltac:(lia))
      as (mz & ez & -> & Hez & Hmz).
    assert (Zpos mz * 2 ^ (ez + 1074) = Zpos m * 2 ^ (e + 1074) + Zpos mc * 2 ^ (ec + 1074))%Z
      as Hexact.
    { rewrite Hmz, Pos2Z.inj_add, Hm1, Hm2, Z.mul_add_distr_r.
      rewrite <- !Z.mul_assoc, <- !pow2_add by lia.
      f_equal; f_equal; f_equal; lia. }
    clear Hmz Hm1 Hm2.
    destruct (binary_round_aux_upper false (Zpos mz) ez (Zpos mH) eH)
      as (u & eu & Hu & Hu0 & Hue & Hule); try lia.
    { apply (mul_pow2_le_inv _ _ (ez + 1074)); [lia|].
      rewrite <- Z.mul_assoc, <- pow2_add by lia.
      replace (eH - ez + (ez + 1074))%Z with (eH + 1074)%Z by lia.
      rewrite Hexact. lia. }
    destruct (binary_round_aux_lower false (Zpos mz) ez mL eL (-1074))
      as (l & el & Hl & Hl0 & Hle & Hlle); try lia; try assumption.
    { replace (eL - -1074)%Z with (eL + 1074)%Z by lia.
      replace (ez - -1074)%Z with (ez + 1074)%Z by lia.
      rewrite Hexact. pose proof (pow2_pos (e + 1074) ltac:(lia)). nia. }
    destruct (rounded_upper false u eu ez mH eH Hu0 Hue ltac:(lia) Hule)
      as [Hz|(p & Hp & Hpb)];
    destruct (rounded_lower false l el mL eL Hl0 Hle Hlle) as [Hi'|(p' & Hp' & Hpb')];
    rewrite Hu in *; try congruence.
    rewrite Hp. rewrite Hp in Hl. rewrite <- Hl in Hp'. injection Hp' as <- <-.
    split; apply SFleb_below; assumption.
Qed.


Lemma ltb_leb x y : (x <? y) = true -> (x <=? y) = true.
Proof.
  rewrite FloatAxioms.ltb_spec, FloatAxioms.leb_spec. unfold SFltb, SFleb.
  destruct (SFcompare _ _) as [[]|]; congruence.
Qed.

Lemma random_x_range r :
  (0 <=? r) = true -> (r <? 1) = true ->
  (100 <=? r * 400 + 100) = true /\ (r * 400 + 100 <=? 500) = true.
Proof.
  intros H0 H1. apply ltb_leb in H1.
  destruct (mul_bounds r 400 1 400 H0 H1) as [Hm0 Hm1]; [vm_compute; reflexivity|].
  apply (add_bounds (r * 400) 100 400 100 500 Hm0 Hm1). vm_compute; reflexivity.
Qed.

Lemma random_y_range r :
  (0 <=? r) = true -> (r <? 1) = true ->
  (100 <=? r * 300 + 100) = true /\ (r * 300 + 100 <=? 400) = true.
Proof.
  intros H0 H1. apply ltb_leb in H1.
  destruct (mul_bounds r 300 1 300 H0 H1) as [Hm0 Hm1]; [vm_compute; reflexivity|].
  apply (add_bounds (r * 300) 100 300 100 400 Hm0 Hm1). vm_compute; reflexivity.
Qed.

(** ** No NaN out of an addition *)
Lemma rounded_not_nan s m2 e2 : (0 <= m2)%Z -> rounded s m2 e2 <> S754_nan.
Proof.
  unfold rounded. destruct m2 as [|p|p]; [discriminate| |lia].
  intros _. destruct (e2 <=? emax - prec)%Z; discriminate.
Qed.

Lemma binary_round_aux_not_nan s M E :
  (0 < M)%Z -> binary_round_aux prec emax s M E loc_Exact <> S754_nan.
Proof.
  intros HM.
  destruct (binary_round_aux_spec s M E HM)
    as (q & m1 & m2 & k1 & k2 & _ & _ & _ & _ & _ & Hm2 & _ & ->).
  apply rounded_not_nan. assumption.
Qed.

Lemma binary_normalize_not_nan m e : binary_normalize prec emax m e false <> S754_nan.
Proof.
  unfold binary_normalize, binary_round. destruct m as [|p|p]; [discriminate| |];
    destruct (shl_align _ _ _) as [mz ez]; apply binary_round_aux_not_nan; lia.
Qed.

Lemma SFadd_not_nan x y :
  x <> S754_nan -> y <> S754_nan -> (forall s, x <> S754_infinity s) ->
  SF64add x y <> S754_nan.
Proof.
  intros Hx Hy Hinf. unfold SF64add, SFadd.
  destruct x as [sx|sx| |sx mx ex]; [|destruct (Hinf sx); reflexivity|congruence|];
    destruct y as [sy|sy| |sy my ey]; try congruence; try discriminate.
  - destruct sx, sy; discriminate.
  - apply binary_normalize_not_nan.
Qed.

End Binary64.

(** ** JavaScript numbers *)
Section Numbers.
Import JS.
Local Open Scope float_scope.

Lemma is_infinity_spec v :
  is_infinity v = true <-> exists s, Prim2SF v = S754_infinity s.
Proof.
  unfold is_infinity. rewrite FloatAxioms.eqb_spec, abs_spec.
  change (Prim2SF infinity) with (S754_infinity false).
  destruct (Prim2SF v) as [s|s| |s m e]; cbn; split; intros H;
    try discriminate; try reflexivity;
    try match goal with H' : exists _, _ |- _ => destruct H' as [s' H']; discriminate end.
  exists s. reflexivity.
Qed.

Lemma is_infinity_false v :
  is_infinity v = false -> forall s, Prim2SF v <> S754_infinity s.
Proof.
  intros H s Hs. assert (is_infinity v = true) as H'; [|congruence].
  apply is_infinity_spec. exists s. assumption.
Qed.

Lemma add_not_nan a b :
  is_nan a = false -> is_nan b = false -> is_infinity a = false ->
  is_nan (a + b) = false.
Proof.
  rewrite !is_nan_false, add_spec. intros Ha Hb Hi.
  apply SFadd_not_nan; [assumption|assumption|]. apply is_infinity_false. assumption.
Qed.

Lemma SFcompare_some f1 f2 :
  f1 <> S754_nan -> f2 <> S754_nan -> exists c, SFcompare f1 f2 = Some c.
Proof.
  destruct f1 as [?|?| |? ? ?], f2 as [?|?| |? ? ?]; cbn [SFcompare]; intros H1 H2;
    try congruence; eexists; reflexivity.
Qed.

Lemma not_ltb_leb x y :
  is_nan x = false -> is_nan y = false -> (y <? x) = false -> (x <=? y) = true.
Proof.
  rewrite !is_nan_false, FloatAxioms.ltb_spec, FloatAxioms.leb_spec.
  unfold SFltb, SFleb. intros Hx Hy.
  rewrite (SFcompare_antisym (Prim2SF x) (Prim2SF y)).
  destruct (SFcompare_some _ _ Hx Hy) as [c ->]. destruct c; cbn; congruence.
Qed.

Lemma truthy_not_nan a : truthy a = true -> is_nan a = false.
Proof.
  unfold truthy. destruct (is_nan a); [discriminate|reflexivity].
Qed.

Lemma or_num_not_nan a d : is_nan d = false -> is_nan (or_num a d) = false.
Proof.
  intros Hd. unfold or_num. destruct (truthy a) eqn:E; [|assumption].
  apply truthy_not_nan. assumption.
Qed.

Lemma num_or_not_nan a d : is_nan d = false -> is_nan (num_or a d) = false.
Proof.
  intros Hd. destruct a as [v|]; cbn [num_or]; [apply or_num_not_nan|]; assumption.
Qed.

Lemma or_num_not_infinite a d :
  is_infinity a = false -> is_infinity d = false -> is_infinity (or_num a d) = false.
Proof. intros Ha Hd. unfold or_num. destruct (truthy a); assumption. Qed.

(** [Math.min] and [Math.max] of two numbers return one of the two. *)
Lemma Math_min_cases a b :
  is_nan a = false -> is_nan b = false ->
  (Math_min a b = a /\ (a <=? b) = true) \/ (Math_min a b = b /\ (b <=? a) = true).
Proof.
  intros Ha Hb. unfold Math_min. rewrite Ha, Hb. cbn [orb].
  destruct (a <? b) eqn:Hab; [left; split; [reflexivity|apply ltb_leb; assumption]|].
  destruct (b <? a) eqn:Hba; [right; split; [reflexivity|apply ltb_leb; assumption]|].
  destruct (get_sign a); [left|right]; (split; [reflexivity|apply not_ltb_leb; assumption]).
Qed.

Lemma Math_max_cases a b :
  is_nan a = false -> is_nan b = false ->
  (Math_max a b = a /\ (b <=? a) = true) \/ (Math_max a b = b /\ (a <=? b) = true).
Proof.
  intros Ha Hb. unfold Math_max. rewrite Ha, Hb. cbn [orb].
  destruct (a <? b) eqn:Hab; [right; split; [reflexivity|apply ltb_leb; assumption]|].
  destruct (b <? a) eqn:Hba; [left; split; [reflexivity|apply ltb_leb; assumption]|].
  destruct (get_sign a); [right|left]; (split; [reflexivity|apply not_ltb_leb; assumption]).
Qed.

(** The clamp of a number lies between the two bounds. *)
Lemma between_clamp lo hi v :
  is_nan lo = false -> is_nan hi = false -> (lo <=? hi) = true ->
  is_nan v = false ->
  Graph.between lo hi (Graph.clamp lo hi v) = true.
Proof.
  intros Hlo Hhi Hle Hv. unfold Graph.between, Graph.clamp.
  destruct (Math_min_cases hi v Hhi Hv) as [[Em Hm]|[Em Hm]]; rewrite Em.
  - destruct (Math_max_cases lo hi Hlo Hhi) as [[EM HM]|[EM HM]]; rewrite EM.
    + rewrite (leb_refl lo Hlo), Hle. reflexivity.
    + rewrite HM, (leb_refl hi Hhi). reflexivity.
  - destruct (Math_max_cases lo v Hlo Hv) as [[EM HM]|[EM HM]]; rewrite EM.
    + rewrite (leb_refl lo Hlo), Hle. reflexivity.
    + rewrite HM, Hm. reflexivity.
Qed.

(** A number between two finite bounds is a finite number. *)
Lemma between_finite lo hi v :
  is_infinity lo = false -> is_infinity hi = false ->
  Graph.between lo hi v = true ->
  is_nan v = false /\ is_infinity v = false.
Proof.
  intros Hlo Hhi Hb. unfold Graph.between in Hb. apply andb_prop in Hb as [H1 H2].
  rewrite FloatAxioms.leb_spec in H1, H2.
  pose proof (is_infinity_false _ Hlo) as Ilo. pose proof (is_infinity_false _ Hhi) as Ihi.
  split.
  - apply is_nan_false. intros E. rewrite E in H2. destruct (Prim2SF hi); discriminate.
  - destruct (is_infinity v) eqn:E; [|reflexivity].
    apply is_infinity_spec in E as [s E]. rewrite E in H1, H2.
    destruct s.
    + destruct (Prim2SF lo) as [?|[]| |? ? ?]; try discriminate. destruct (Ilo true); reflexivity.
    + destruct (Prim2SF hi) as [?|[]| |? ? ?]; try discriminate. destruct (Ihi false); reflexivity.
Qed.

End Numbers.

(** ** The simulation tick *)
Section Tick.
Import JS Graph Support.
Local Open Scope float_scope.

(** *** Loops over an array whose elements are mutated in place *)

Lemma fold_alter_seq {A} (f : A -> A) (l pre : list A) :
  fold_left (fun st i => alter f i st) (seq (length pre) (length l)) (pre ++ l)
  = pre ++ map f l.
Proof.
  revert pre. induction l as [|a l IH]; intros pre; [reflexivity|].
  cbn [length seq fold_left map].
  replace (alter f (length pre) (pre ++ a :: l)) with ((pre ++ [f a]) ++ l).
  - specialize (IH (pre ++ [f a])). rewrite length_app in IH. cbn [length] in IH.
    rewrite Nat.add_1_r in IH. rewrite IH, <- app_assoc. reflexivity.
  - rewrite <- app_assoc. cbn [app].
    rewrite <- (Nat.add_0_r (length pre)). rewrite alter_app_r. reflexivity.
Qed.

Lemma forEach_index_alter {A} (f : A -> A) (l : list A) :
  forEach_index (fun i st => alter f i st) l = map f l.
Proof. exact (fold_alter_seq f l []). Qed.

Lemma fold_lookup_seq {A B} (f : B -> A -> B) (l pre : list A) (b : B) :
  fold_left (fun acc j => match (pre ++ l) !! j with Some a => f acc a | None => acc end)
    (seq (length pre) (length l)) b
  = fold_left f l b.
Proof.
  revert pre b. induction l as [|a l IH]; intros pre b; [reflexivity|].
  cbn [length seq fold_left].
  rewrite list_lookup_middle by reflexivity.
  specialize (IH (pre ++ [a]) (f b a)). rewrite length_app, <- app_assoc in IH.
  cbn [length app] in IH. rewrite Nat.add_1_r in IH. exact IH.
Qed.

(** *** The forces read the place of a node, and leave it *)

Lemma place_set_vx n v : place (set_vx n v) = place n.
Proof. reflexivity. Qed.

Lemma place_set_vy n v : place (set_vy n v) = place n.
Proof. reflexivity. Qed.

Lemma place_add_velocity fx fy n : place (add_velocity fx fy n) = place n.
Proof. reflexivity. Qed.

Lemma place_sub_velocity fx fy n : place (sub_velocity fx fy n) = place n.
Proof. reflexivity. Qed.

Lemma place_spec_centering n : place (spec_centering n) = place n.
Proof. reflexivity. Qed.

Lemma place_spec_repel g o n : place (spec_repel g o n) = place n.
Proof. unfold spec_repel. destruct (String.eqb _ _); reflexivity. Qed.

Lemma place_at_place k : place (at_place k) = k.
Proof. destruct k as [[i px] py]. reflexivity. Qed.

Lemma spec_repel_place g o o' n : place o = place o' -> spec_repel g o n = spec_repel g o' n.
Proof.
  unfold place. intros E. injection E as Ei Ex Ey.
  unfold spec_repel, pos_x, pos_y. rewrite Ei, Ex, Ey. reflexivity.
Qed.

Lemma place_fold_repel g (K : list (string * option number * option number)) n :
  place (fold_left (fun acc k => spec_repel g (at_place k) acc) K n) = place n.
Proof.
  revert n. induction K as [|k K IH]; intros n; [reflexivity|].
  cbn [fold_left]. rewrite IH. apply place_spec_repel.
Qed.

Lemma fmap_place_alter (f : GraphNode -> GraphNode) (i : nat) (st : list GraphNode) :
  (forall n, place (f n) = place n) -> place <$> alter f i st = place <$> st.
Proof.
  intros Hf. revert i. induction st as [|a st IH]; intros i; [reflexivity|].
  destruct i as [|i]; cbn; [rewrite Hf; reflexivity|]. f_equal. apply IH.
Qed.

(** *** The code, function by function, against the specification's words *)

Lemma center_force_spec n : center_force n = spec_centering n.
Proof. reflexivity. Qed.

Lemma repulsion_spec other n : repulsion other n = spec_repel guard_or_1 other n.
Proof.
  unfold repulsion, spec_repel. destruct (String.eqb _ _); reflexivity.
Qed.

Lemma integrate_spec n : integrate n = spec_integrate n.
Proof. reflexivity. Qed.

Lemma link_force_spec st link : link_force st link = spec_spring st link.
Proof.
  unfold link_force, spec_spring.
  destruct (find_node st (link_source link)) as [[i source]|]; [|reflexivity].
  destruct (find_node st (link_target link)) as [[j target]|]; [|reflexivity].
  cbv zeta. rewrite !list_alter_alter_eq. reflexivity.
Qed.

(** The inner loop of the force phase, for the node at index [i]. *)
Lemma inner_loop (i : nat) (js : list nat) (st : list GraphNode) :
  fold_left (fun st j => match st !! j with
                         | Some other => alter (repulsion other) i st
                         | None => st
                         end) js st
  = alter (fun n => fold_left (fun acc j => match (place <$> st) !! j with
                                            | Some k => spec_repel guard_or_1 (at_place k) acc
                                            | None => acc
                                            end) js n) i st.
Proof.
  revert st. induction js as [|j js IH]; intros st.
  - cbn [fold_left]. symmetry. apply list_alter_id. reflexivity.
  - cbn [fold_left]. rewrite list_lookup_fmap.
    destruct (st !! j) as [other|] eqn:E; cbn [fmap option_fmap option_map].
    + rewrite IH. rewrite fmap_place_alter by (intros; rewrite repulsion_spec; apply place_spec_repel).
      rewrite list_alter_alter_eq. apply list_alter_ext; [|reflexivity].
      intros n _. cbn. rewrite repulsion_spec.
      rewrite (spec_repel_place _ other (at_place (place other))); [reflexivity|].
      symmetry. apply place_at_place.
    + apply IH.
Qed.

Lemma place_forces_on K n : place (forces_on K n) = place n.
Proof. unfold forces_on. rewrite place_fold_repel. reflexivity. Qed.

Lemma apply_forces_body_spec (i : nat) (st : list GraphNode) :
  apply_forces_body i st = alter (forces_on (place <$> st)) i st.
Proof.
  unfold apply_forces_body, forEach_index. rewrite inner_loop.
  rewrite list_alter_alter_eq. rewrite length_alter.
  rewrite fmap_place_alter by reflexivity.
  apply list_alter_ext; [|reflexivity]. intros n _. cbn. unfold forces_on.
  rewrite <- (length_fmap place st).
  exact (fold_lookup_seq (fun acc k => spec_repel guard_or_1 (at_place k) acc)
           (place <$> st) [] (center_force n)).
Qed.

Lemma apply_forces_loop K (idx : list nat) (st : list GraphNode) :
  place <$> st = K ->
  fold_left (fun st i => apply_forces_body i st) idx st
  = fold_left (fun st i => alter (forces_on K) i st) idx st.
Proof.
  revert st. induction idx as [|i idx IH]; intros st HK; [reflexivity|].
  cbn [fold_left]. rewrite apply_forces_body_spec, HK. apply IH.
  rewrite fmap_place_alter by apply place_forces_on. assumption.
Qed.

Lemma apply_forces_spec (st : list GraphNode) : apply_forces st = map (forces_on (place <$> st)) st.
Proof.
  unfold apply_forces, forEach_index.
  rewrite (apply_forces_loop (place <$> st)) by reflexivity.
  exact (forEach_index_alter (forces_on (place <$> st)) st).
Qed.

Lemma forces_on_spec (st : list GraphNode) n :
  forces_on (place <$> st) n
  = spec_repulsion guard_or_1 (map spec_centering st) (spec_centering n).
Proof.
  unfold forces_on, spec_repulsion. generalize (spec_centering n) as acc.
  induction st as [|o st IH]; intros acc; [reflexivity|].
  cbn [fmap list_fmap map fold_left]. rewrite <- IH. reflexivity.
Qed.

Lemma link_forces_spec st ls : link_forces st ls = fold_left spec_spring ls st.
Proof.
  unfold link_forces. revert st. induction ls as [|l ls IH]; intros st; [reflexivity|].
  cbn [fold_left]. rewrite link_force_spec. apply IH.
Qed.

Lemma integrate_all_spec st : integrate_all st = map spec_integrate st.
Proof.
  unfold integrate_all. rewrite forEach_index_alter. apply map_ext. apply integrate_spec.
Qed.

End Tick.

(** ** Claims on the layout engine *)
Section Layout.
Import JS Graph Support.
Local Open Scope float_scope.

(** C1, as stated, fails: with the distance of a pair kept at "minimum 1",
    two nodes half a unit apart would repel with force 500; the code divides
    by the distance 0.5 itself and repels them with force 2000. *)
Lemma C1_counterexample : tick close_pair <> spec_tick guard_min_1 close_pair.
Proof.
  intros H.
  apply (f_equal (fun d => match nodes d with
                           | n :: _ => Leibniz.eqb (num_of (node_x n)) 20
                           | [] => false
                           end)) in H.
  vm_compute in H. discriminate.
Qed.

(** The first node of the pair after one tick: the code sends it against the
    left bound, the "minimum 1" reading would leave it at x = 75. *)
Lemma close_pair_values :
  (num_of <$> (node_x <$> nodes (tick close_pair)) = [20; 580]) /\
  (num_of <$> (node_vx <$> nodes (tick close_pair)) = [-1800; 1799.9955]) /\
  (num_of <$> (node_vx <$> nodes (spec_tick guard_min_1 close_pair))
   = [-225; 224.99550000000002]).
Proof. vm_compute. repeat split; reflexivity. Qed.

(** C1, amended: one tick of the code is the five-step update of the
    specification, in which the distance of a pair of nodes is replaced by 1
    only when it is zero (or not a number), and two nodes are distinct when
    their ids differ: centering by 0.01 times the displacement toward
    (300, 200); repulsion 500/d^2 along the separation of every pair; spring
    (d - 100) * 0.1 of every link whose endpoints resolve, added to the source
    and subtracted from the target; damping 0.9, position += velocity, clamp. *)
Theorem C1_tick_is_the_five_step_update (d : GraphData) :
  tick d = spec_tick guard_or_1 d.
Proof.
  unfold tick, spec_tick. cbv zeta.
  rewrite integrate_all_spec, link_forces_spec, apply_forces_spec. do 3 f_equal.
  rewrite map_map. apply map_ext. intros n. apply forces_on_spec.
Qed.

(** *** Places are kept by a tick's force phases *)

Lemma place_spec_spring (st : list GraphNode) (l : GraphLink) :
  place <$> spec_spring st l = place <$> st.
Proof.
  unfold spec_spring.
  destruct (find_node st (link_source l)) as [[i source]|]; [|reflexivity].
  destruct (find_node st (link_target l)) as [[j target]|]; [|reflexivity].
  cbv zeta. rewrite !fmap_place_alter by reflexivity. reflexivity.
Qed.

Lemma place_springs (ls : list GraphLink) (st : list GraphNode) :
  place <$> fold_left spec_spring ls st = place <$> st.
Proof.
  revert st. induction ls as [|l ls IH]; intros st; [reflexivity|].
  cbn [fold_left]. rewrite IH. apply place_spec_spring.
Qed.

Lemma place_forces (st : list GraphNode) :
  place <$> map (forces_on (place <$> st)) st = place <$> st.
Proof.
  generalize (place <$> st) at 1 as K. intros K.
  induction st as [|n st IH]; [reflexivity|].
  cbn [map fmap list_fmap]. rewrite place_forces_on. f_equal. apply IH.
Qed.

(** The nodes the last phase integrates stand where the tick found them. *)
Lemma place_before_integration (d : GraphData) :
  place <$> link_forces (apply_forces (nodes d)) (links d) = place <$> nodes d.
Proof.
  rewrite link_forces_spec, place_springs, apply_forces_spec. apply place_forces.
Qed.

Lemma tick_nodes (d : GraphData) :
  nodes (tick d) = map spec_integrate (link_forces (apply_forces (nodes d)) (links d)).
Proof. unfold tick. cbv zeta. cbn [nodes]. apply integrate_all_spec. Qed.

Lemma finite_position_place (l1 l2 : list GraphNode) :
  place <$> l1 = place <$> l2 ->
  Forall (fun n => finite_position n = true) l1 ->
  Forall (fun n => finite_position n = true) l2.
Proof.
  intros E H.
  assert (forall l : list GraphNode,
            Forall (fun n => finite_position n = true) l <->
            Forall (fun k => not_infinite (snd (fst k)) && not_infinite (snd k) = true)
              (place <$> l)) as Hp.
  { intros l. rewrite Forall_fmap. reflexivity. }
  apply Hp. rewrite <- E. apply Hp. assumption.
Qed.

(** *** The clamp *)

Lemma pos_x_finite n :
  not_infinite (node_x n) = true -> is_nan (pos_x n) = false /\ is_infinity (pos_x n) = false.
Proof.
  intros H. unfold pos_x. split; [apply num_or_not_nan; reflexivity|].
  destruct (node_x n) as [v|]; cbn [num_or not_infinite] in *; [|reflexivity].
  apply or_num_not_infinite; [|reflexivity]. destruct (is_infinity v); [discriminate|reflexivity].
Qed.

Lemma pos_y_finite n :
  not_infinite (node_y n) = true -> is_nan (pos_y n) = false /\ is_infinity (pos_y n) = false.
Proof.
  intros H. unfold pos_y. split; [apply num_or_not_nan; reflexivity|].
  destruct (node_y n) as [v|]; cbn [num_or not_infinite] in *; [|reflexivity].
  apply or_num_not_infinite; [|reflexivity]. destruct (is_infinity v); [discriminate|reflexivity].
Qed.

Lemma spec_integrate_in_bounds n :
  finite_position n = true -> in_bounds (spec_integrate n) = true.
Proof.
  unfold finite_position. intros H. apply andb_prop in H as [Hx Hy].
  destruct (pos_x_finite n Hx) as [Hxn Hxi]. destruct (pos_y_finite n Hy) as [Hyn Hyi].
  unfold in_bounds, spec_integrate. cbv zeta. cbn [node_x node_y set_x set_y num_of].
  rewrite !between_clamp; try reflexivity.
  - apply add_not_nan; [assumption|apply or_num_not_nan; reflexivity|assumption].
  - apply add_not_nan; [assumption|apply or_num_not_nan; reflexivity|assumption].
Qed.

Lemma in_bounds_finite n : in_bounds n = true -> finite_position n = true.
Proof.
  unfold in_bounds, finite_position. intros H. apply andb_prop in H as [Hx Hy].
  destruct (node_x n) as [vx|]; [|discriminate]. destruct (node_y n) as [vy|]; [|discriminate].
  cbn [num_of not_infinite] in *.
  destruct (between_finite 20 580 vx) as [_ ->]; try reflexivity; try assumption.
  destruct (between_finite 20 380 vy) as [_ ->]; try reflexivity; try assumption.
Qed.

Lemma tick_in_bounds (d : GraphData) :
  Forall (fun n => finite_position n = true) (nodes d) ->
  Forall (fun n => in_bounds n = true) (nodes (tick d)).
Proof.
  intros H. rewrite tick_nodes. apply Forall_map.
  apply (finite_position_place _ _ (eq_sym (place_before_integration d))) in H.
  eapply Forall_impl; [exact H|]. intros n Hn. apply spec_integrate_in_bounds. exact Hn.
Qed.

Lemma ids_of_places (l1 l2 : list GraphNode) :
  place <$> l1 = place <$> l2 -> node_id <$> l1 = node_id <$> l2.
Proof.
  intros E. change node_id with ((fun k => fst (fst k)) ∘ place).
  rewrite !list_fmap_compose, E. reflexivity.
Qed.

Lemma tick_ids (d : GraphData) : node_id <$> nodes (tick d) = node_id <$> nodes d.
Proof.
  rewrite tick_nodes. change (map spec_integrate ?l) with (spec_integrate <$> l).
  rewrite <- list_fmap_compose.
  change (node_id ∘ spec_integrate) with node_id.
  apply ids_of_places. apply place_before_integration.
Qed.

Lemma clamp_not_infinite (lo hi v : number) :
  is_nan lo = false -> is_nan hi = false -> (lo <=? hi) = true ->
  is_infinity lo = false -> is_infinity hi = false ->
  is_infinity (clamp lo hi v) = false.
Proof.
  intros Hlo Hhi Hle Ilo Ihi. destruct (is_nan v) eqn:Hv.
  - unfold clamp, Math_min, Math_max. rewrite Hv, Hhi, Hlo. reflexivity.
  - destruct (between_finite lo hi (clamp lo hi v) Ilo Ihi) as [_ H]; [|exact H].
    apply between_clamp; assumption.
Qed.

Lemma spec_integrate_finite (n : GraphNode) : finite_position (spec_integrate n) = true.
Proof.
  unfold finite_position, spec_integrate. cbv zeta. cbn [node_x node_y set_x set_y not_infinite].
  rewrite !clamp_not_infinite; reflexivity.
Qed.

Lemma ticks_ids (k : nat) (d : GraphData) :
  node_id <$> nodes (ticks k d) = node_id <$> nodes d.
Proof.
  revert d. induction k as [|k IH]; intros d; [reflexivity|].
  change (ticks (S k) d) with (ticks k (tick d)). rewrite IH. apply tick_ids.
Qed.

Lemma ticks_in_bounds (k : nat) (d : GraphData) :
  Forall (fun n => finite_position n = true) (nodes d) ->
  Forall (fun n => in_bounds n = true) (nodes (ticks (S k) d)).
Proof.
  revert d. induction k as [|k IH]; intros d H.
  - cbn [ticks]. apply tick_in_bounds. assumption.
  - change (ticks (S (S k)) d) with (ticks (S k) (tick d)). apply IH.
    eapply Forall_impl; [apply tick_in_bounds; exact H|].
    intros n Hn. apply in_bounds_finite. exact Hn.
Qed.

Lemma tick_finite (d : GraphData) :
  Forall (fun n => finite_position n = true) (nodes (tick d)).
Proof.
  rewrite tick_nodes. apply Forall_map, Forall_forall. intros n _.
  apply spec_integrate_finite.
Qed.

(** C2, as stated, fails.  Before the first tick a node is where the fetch
    or a drag has put it: a node at x = 1000 is outside the canvas after no
    tick.  And one tick does not bring every node set within the bounds: a
    node at rest at x = +Infinity is pulled by the centering with the velocity
    -Infinity, the sum of the two is NaN, and NaN passes the clamp: after one
    tick its x is NaN, which is in no interval. *)
Lemma C2_counterexample :
  in_bounds <$> nodes (ticks 0 {| nodes := [node_at "a" 1000 200]; links := [] |}) = [false] /\
  in_bounds <$> nodes (ticks 1 {| nodes := [node_at "a" infinity 200]; links := [] |})
  = [false] /\
  (fun n => is_nan (num_of (node_x n)))
    <$> nodes (ticks 1 {| nodes := [node_at "a" infinity 200]; links := [] |})
  = [true].
Proof. vm_compute. repeat split; reflexivity. Qed.

(** C2, amended: ticks keep every node, in order and with its id, and
    after any number of ticks, at least one, every node's position is
    within the canvas bounds, x in [20, 580] and y in [20, 380], when no
    coordinate of the node set is an infinity (those of a fetched graph, of a
    dragged node and of a ticked graph are finite numbers); after two ticks or
    more it is so from any node set whatever: the first tick leaves every
    coordinate within the bounds or NaN, and the next one reads NaN as 0.  The
    links are arbitrary: their endpoints need not resolve. *)
Theorem C2_positions_stay_in_bounds (d : GraphData) (k : nat) :
  node_id <$> nodes (ticks k d) = node_id <$> nodes d /\
  length (nodes (ticks k d)) = length (nodes d) /\
  (Forall (fun n => finite_position n = true) (nodes d) ->
   Forall (fun n => in_bounds n = true) (nodes (ticks (S k) d))) /\
  Forall (fun n => in_bounds n = true) (nodes (ticks (S (S k)) d)).
Proof.
  split; [apply ticks_ids|]. split.
  - rewrite <- (length_fmap node_id (nodes (ticks k d))), ticks_ids. apply length_fmap.
  - split; [apply ticks_in_bounds|].
    change (ticks (S (S k)) d) with (ticks (S k) (tick d)).
    apply ticks_in_bounds, tick_finite.
Qed.

Lemma C2_witness :
  Forall (fun n => finite_position n = true) (nodes graph_a_b) /\
  node_id <$> nodes (ticks 3 graph_a_b) = ["a"; "b"]%string /\
  Forall (fun n => in_bounds n = true) (nodes (ticks 3 graph_a_b)).
Proof.
  assert (Forall (fun n => finite_position n = true) (nodes graph_a_b)) as H
    by (repeat constructor).
  split; [exact H|]. split.
  - transitivity (node_id <$> nodes (ticks 2 graph_a_b)); [reflexivity|].
    exact (proj1 (C2_positions_stay_in_bounds graph_a_b 2)).
  - exact (proj1 (proj2 (proj2 (C2_positions_stay_in_bounds graph_a_b 2))) H).
Defined.

End Layout.

(** ** Links that do not resolve *)
Section Interaction.
Import JS Graph Support.
Local Open Scope float_scope.

Lemma find_node_None (st : list GraphNode) (ident : string) :
  find_node st ident = None <-> ident ∉ node_id <$> st.
Proof.
  unfold find_node. rewrite list_find_None, Forall_forall, list_elem_of_fmap.
  split.
  - intros H (n & -> & Hn). exact (H n Hn eq_refl).
  - intros H n Hn E. apply H. exists n. split; [symmetry; exact E|exact Hn].
Qed.

Lemma spec_spring_unresolved (st : list GraphNode) (l : GraphLink) :
  link_source l ∉ node_id <$> st \/ link_target l ∉ node_id <$> st ->
  spec_spring st l = st.
Proof.
  unfold spec_spring. intros [H|H]; apply find_node_None in H; rewrite H;
    [reflexivity|]. destruct (find_node st (link_source l)) as [[i s]|]; reflexivity.
Qed.

(** C3: a link whose source or target id is the id of no node is a no-op.
    The tick applies no force for it: the link's spring changes no node, and
    the tick of the graph moves the nodes as the tick of the graph without
    the link does.  Rendering skips it ([null]) and still renders one line
    slot per link and one circle per node, in order.  Both are total
    functions: neither raises an error. *)
Theorem C3_unresolved_link_is_a_no_op (d : GraphData) (l : GraphLink)
    (before after : list GraphLink) :
  link_source l ∉ node_id <$> nodes d \/ link_target l ∉ node_id <$> nodes d ->
  link_force (nodes d) l = nodes d /\
  nodes (tick {| nodes := nodes d; links := before ++ l :: after |})
  = nodes (tick {| nodes := nodes d; links := before ++ after |}) /\
  render_link d l = None /\
  forall st, graphData st = Some d -> isLoading st = false ->
    exists lines shapes,
      render st = Some (lines, shapes) /\
      length lines = length (links d) /\
      (fun s => key (fst s)) <$> shapes = node_id <$> nodes d.
Proof.
  intros H. split; [|split; [|split]].
  - rewrite link_force_spec. apply spec_spring_unresolved. exact H.
  - rewrite !tick_nodes. cbn [nodes links]. f_equal.
    rewrite !link_forces_spec, !fold_left_app. cbn [fold_left]. f_equal.
    apply spec_spring_unresolved.
    rewrite (ids_of_places _ (apply_forces (nodes d))) by apply place_springs.
    rewrite (ids_of_places _ (nodes d)); [exact H|].
    rewrite apply_forces_spec. apply place_forces.
  - unfold render_link. destruct H as [H|H]; apply find_node_None in H; rewrite H;
      [reflexivity|]. destruct (find_node (nodes d) (link_source l)) as [[i s]|]; reflexivity.
  - intros st Hd Hl. unfold render. rewrite Hd, Hl.
    eexists _, _. split; [reflexivity|]. split; [apply length_map|].
    rewrite <- list_fmap_compose. reflexivity.
Qed.

(** The payload [{nodes: [{id: "a"}, {id: "b"}], links: [{source: "a",
    target: "z"}]}]: nodes a and b are rendered, the link is skipped. *)
Lemma C3_witness :
  (link_source link_a_z ∉ node_id <$> nodes graph_a_b_z
   \/ link_target link_a_z ∉ node_id <$> nodes graph_a_b_z) /\
  link_force (nodes graph_a_b_z) link_a_z = nodes graph_a_b_z /\
  render_link graph_a_b_z link_a_z = None.
Proof.
  assert (link_source link_a_z ∉ node_id <$> nodes graph_a_b_z
          \/ link_target link_a_z ∉ node_id <$> nodes graph_a_b_z) as H.
  { right. cbn. rewrite !not_elem_of_cons. repeat split; try discriminate.
    apply not_elem_of_nil. }
  destruct (C3_unresolved_link_is_a_no_op graph_a_b_z link_a_z [] [] H) as (H1 & _ & H3 & _).
  split; [exact H|]. split; [exact H1|exact H3].
Defined.

End Interaction.

(** ** Zoom *)
Section Zoom.
Import JS Graph Support.
Local Open Scope float_scope.

Lemma mem_In (z : number) (l : list number) : mem z l = true -> In z l.
Proof.
  induction l as [|z' l IH]; cbn [mem]; [discriminate|].
  intros H. apply orb_prop in H as [H|H].
  - left. symmetry. apply FloatAxioms.Leibniz.eqb_spec. exact H.
  - right. apply IH. exact H.
Qed.

Lemma zoom_levels_closed (z : number) :
  In z zoom_levels ->
  In (zoomIn_value z) zoom_levels /\ In (zoomOut_value z) zoom_levels /\
  between 0.5 3 z = true.
Proof.
  assert (zoom_closed zoom_levels = true) as H by (vm_compute; reflexivity).
  unfold zoom_closed in H. rewrite forallb_forall in H.
  intros Hz. specialize (H z Hz).
  apply andb_prop in H as [H H3]. apply andb_prop in H as [H1 H2].
  split; [apply mem_In; exact H1|]. split; [apply mem_In; exact H2|exact H3].
Qed.

Lemma zoom_click_level (st : State) (c : ZoomClick) :
  In (zoom st) zoom_levels -> In (zoom (click st c)) zoom_levels.
Proof.
  intros H. destruct (zoom_levels_closed _ H) as (Hin & Hout & _).
  destruct c; cbn [click zoomIn zoomOut setZoom zoom]; assumption.
Qed.

Lemma zoom_clicks_level (cs : list ZoomClick) (st : State) :
  In (zoom st) zoom_levels -> In (zoom (fold_left click cs st)) zoom_levels.
Proof.
  revert st. induction cs as [|c cs IH]; intros st H; [exact H|].
  cbn [fold_left]. apply IH. apply zoom_click_level. exact H.
Qed.

(** C6: [zoomIn] multiplies the zoom factor by 1.2 and clamps it above at 3,
    [zoomOut] divides it by 1.2 and clamps it below at 0.5; after any
    sequence of clicks on the two buttons from the initial factor 1 the
    factor is in [0.5, 3]; five clicks on [zoomIn] from 1 give
    min(1 * 1.2^5, 3), the power being the product of five factors 1.2 taken
    in binary64 from the left. *)
Theorem C6_zoom_steps_and_range :
  (forall st, zoom (zoomIn st) = Math_min (zoom st * 1.2) 3) /\
  (forall st, zoom (zoomOut st) = Math_max (zoom st / 1.2) 0.5) /\
  (forall cs, between 0.5 3 (zoom_after cs) = true) /\
  zoom_after (repeat ClickZoomIn 5) = Math_min (1 * power 1.2 5) 3.
Proof.
  split; [reflexivity|]. split; [reflexivity|]. split.
  - intros cs. unfold zoom_after.
    assert (In (zoom initial) zoom_levels) as H0 by (apply mem_In; vm_compute; reflexivity).
    apply (zoom_clicks_level cs) in H0. apply zoom_levels_closed in H0 as (_ & _ & H).
    exact H.
  - vm_compute. reflexivity.
Qed.

End Zoom.

(** ** Fetching the graph *)
Section Fetch.
Import JS Graph Support.
Local Open Scope float_scope.

Lemma fetch_failed_attempt (typeError : string) (rnd : nat -> number) (res : FetchResult) :
  fetch_failed res -> exists msg, fetch_attempt typeError rnd res = inl msg.
Proof.
  destruct res as [message|ok statusText json]; cbn [fetch_failed fetch_attempt].
  - intros _. eexists. reflexivity.
  - destruct ok; cbn [negb]; [|intros _; eexists; reflexivity].
    intros [H|H]; [discriminate|].
    destruct json as [message|data]; [eexists; reflexivity|].
    unfold process. destruct H as [-> | H]; [eexists; reflexivity|].
    rewrite H. destruct (raw_nodes data); eexists; reflexivity.
Qed.

(** C8: when the graph fetch fails (network error, non-success response,
    invalid JSON) or the payload lacks its [nodes] or [links] array, the
    failure message becomes the component's error state and a destructive
    toast titled "Failed to load knowledge graph", the loading flag is
    cleared, and the graph data, the selection, the zoom and the pan are what
    they were. *)
Theorem C8_failed_fetch_keeps_the_graph (typeError : string) (rnd : nat -> number)
    (res : FetchResult) (st : State) :
  fetch_failed res ->
  exists msg,
    fetch_attempt typeError rnd res = inl msg /\
    fetchGraphData typeError rnd res st
    = {| graphData := graphData st; isLoading := false; error := Some msg;
         selectedNode := selectedNode st; zoom := zoom st; pan := pan st;
         toasts := toasts st ++ [{| title := "Failed to load knowledge graph";
                                    description := msg;
                                    variant := Some "destructive"%string |}] |}.
Proof.
  intros H. destruct (fetch_failed_attempt typeError rnd res H) as [msg Hmsg].
  exists msg. split; [exact Hmsg|]. unfold fetchGraphData. rewrite Hmsg. reflexivity.
Qed.

Lemma C8_witness :
  fetch_failed (Response true "OK" (inr payload_no_nodes)) /\
  graphData (fetchGraphData "Cannot read properties of undefined (reading 'map')"
               (fun _ => 0.5) (Response true "OK" (inr payload_no_nodes))
               (setGraphData (fun _ => Some graph_a_b) initial))
  = Some graph_a_b.
Proof.
  assert (fetch_failed (Response true "OK" (inr payload_no_nodes))) as H
    by (right; left; reflexivity).
  split; [exact H|].
  destruct (C8_failed_fetch_keeps_the_graph
              "Cannot read properties of undefined (reading 'map')" (fun _ => 0.5)
              (Response true "OK" (inr payload_no_nodes))
              (setGraphData (fun _ => Some graph_a_b) initial) H) as (msg & _ & ->).
  reflexivity.
Defined.

(** *** C10: the normalised graph *)

Lemma str_or_nonempty (a : option string) (dflt : string) :
  dflt <> ""%string -> str_or a dflt <> ""%string.
Proof.
  intros Hd. unfold str_or, str_truthy. destruct a as [s|]; [|exact Hd].
  destruct (String.eqb_spec s ""); cbn [negb]; assumption.
Qed.

Lemma append_nonempty (c : ascii) (s t : string) : (String c s +:+ t)%string <> ""%string.
Proof. discriminate. Qed.

Lemma text_or_nonempty (a : option jsstring) (dflt : jsstring) :
  dflt <> [] -> text_or a dflt <> [].
Proof.
  intros Hd. unfold text_or. destruct a as [[|c s]|]; cbn [text_truthy];
    [exact Hd|discriminate|exact Hd].
Qed.

Lemma lit_append_nonempty (c : ascii) (s t : string) : lit (String c s +:+ t) <> [].
Proof. discriminate. Qed.

Lemma random_coordinates (r r' : number) :
  (0 <=? r) = true /\ (r <? 1) = true -> (0 <=? r') = true /\ (r' <? 1) = true ->
  between 100 500 (r * 400 + 100) = true /\ between 100 400 (r' * 300 + 100) = true.
Proof.
  intros [H0 H1] [H0' H1']. unfold between.
  destruct (random_x_range r H0 H1) as [-> ->].
  destruct (random_y_range r' H0' H1') as [-> ->]. split; reflexivity.
Qed.

Lemma normalize_nodes_normalized (rnd : nat -> number) (raw : list RawNode) (k index : nat) :
  unit_interval rnd -> Forall normalized_node (normalize_nodes rnd k index raw).
Proof.
  intros Hrnd. revert k index. induction raw as [|node raw IH]; intros k index;
    cbn [normalize_nodes]; [constructor|].
  set (sk := match raw_size node with
             | Some v => if truthy v then (v, k) else (rnd k * 20 + 10, S k)
             | None => (rnd k * 20 + 10, S k)
             end).
  destruct sk as [size k'] eqn:Esk. constructor; [|apply IH].
  unfold normalized_node. cbn [node_id node_label node_size node_color node_vx node_vy
                               node_x node_y].
  split; [apply str_or_nonempty, append_nonempty|].
  split; [apply text_or_nonempty, text_or_nonempty, lit_append_nonempty|].
  split; [eexists; reflexivity|]. split; [eexists; reflexivity|].
  split; [reflexivity|]. split; [reflexivity|].
  eexists _, _. split; [reflexivity|]. split; [reflexivity|].
  apply random_coordinates; apply Hrnd.
Qed.

Lemma normalize_link_normalized (raw : RawLink) : normalized_link raw (normalize_link raw).
Proof.
  unfold normalized_link, normalize_link. cbn [link_source link_target link_weight link_label].
  split; [reflexivity|]. split; [reflexivity|]. split.
  - destruct (raw_weight raw) as [w|]; reflexivity.
  - unfold str_or, str_truthy. destruct (raw_link_label raw) as [s|]; [|reflexivity].
    destruct (String.eqb_spec s ""); cbn [negb]; [subst; reflexivity|reflexivity].
Qed.

Lemma normalized_node_finite (n : GraphNode) :
  normalized_node n -> finite_position n = true.
Proof.
  intros (_ & _ & _ & _ & _ & _ & x & y & Hx & Hy & Bx & By).
  unfold finite_position. rewrite Hx, Hy. cbn [not_infinite].
  destruct (between_finite 100 500 x) as [_ ->]; try reflexivity; try assumption.
  destruct (between_finite 100 400 y) as [_ ->]; try reflexivity; try assumption.
Qed.

(** C10, as stated, fails: with [Math.random()] returning 0.95 the initial
    y is 0.95 * 300 + 100 = 385, above the clamp bound 380, so the bounds
    invariant does not hold before the first tick. *)
Lemma C10_counterexample :
  ((0 <=? 0.95) = true /\ (0.95 <? 1) = true) /\
  exists d, process "" (fun _ => 0.95) payload_a_b_z = inr d /\
            node_y <$> nodes d = [Some 385; Some 385] /\
            in_bounds <$> nodes d = [false; false].
Proof.
  split; [split; reflexivity|]. eexists. split; [reflexivity|].
  split; vm_compute; reflexivity.
Qed.

(** C10, amended: after a successful fetch every node has a non-empty id, a
    non-empty label, a size, a color, velocity (0, 0), and an initial
    position with x in [100, 500] and y in [100, 400]; that is inside the
    canvas, but not always inside the clamp region [20, 580] x [20, 380] (y
    may exceed 380), and it is the first tick that establishes the bounds;
    every link has the source and target of the payload's link, a weight
    (1 when absent or falsy) and a label (the empty string when absent). *)
Theorem C10_normalized_graph (typeError : string) (rnd : nat -> number)
    (data : RawGraph) (d : GraphData) :
  unit_interval rnd ->
  process typeError rnd data = inr d ->
  Forall normalized_node (nodes d) /\
  (exists raw, raw_links data = Some raw /\ Forall2 normalized_link raw (links d)) /\
  Forall (fun n => in_bounds n = true) (nodes (tick d)).
Proof.
  intros Hrnd Hp. unfold process in Hp.
  destruct (raw_nodes data) as [ns|]; [|discriminate].
  destruct (raw_links data) as [ls|]; [|discriminate].
  injection Hp as <-. cbn [nodes links].
  pose proof (normalize_nodes_normalized rnd ns 0 0 Hrnd) as Hn.
  split; [exact Hn|]. split.
  - exists ls. split; [reflexivity|]. apply Forall2_fmap_r, Forall_Forall2_diag.
    apply Forall_forall. intros raw _. apply normalize_link_normalized.
  - apply tick_in_bounds. cbn [nodes].
    eapply Forall_impl; [exact Hn|]. apply normalized_node_finite.
Qed.

Lemma half_unit_interval : unit_interval (fun _ => 0.5).
Proof. intros k. split; reflexivity. Qed.

Lemma C10_witness :
  unit_interval (fun _ => 0.5) /\
  process "" (fun _ => 0.5) payload_a_b_z = inr graph_a_b_z /\
  Forall normalized_node (nodes graph_a_b_z).
Proof.
  split; [exact half_unit_interval|]. split; [reflexivity|].
  exact (proj1 (C10_normalized_graph "" (fun _ => 0.5) payload_a_b_z graph_a_b_z
                  half_unit_interval eq_refl)).
Defined.

End Fetch.

(** ** Dragging a node *)
Section Drag.
Import JS Graph Support.
Local Open Scope float_scope.

Lemma map_at_unique_id (f : GraphNode -> GraphNode) (ns : list GraphNode) (i : nat)
    (ni : GraphNode) (ident : string) :
  NoDup (node_id <$> ns) -> ns !! i = Some ni -> node_id ni = ident ->
  map (fun n => if String.eqb (node_id n) ident then f n else n) ns = <[i := f ni]> ns.
Proof.
  intros Hnd Hi Hid. apply list_eq. intros j.
  change (map ?g ns) with (g <$> ns). rewrite list_lookup_fmap.
  destruct (decide (i = j)) as [<-|Hne].
  - rewrite list_lookup_insert_eq by (apply lookup_lt_Some in Hi; exact Hi).
    rewrite Hi. cbn. rewrite Hid, String.eqb_refl. reflexivity.
  - rewrite list_lookup_insert_ne by exact Hne.
    destruct (ns !! j) as [nj|] eqn:Hj; [|reflexivity]. cbn.
    destruct (String.eqb_spec (node_id nj) ident) as [E|_]; [|reflexivity].
    exfalso. apply Hne. apply (NoDup_lookup _ i j ident Hnd).
    + rewrite list_lookup_fmap, Hi. cbn. rewrite Hid. reflexivity.
    + rewrite list_lookup_fmap, Hj. cbn. rewrite E. reflexivity.
Qed.

Lemma drag_ids (ident : string) (x y : number) (ns : list GraphNode) :
  node_id <$> map (fun n => if String.eqb (node_id n) ident then dragged n x y else n) ns
  = node_id <$> ns.
Proof.
  induction ns as [|n ns IH]; [reflexivity|]. cbn [map fmap list_fmap]. f_equal; [|exact IH].
  destruct (String.eqb _ _); reflexivity.
Qed.

Lemma svg_mounted (q : Page) (dq : GraphData) :
  graphData (component q) = Some dq -> isLoading (component q) = false ->
  svg q = Some (viewport q).
Proof. intros Hd Hl. unfold svg. rewrite Hd, Hl. reflexivity. Qed.

(** While the listener of a drag is the only one registered, pointer moves
    and animation frames keep it registered, keep the [svg] mounted where it
    is, and keep the ids of the nodes. *)
Lemma drag_invariant (l : Listener) (ids : list string) (gc : GraphData)
    (es : list Event) (q : Page) :
  l_graphData l = Some gc ->
  Forall during_drag es ->
  isLoading (component q) = false -> mousemove q = [l] ->
  (exists dq, graphData (component q) = Some dq /\ node_id <$> nodes dq = ids) ->
  let q' := fold_left step es q in
  isLoading (component q') = false /\ mousemove q' = [l] /\ viewport q' = viewport q /\
  zoom (component q') = zoom (component q) /\ pan (component q') = pan (component q) /\
  exists dq', graphData (component q') = Some dq' /\ node_id <$> nodes dq' = ids.
Proof.
  intros Hl Hes. revert q. induction Hes as [|e es He _ IH]; intros q Hload Hmm Hd.
  - cbn. repeat split; assumption.
  - cbn [fold_left]. destruct Hd as (dq & Hdq & Hids).
    pose proof (svg_mounted q dq Hdq Hload) as Hsvg.
    assert (isLoading (component (step q e)) = false /\ mousemove (step q e) = [l] /\
            viewport (step q e) = viewport q /\
            zoom (component (step q e)) = zoom (component q) /\
            pan (component (step q e)) = pan (component q) /\
            exists dq', graphData (component (step q e)) = Some dq' /\
                        node_id <$> nodes dq' = ids) as (H1 & H2 & H3 & H4 & H5 & H6).
    { destruct e as [index|event| | |index]; cbn [during_drag] in He; try contradiction.
      - cbn [step with_component viewport mousemove component]. rewrite Hmm, Hsvg.
        cbn [fold_left run_listener setGraphData graphData isLoading zoom pan].
        rewrite Hdq, Hl. cbn [handleNodeDrag]. repeat split; try assumption.
        eexists. split; [reflexivity|]. cbn [nodes]. rewrite drag_ids. exact Hids.
      - cbn [step]. rewrite Hdq, Hsvg.
        cbn [with_component viewport mousemove component setGraphData graphData isLoading
               zoom pan].
        rewrite Hdq. cbn [simulate]. repeat split; try assumption.
        eexists. split; [reflexivity|]. rewrite tick_ids. exact Hids. }
    specialize (IH (step q e) H1 H2 H6). cbv zeta in IH.
    destruct IH as (I1 & I2 & I3 & I4 & I5 & I6).
    repeat split; try assumption; congruence.
Qed.

(** Once no listener is registered and until the next press, the graph is
    written by the animation frames alone: pointer moves, releases and clicks
    leave it as it is, and each frame is one tick of the whole graph. *)
Lemma released_graph (after : list Event) (q : Page) (dm : GraphData) :
  Forall after_release after ->
  graphData (component q) = Some dm -> isLoading (component q) = false ->
  mousemove q = [] ->
  graphData (component (fold_left step after q)) = Some (ticks (frames after) dm).
Proof.
  intros Hafter. revert q dm.
  induction Hafter as [|e after He _ IH]; intros q dm Hd Hload Hmm; [exact Hd|].
  cbn [fold_left]. pose proof (svg_mounted q dm Hd Hload) as Hsvg.
  destruct e as [index|event| | |index]; cbn [after_release] in He; try contradiction.
  - change (frames (MouseMove event :: after)) with (frames after). apply IH.
    + cbn [step with_component component]. rewrite Hmm. exact Hd.
    + cbn [step with_component component]. rewrite Hmm. exact Hload.
    + cbn [step with_component mousemove]. exact Hmm.
  - change (frames (MouseUp :: after)) with (frames after). apply IH.
    + exact Hd.
    + exact Hload.
    + reflexivity.
  - change (frames (AnimationFrame :: after)) with (S (frames after)).
    change (ticks (S (frames after)) dm) with (ticks (frames after) (tick dm)). apply IH.
    + cbn [step]. rewrite Hd, Hsvg.
      cbn [with_component component setGraphData graphData]. rewrite Hd. reflexivity.
    + cbn [step]. rewrite Hd, Hsvg. exact Hload.
    + cbn [step]. rewrite Hd, Hsvg. exact Hmm.
  - change (frames (Click index :: after)) with (frames after). apply IH.
    + cbn [step]. rewrite Hd, Hsvg. destruct (nodes dm !! index); exact Hd.
    + cbn [step]. rewrite Hd, Hsvg. destruct (nodes dm !! index); exact Hload.
    + cbn [step]. rewrite Hd, Hsvg. destruct (nodes dm !! index); exact Hmm.
Qed.

(** C9, as stated, fails: the ids the fetch gives can collide.  The payload
    [{nodes: [{id: "node-1"}, {}], links: []}] gives both nodes the id
    ["node-1"] (the second by its position), and a pointer move during a drag
    of the first node moves both of them to the pointer: another node than
    the dragged one is changed. *)
Lemma C9_counterexample :
  let q := step (step twins_page (MouseDown 0)) (MouseMove {| clientX := 50; clientY := 60 |}) in
  (fun d => (fun n => (node_id n, node_x n, node_y n)) <$> nodes d)
    <$> graphData (component twins_page)
  = Some [("node-1"%string, Some 300, Some 250); ("node-1"%string, Some 300, Some 250)] /\
  (fun d => (fun n => (node_id n, node_x n, node_y n)) <$> nodes d)
    <$> graphData (component q)
  = Some [("node-1"%string, Some 50, Some 60); ("node-1"%string, Some 50, Some 60)].
Proof. vm_compute. split; reflexivity. Qed.

(** C9, amended: once the pointer is pressed on a node of a rendered graph,
    and whatever pointer moves and animation frames follow, a pointer move
    gives every node that carries the id of the pressed node the
    pointer-derived position ((clientX - rect.left) / zoom - pan.x,
    (clientY - rect.top) / zoom - pan.y) and the velocity (0, 0), keeps its
    other properties, and changes no node with another id and no link; when
    the ids are distinct that is the pressed node alone, at its index.  After
    the release, and until the next press, pointer moves write nothing: the
    graph is what the animation frames make of it, one tick of the whole
    graph, the dragged node included, per frame. *)
Theorem C9_drag_sets_the_node_until_release (p : Page) (d : GraphData)
    (i : nat) (node : GraphNode) (es after : list Event) (ev : MouseEvent) :
  graphData (component p) = Some d -> isLoading (component p) = false ->
  mousemove p = [] ->
  nodes d !! i = Some node ->
  Forall during_drag es -> Forall after_release after ->
  let q := fold_left step es (step p (MouseDown i)) in
  let moved (n : GraphNode) :=
    {| node_id := node_id n; node_label := node_label n; node_size := node_size n;
       node_color := node_color n;
       node_x := Some ((clientX ev - left (viewport p)) / zoom (component p)
                       - fst (pan (component p)));
       node_y := Some ((clientY ev - top (viewport p)) / zoom (component p)
                       - snd (pan (component p)));
       node_vx := Some 0; node_vy := Some 0 |} in
  exists dq,
    graphData (component q) = Some dq /\
    node_id <$> nodes dq = node_id <$> nodes d /\
    let dm := {| nodes := map (fun n => if String.eqb (node_id n) (node_id node)
                                        then moved n else n) (nodes dq);
                 links := links dq |} in
    graphData (component (step q (MouseMove ev))) = Some dm /\
    (NoDup (node_id <$> nodes d) ->
     exists nq, nodes dq !! i = Some nq /\ nodes dm = <[i := moved nq]> (nodes dq)) /\
    graphData (component (fold_left step after (step (step q (MouseMove ev)) MouseUp)))
    = Some (ticks (frames after) dm).
Proof.
  intros Hd Hload Hmm Hi Hes Hafter. cbv zeta.
  set (moved := fun n : GraphNode =>
    {| node_id := node_id n; node_label := node_label n; node_size := node_size n;
       node_color := node_color n;
       node_x := Some ((clientX ev - left (viewport p)) / zoom (component p)
                       - fst (pan (component p)));
       node_y := Some ((clientY ev - top (viewport p)) / zoom (component p)
                       - snd (pan (component p)));
       node_vx := Some 0; node_vy := Some 0 |}).
  set (l := {| l_graphData := graphData (component p); l_zoom := zoom (component p);
               l_pan := pan (component p); l_node := node |}).
  set (p1 := {| component := component p; viewport := viewport p; mousemove := [l] |}).
  assert (step p (MouseDown i) = p1) as Hdown.
  { cbn [step]. rewrite (svg_mounted p d Hd Hload), Hmm. unfold p1, l.
    rewrite Hd, Hi. reflexivity. }
  rewrite Hdown.
  assert (l_graphData l = Some d) as Hl by exact Hd.
  assert (exists dq, graphData (component p1) = Some dq /\
                     node_id <$> nodes dq = node_id <$> nodes d) as H0
    by (exists d; split; [exact Hd|reflexivity]).
  destruct (drag_invariant l (node_id <$> nodes d) d es p1 Hl Hes Hload eq_refl H0)
    as (Q1 & Q2 & Q3 & Q4 & Q5 & dq & Q6 & Q7).
  set (q := fold_left step es p1) in *.
  cbn [component viewport p1] in Q3, Q4, Q5.
  pose proof (svg_mounted q dq Q6 Q1) as Qsvg. rewrite Q3 in Qsvg.
  exists dq. split; [exact Q6|]. split; [exact Q7|].
  set (dm := {| nodes := map (fun n => if String.eqb (node_id n) (node_id node)
                                       then moved n else n) (nodes dq);
                links := links dq |}).
  set (qm := step q (MouseMove ev)).
  assert (component qm = setGraphData (fun _ => Some dm) (component q)) as Hqm.
  { unfold qm. cbn [step with_component component]. rewrite Q2, Qsvg.
    cbn [fold_left]. unfold run_listener, setGraphData. rewrite Q6.
    unfold l. cbn [l_graphData l_zoom l_pan l_node]. rewrite Hd. reflexivity. }
  assert (graphData (component qm) = Some dm) as Hmove by (rewrite Hqm; reflexivity).
  assert (isLoading (component qm) = false) as Hloadm by (rewrite Hqm; exact Q1).
  split; [exact Hmove|]. split.
  - intros Hnd.
    assert (exists nq, nodes dq !! i = Some nq /\ node_id nq = node_id node)
      as (nq & Hnq & Hid).
    { assert ((node_id <$> nodes dq) !! i = Some (node_id node)) as H
        by (rewrite Q7, list_lookup_fmap, Hi; reflexivity).
      rewrite list_lookup_fmap in H. destruct (nodes dq !! i) as [nq|]; [|discriminate].
      exists nq. split; [reflexivity|]. cbn in H. congruence. }
    exists nq. split; [exact Hnq|]. unfold dm. cbn [nodes].
    apply (map_at_unique_id moved); [rewrite Q7; exact Hnd|exact Hnq|exact Hid].
  - apply released_graph; [exact Hafter|exact Hmove|exact Hloadm|reflexivity].
Qed.

(** The node [b] of [dragging_page], pressed at (420, 310) and moved with
    the pointer at (310, 220) in a viewport at (10, 20), is set to (300, 200)
    at rest; after the release a pointer move changes nothing, and the next
    frame moves [b] as it moves [a]. *)
Lemma C9_witness :
  (fun d => (fun n => (node_id n, node_x n, node_y n, node_vx n, node_vy n)) <$> nodes d)
    <$> graphData (component (step (step dragging_page (MouseDown 1))
                                (MouseMove {| clientX := 310; clientY := 220 |})))
  = Some [("a"%string, Some 150, Some 120, Some 0, Some 0);
          ("b"%string, Some 300, Some 200, Some 0, Some 0)] /\
  (fun d => (fun n => (node_id n, node_x n, node_y n, node_vx n, node_vy n)) <$> nodes d)
    <$> graphData (component (fold_left step
                                [MouseMove {| clientX := 0; clientY := 0 |}; AnimationFrame]
                                (step (step (step dragging_page (MouseDown 1))
                                         (MouseMove {| clientX := 310; clientY := 220 |}))
                                   MouseUp)))
  = Some [("a"%string, Some 156.89508446977408, Some 123.6773783838795,
           Some 6.8950844697740683, Some 3.6773783838795038);
          ("b"%string, Some 294.45491553022595, Some 197.0426216161205,
           Some (-5.5450844697740687), Some (-2.9573783838795031))].
Proof.
  destruct (C9_drag_sets_the_node_until_release dragging_page graph_a_b 1
              (node_at "b" 420 310) []
              [MouseMove {| clientX := 0; clientY := 0 |}; AnimationFrame]
              {| clientX := 310; clientY := 220 |})
    as (dq & H1 & _ & H2 & _ & H3).
  - reflexivity.
  - reflexivity.
  - reflexivity.
  - reflexivity.
  - constructor.
  - repeat constructor.
  - cbn [fold_left] in H1, H2. injection H1 as <-.
    split; [rewrite H2; reflexivity|].
    etransitivity; [exact (f_equal (fmap _) H3)|]. vm_compute. reflexivity.
Defined.

End Drag.

(** ** The selection bridge *)
Section Selection.
Import JS Viewer.

Lemma trimStart_spec (s : jsstring) :
  exists pre, s = pre ++ trimStart s /\ forallb is_white_space pre = true /\
              match trimStart s with
              | c :: _ => is_white_space c = false
              | [] => True
              end.
Proof.
  induction s as [|c s (pre & E & Hpre & Hhd)]; [exists []; repeat split|].
  cbn [trimStart]. destruct (is_white_space c) eqn:Hc.
  - exists (c :: pre). cbn [app forallb]. rewrite Hc, Hpre, <- E. repeat split. exact Hhd.
  - exists []. repeat split. exact Hc.
Qed.

Lemma trimEnd_spec (s : jsstring) :
  exists post, s = trimEnd s ++ post /\ forallb is_white_space post = true /\
               match rev (trimEnd s) with
               | c :: _ => is_white_space c = false
               | [] => True
               end.
Proof.
  unfold trimEnd. destruct (trimStart_spec (rev s)) as (pre & E & Hpre & Hhd).
  exists (rev pre). split; [|split].
  - rewrite <- rev_app_distr, <- E, rev_involutive. reflexivity.
  - rewrite forallb_forall in *. intros c Hc. apply Hpre. apply in_rev. exact Hc.
  - rewrite rev_involutive. exact Hhd.
Qed.

(** [trim] removes the white space at both ends, and nothing else. *)
Lemma trim_spec (s : jsstring) :
  exists pre post,
    s = pre ++ trim s ++ post /\
    forallb is_white_space pre = true /\ forallb is_white_space post = true /\
    match trim s with
    | c :: _ => is_white_space c = false
    | [] => True
    end /\
    match rev (trim s) with
    | c :: _ => is_white_space c = false
    | [] => True
    end.
Proof.
  unfold trim. destruct (trimStart_spec s) as (pre & E & Hpre & Hhd).
  destruct (trimEnd_spec (trimStart s)) as (post & E' & Hpost & Hlast).
  exists pre, post. split; [rewrite <- E', <- E; reflexivity|].
  split; [exact Hpre|]. split; [exact Hpost|]. split; [|exact Hlast].
  destruct (trimEnd (trimStart s)) as [|c t]; [exact I|].
  rewrite E' in Hhd. exact Hhd.
Qed.

Lemma trimStart_white (pre s : jsstring) :
  forallb is_white_space pre = true -> trimStart (pre ++ s) = trimStart s.
Proof.
  induction pre as [|c pre IH]; [reflexivity|]. cbn [forallb app trimStart].
  intros H. apply andb_prop in H as [Hc Hpre]. rewrite Hc. apply IH. exact Hpre.
Qed.

Lemma trimStart_head (t : jsstring) (first : code_unit) :
  head t = Some first -> is_white_space first = false -> trimStart t = t.
Proof.
  destruct t as [|c t]; [discriminate|]. cbn [head trimStart].
  intros E Hc. injection E as ->. rewrite Hc. reflexivity.
Qed.

Lemma forallb_rev (f : code_unit -> bool) (s : jsstring) :
  forallb f s = true -> forallb f (rev s) = true.
Proof.
  rewrite !forallb_forall. intros H c Hc. apply H. apply in_rev. exact Hc.
Qed.

Lemma head_rev_last (t : jsstring) : head (rev t) = last t.
Proof.
  induction t as [|c t _] using rev_ind; [reflexivity|].
  rewrite rev_app_distr, last_snoc. reflexivity.
Qed.

(** What [trim] gives on a text between two runs of white space. *)
Lemma trim_between (pre t post : jsstring) (first final : code_unit) :
  forallb is_white_space pre = true -> forallb is_white_space post = true ->
  head t = Some first -> is_white_space first = false ->
  last t = Some final -> is_white_space final = false ->
  trim (pre ++ t ++ post) = t.
Proof.
  intros Hpre Hpost Hfirst Hf Hfinal Hl. unfold trim.
  rewrite (trimStart_white pre _ Hpre).
  assert (trimStart (t ++ post) = t ++ post) as ->.
  { apply (trimStart_head _ first); [|exact Hf].
    destruct t as [|c t]; [discriminate|exact Hfirst]. }
  unfold trimEnd. rewrite rev_app_distr, (trimStart_white (rev post) _ (forallb_rev _ _ Hpost)).
  rewrite (trimStart_head (rev t) final); [apply rev_involutive| |exact Hl].
  rewrite head_rev_last. exact Hfinal.
Qed.

Lemma trim_white (raw : jsstring) : forallb is_white_space raw = true -> trim raw = [].
Proof.
  intros H. unfold trim. rewrite <- (app_nil_r raw), (trimStart_white raw [] H). reflexivity.
Qed.

(** What [trim] leaves: the text between two runs of white space, which
    begins and ends with a code unit that is no white space when it is not
    empty. *)
Lemma trim_ends (s : jsstring) :
  exists pre post,
    s = pre ++ trim s ++ post /\
    forallb is_white_space pre = true /\ forallb is_white_space post = true /\
    (trim s <> [] ->
     exists first final,
       head (trim s) = Some first /\ is_white_space first = false /\
       last (trim s) = Some final /\ is_white_space final = false).
Proof.
  unfold trim. destruct (trimStart_spec s) as (pre & E & Hpre & Hhd).
  destruct (trimEnd_spec (trimStart s)) as (post & E' & Hpost & Hlast).
  exists pre, post. split; [rewrite <- E', <- E; reflexivity|].
  split; [exact Hpre|]. split; [exact Hpost|]. intros Hne.
  rewrite <- head_rev_last.
  destruct (trimEnd (trimStart s)) as [|c t] eqn:Et; [destruct (Hne eq_refl)|].
  rewrite E' in Hhd. cbn [app] in Hhd.
  destruct (rev (c :: t)) as [|c' t'] eqn:Er.
  - apply (f_equal (@length _)) in Er. rewrite length_rev in Er. discriminate Er.
  - exists c, c'. repeat split; assumption.
Qed.

(** The call the listener makes on a text between two runs of white
    space. *)
Lemma listener_calls_between (documentName : string) (event : ViewerEvent)
    (pre t post : jsstring) (first final : code_unit) :
  event_type event = "SELECTION_END"%string ->
  selection_text event = Some (pre ++ t ++ post) ->
  forallb is_white_space pre = true -> forallb is_white_space post = true ->
  head t = Some first -> is_white_space first = false ->
  last t = Some final -> is_white_space final = false ->
  event_listener documentName event = Some (t, documentName).
Proof.
  intros Ht Hs Hpre Hpost Hfirst Hf Hfinal Hl.
  unfold event_listener. rewrite Ht, Hs. cbn [String.eqb Ascii.eqb Bool.eqb].
  rewrite (trim_between pre t post first final Hpre Hpost Hfirst Hf Hfinal Hl).
  destruct t as [|c t]; [discriminate Hfirst|].
  destruct (pre ++ (c :: t) ++ post) as [|c' raw] eqn:E; [|reflexivity].
  destruct pre; discriminate E.
Qed.

(** Every call of the listener, and every event it ignores. *)
Lemma listener_result (documentName : string) (event : ViewerEvent) :
  match event_listener documentName event with
  | Some (selectedText, name) =>
      name = documentName /\ event_type event = "SELECTION_END"%string /\
      exists pre post first final,
        selection_text event = Some (pre ++ selectedText ++ post) /\
        forallb is_white_space pre = true /\ forallb is_white_space post = true /\
        head selectedText = Some first /\ is_white_space first = false /\
        last selectedText = Some final /\ is_white_space final = false
  | None =>
      event_type event <> "SELECTION_END"%string \/ selection_text event = None \/
      exists raw, selection_text event = Some raw /\ forallb is_white_space raw = true
  end.
Proof.
  unfold event_listener.
  destruct (String.eqb_spec (event_type event) "SELECTION_END") as [Ht|Ht];
    [|left; exact Ht].
  destruct (selection_text event) as [raw|]; [|right; left; reflexivity].
  destruct (trim_ends raw) as (pre & post & E & Hpre & Hpost & Hends).
  destruct raw as [|c raw]; [right; right; exists []; split; reflexivity|].
  destruct (trim (c :: raw)) as [|c' t] eqn:Etrim.
  - right. right. exists (c :: raw). split; [reflexivity|].
    rewrite E. cbn [app]. rewrite forallb_app, Hpre, Hpost. reflexivity.
  - split; [reflexivity|]. split; [exact Ht|].
    destruct Hends as (first & final & H1 & H2 & H3 & H4); [discriminate|].
    exists pre, post, first, final. rewrite <- E. repeat split; assumption.
Qed.

(** What the listener ignores. *)
Lemma listener_ignores (documentName : string) (event : ViewerEvent) :
  event_type event <> "SELECTION_END"%string \/ selection_text event = None \/
  (exists raw, selection_text event = Some raw /\ forallb is_white_space raw = true) ->
  event_listener documentName event = None.
Proof.
  unfold event_listener. intros [Ht|[Hs|(raw & Hs & Hw)]].
  - destruct (String.eqb_spec (event_type event) "SELECTION_END") as [E|_];
      [destruct (Ht E)|reflexivity].
  - rewrite Hs. destruct (String.eqb (event_type event) "SELECTION_END"); reflexivity.
  - rewrite Hs, (trim_white raw Hw).
    destruct (String.eqb (event_type event) "SELECTION_END"); [|reflexivity].
    destruct raw; reflexivity.
Qed.

(** C7: the listener calls [onTextSelection] exactly on a [SELECTION_END]
    event whose text is not white space only, and then with the document
    name and the text without the white space around it: when the text is
    [pre ++ t ++ post], where [pre] and [post] are white space and [t] begins
    and ends with a code unit that is none, the call is [(t, documentName)].
    An event of another type, an event without a text, and an event whose
    text is empty or white space only are ignored ([event_listener] is a total
    function: it raises nothing).  Every call and every ignored event is of
    these forms.  The white space is that of ECMAScript: the event whose text
    is a tab, a line feed, a no-break space, a byte order mark, [h], a space,
    [i] and a paragraph separator gives [h], space, [i]. *)
Theorem C7_selection_callback (documentName : string) (event : ViewerEvent) :
  (forall pre t post first final,
     event_type event = "SELECTION_END"%string ->
     selection_text event = Some (pre ++ t ++ post) ->
     forallb is_white_space pre = true -> forallb is_white_space post = true ->
     head t = Some first -> is_white_space first = false ->
     last t = Some final -> is_white_space final = false ->
     event_listener documentName event = Some (t, documentName)) /\
  (event_type event <> "SELECTION_END"%string -> event_listener documentName event = None) /\
  (selection_text event = None -> event_listener documentName event = None) /\
  (forall raw, selection_text event = Some raw -> forallb is_white_space raw = true ->
               event_listener documentName event = None) /\
  match event_listener documentName event with
  | Some (selectedText, name) =>
      name = documentName /\ event_type event = "SELECTION_END"%string /\
      exists pre post first final,
        selection_text event = Some (pre ++ selectedText ++ post) /\
        forallb is_white_space pre = true /\ forallb is_white_space post = true /\
        head selectedText = Some first /\ is_white_space first = false /\
        last selectedText = Some final /\ is_white_space final = false
  | None =>
      event_type event <> "SELECTION_END"%string \/ selection_text event = None \/
      exists raw, selection_text event = Some raw /\ forallb is_white_space raw = true
  end /\
  event_listener documentName
    {| event_type := "SELECTION_END";
       selection_text := Some [9; 10; 160; 65279; 104; 32; 105; 8233]%N |}
  = Some ([104; 32; 105]%N, documentName).
Proof.
  split; [|split; [|split; [|split; [|split; [|reflexivity]]]]].
  - apply listener_calls_between.
  - intros Ht. apply listener_ignores. left. exact Ht.
  - intros Hs. apply listener_ignores. right. left. exact Hs.
  - intros raw Hs Hw. apply listener_ignores. right. right. exists raw. split; assumption.
  - apply listener_result.
Qed.

End Selection.

(** ** The upload session *)
Section UploadSession.
Import JS Upload Support.
Local Open Scope string_scope.

(** C4, as stated, fails: when [fetch] rejects with the network error
    "Failed to fetch", the session switches to the demo mode and every file
    of the batch becomes [success]; no failure reason is surfaced. *)
Lemma C4_counterexample :
  let st := handleFiles 0 (Rejected "Failed to fetch") [report_pdf] initial in
  files st = [{| name := "report.pdf"; size := 1024; status := Success |}] /\
  error st = None /\
  completed st = [("demo_cluster_0", ["report.pdf"])].
Proof. vm_compute. repeat split; reflexivity. Qed.

(** C4, amended: when the upload fails with a message that contains none
    of "API_NOT_AVAILABLE", "Failed to fetch" and "NetworkError" (the
    rejection of [fetch], "Upload failed: " and the status text of a
    non-success response, the message of a body that is no JSON), every file
    of the list becomes [error], the message becomes the error state and the
    description of a destructive toast "Upload failed", and the parent is not
    notified. *)
Theorem C4_failed_upload_marks_every_file (now : N) (batch : list File)
    (res : FetchResult) (st : State) (message : string) :
  read_response res = inl message ->
  api_unavailable message = false ->
  uploadFiles now batch res st
  = {| files := map (set_status Error) (files st);
       isUploading := false;
       uploadProgress := 100;
       error := Some message;
       toasts := toasts st ++ [{| title := "Upload failed"; description := message;
                                  variant := Some "destructive" |}];
       requests := requests st ++ [batch];
       completed := completed st |} /\
  Forall (fun file => status file = Error) (files (uploadFiles now batch res st)).
Proof.
  intros Hres Hmsg.
  assert (uploadFiles now batch res st
          = {| files := map (set_status Error) (files st);
               isUploading := false;
               uploadProgress := 100;
               error := Some message;
               toasts := toasts st ++ [{| title := "Upload failed"; description := message;
                                          variant := Some "destructive" |}];
               requests := requests st ++ [batch];
               completed := completed st |}) as E.
  { unfold uploadFiles, uploadFiles_settle. rewrite Hres, Hmsg. reflexivity. }
  split; [exact E|]. rewrite E. cbn [files].
  apply Forall_map. apply Forall_forall. intros file _. reflexivity.
Qed.

Lemma C4_witness :
  read_response server_error = inl "Upload failed: Internal Server Error" /\
  api_unavailable "Upload failed: Internal Server Error" = false /\
  Forall (fun file => status file = Error)
    (files (uploadFiles 0 [report_pdf] server_error uploading_report)).
Proof.
  split; [reflexivity|]. split; [reflexivity|].
  exact (proj2 (C4_failed_upload_marks_every_file 0 [report_pdf] server_error
                  uploading_report "Upload failed: Internal Server Error" eq_refl eq_refl)).
Defined.

(** The failures the code answers with the demo mode: every file becomes
    [success] and the parent receives a demo cluster. *)
Lemma demo_mode_marks_every_file_success (now : N) (batch : list File)
    (res : FetchResult) (st : State) (message : string) :
  read_response res = inl message ->
  api_unavailable message = true ->
  files (uploadFiles now batch res st) = map (set_status Success) (files st) /\
  error (uploadFiles now batch res st) = error st /\
  completed (uploadFiles now batch res st)
  = (completed st ++ [("demo_cluster_" +:+ pretty now, map file_name batch)])%list.
Proof.
  intros Hres Hmsg. unfold uploadFiles, uploadFiles_settle. rewrite Hres, Hmsg.
  repeat split.
Qed.

Lemma demo_mode_witness :
  api_unavailable "Failed to fetch" = true /\
  status <$> files (uploadFiles 0 [report_pdf] (Rejected "Failed to fetch") uploading_report)
  = [Success].
Proof.
  split; [reflexivity|].
  rewrite (proj1 (demo_mode_marks_every_file_success 0 [report_pdf] (Rejected "Failed to fetch")
                    uploading_report "Failed to fetch" eq_refl eq_refl)).
  reflexivity.
Defined.

(** C5: when no file of the batch has the media type application/pdf, the
    submission is rejected by the destructive toast "No valid files" (after
    the toast "Invalid files detected" when the batch is not empty); no
    request is sent, the list of files and every other part of the state are
    what they were, and the parent is not notified. *)
Theorem C5_no_valid_files (now : N) (res : FetchResult) (selectedFiles : list File)
    (st : State) :
  List.filter is_pdf selectedFiles = [] ->
  handleFiles now res selectedFiles st
  = {| files := files st;
       isUploading := isUploading st;
       uploadProgress := uploadProgress st;
       error := error st;
       toasts := toasts st
                 ++ match selectedFiles with
                    | [] => []
                    | _ :: _ =>
                        [{| title := "Invalid files detected";
                            description := "Only PDF files are supported. Non-PDF files have been filtered out.";
                            variant := Some "destructive" |}]
                    end
                 ++ [{| title := "No valid files";
                        description := "Please select PDF files to upload.";
                        variant := Some "destructive" |}];
       requests := requests st;
       completed := completed st |}.
Proof.
  intros H. unfold handleFiles. rewrite H. cbn [length Nat.eqb].
  destruct st as [fs up pr er ts rq cp].
  destruct selectedFiles as [|file rest]; cbn [length Nat.eqb negb]; unfold toast;
    cbn [toasts files isUploading uploadProgress error requests completed app];
    [reflexivity|].
  rewrite <- app_assoc. reflexivity.
Qed.

Lemma C5_witness :
  List.filter is_pdf [notes_txt] = [] /\
  requests (handleFiles 0 (Rejected "Failed to fetch") [notes_txt] initial) = [] /\
  files (handleFiles 0 (Rejected "Failed to fetch") [notes_txt] initial) = [].
Proof.
  split; [reflexivity|].
  rewrite (C5_no_valid_files 0 (Rejected "Failed to fetch") [notes_txt] initial eq_refl).
  split; reflexivity.
Defined.

End UploadSession.

(** ** Further properties of the code *)
Section Further.
Import JS Graph Support.
Local Open Scope float_scope.

(** A tick keeps the nodes, in order and with their ids, and the links. *)
Theorem tick_keeps_nodes_and_links (d : GraphData) :
  node_id <$> nodes (tick d) = node_id <$> nodes d /\
  length (nodes (tick d)) = length (nodes d) /\
  links (tick d) = links d.
Proof.
  split; [apply tick_ids|]. split; [|reflexivity].
  rewrite <- (length_fmap node_id (nodes (tick d))), tick_ids. apply length_fmap.
Qed.

(** From any graph whatever, the positions are within the canvas bounds
    after two ticks or more: the first tick leaves every coordinate within
    bounds or NaN, and the next one reads NaN as 0. *)
Theorem in_bounds_from_the_second_tick (d : GraphData) (k : nat) :
  Forall (fun n => in_bounds n = true) (nodes (ticks (S (S k)) d)).
Proof.
  change (ticks (S (S k)) d) with (ticks (S k) (tick d)).
  assert (Forall (fun n => finite_position n = true) (nodes (tick d))) as H.
  { rewrite tick_nodes. apply Forall_map, Forall_forall. intros n _.
    apply spec_integrate_finite. }
  revert H. generalize (tick d) as d'. clear d. induction k as [|k IH]; intros d' H.
  - apply tick_in_bounds. exact H.
  - change (ticks (S (S k)) d') with (ticks (S k) (tick d')). apply IH.
    eapply Forall_impl; [apply tick_in_bounds; exact H|].
    intros n Hn. apply in_bounds_finite. exact Hn.
Qed.

(** A node at x = +Infinity moving at vx = -Infinity is at x = NaN after one
    tick: the bounds after a single tick need finite coordinates. *)
Theorem infinite_start_leaves_the_bounds :
  in_bounds <$> nodes (tick {| nodes := [set_vx (node_at "a" infinity 200) neg_infinity];
                               links := [] |})
  = [false].
Proof. vm_compute. reflexivity. Qed.

End Further.

Section FurtherUpload.
Import JS Upload Support.
Local Open Scope string_scope.



(** A batch with at least one PDF file uploads the PDF files, and only
    them, in one request, and lists them as uploading before the answer. *)
Theorem mixed_batch_uploads_the_pdf_files (now : N) (res : FetchResult)
    (selectedFiles : list File) (st : State) :
  List.filter is_pdf selectedFiles <> [] ->
  requests (handleFiles now res selectedFiles st)
  = (requests st ++ [List.filter is_pdf selectedFiles])%list /\
  name <$> files (handleFiles now res selectedFiles st)
  = file_name <$> List.filter is_pdf selectedFiles.
Proof.
  intros H. unfold handleFiles.
  destruct (List.filter is_pdf selectedFiles) as [|file pdfs] eqn:E; [destruct (H eq_refl)|].
  change (Nat.eqb (length (file :: pdfs)) 0) with false. cbv iota.
  destruct (negb (Nat.eqb (length (file :: pdfs)) (length selectedFiles)));
    unfold uploadFiles, uploadFiles_settle;
    (destruct (read_response res) as [message|result]; [destruct (api_unavailable message)|]);
    cbn; (split; [reflexivity|]); rewrite <- !list_fmap_compose; reflexivity.
Qed.

Lemma mixed_batch_witness :
  List.filter is_pdf [notes_txt; report_pdf] <> [] /\
  requests (handleFiles 0 server_error [notes_txt; report_pdf] initial) = [[report_pdf]].
Proof.
  assert (List.filter is_pdf [notes_txt; report_pdf] <> []) as H by discriminate.
  split; [exact H|].
  exact (proj1 (mixed_batch_uploads_the_pdf_files 0 server_error [notes_txt; report_pdf]
                  initial H)).
Defined.

End FurtherUpload.

(** ** The graph: colours, ids, labels, selection, zoom steps *)
Section GraphView.
Import JS Graph Support.
Local Open Scope string_scope.

Lemma colors_distinct (i j : nat) :
  (i < 8)%nat -> (j < 8)%nat -> nth i colors "" = nth j colors "" -> i = j.
Proof.
  intros Hi Hj.
  do 8 (destruct i as [|i]; [do 8 (destruct j as [|j]; [cbn; congruence|]); lia|]).
  lia.
Qed.

(** [getNodeColor] always answers with a colour of the palette, never with
    [undefined], and two indices get the same colour exactly when they are
    congruent modulo 8. *)
Theorem node_colors_cycle (i j : nat) :
  In (getNodeColor i) colors /\
  (getNodeColor i = getNodeColor j <-> i mod 8 = j mod 8).
Proof.
  unfold getNodeColor. change (length colors) with 8%nat.
  assert (forall n, n mod 8 < 8)%nat as Hlt by (intros n; apply Nat.mod_upper_bound; lia).
  split.
  - apply nth_In. apply Hlt.
  - split.
    + apply colors_distinct; apply Hlt.
    + intros ->. reflexivity.
Qed.

Lemma default_id_inj (a b : nat) : "node-" +:+ pretty a = "node-" +:+ pretty b -> a = b.
Proof.
  cbn [String.append]. intros H. injection H as H. exact (pretty_nat_inj a b H).
Qed.

Lemma normalize_nodes_default_ids (rnd : nat -> number) (raw : list RawNode) :
  Forall (fun node => str_or (raw_id node) "" = "") raw ->
  forall k index,
    node_id <$> normalize_nodes rnd k index raw
    = (fun i => "node-" +:+ pretty i) <$> seq index (length raw).
Proof.
  induction 1 as [|node raw Hnode _ IH]; intros k index; [reflexivity|].
  cbn [normalize_nodes length seq fmap list_fmap].
  destruct (match raw_size node with
            | Some v => if truthy v then (v, k) else ((rnd k * 20 + 10)%float, S k)
            | None => ((rnd k * 20 + 10)%float, S k)
            end) as [size k'].
  cbn [fmap list_fmap node_id]. f_equal.
  - unfold str_or in *. destruct (raw_id node) as [s|]; [|reflexivity].
    destruct (str_truthy s) eqn:E; [|reflexivity].
    subst s. discriminate E.
  - apply IH.
Qed.

(** When no node of the payload brings an id (the property is absent, or
    empty), the ids the fetch gives are ["node-0"], ["node-1"], ... by
    position, and no two nodes share one. *)
Theorem default_ids_are_distinct (rnd : nat -> number) (raw : list RawNode) :
  Forall (fun node => str_or (raw_id node) "" = "") raw ->
  node_id <$> normalize_nodes rnd 0 0 raw
  = (fun i => "node-" +:+ pretty i) <$> seq 0 (length raw) /\
  NoDup (node_id <$> normalize_nodes rnd 0 0 raw).
Proof.
  intros H. rewrite (normalize_nodes_default_ids rnd raw H 0 0). split; [reflexivity|].
  apply NoDup_fmap_2; [|apply NoDup_seq].
  intros a b. apply default_id_inj.
Qed.

Lemma default_ids_witness :
  node_id <$> normalize_nodes (fun _ => 0.5%float) 0 0
                [{| raw_id := None; raw_label := None; raw_name := None; raw_size := None;
                    raw_color := None |};
                 {| raw_id := Some ""; raw_label := None; raw_name := None; raw_size := None;
                    raw_color := None |}]
  = ["node-0"; "node-1"].
Proof.
  refine (proj1 (default_ids_are_distinct (fun _ => 0.5%float) _ _)).
  repeat constructor.
Defined.

(** The text under a node, in UTF-16 code units as [length] and [slice]
    count them: it is the label when the label has at most 12 code units, and
    otherwise the first 12 code units of the label followed by three full
    stops (code unit 46); it never has more than 15 code units. *)
Theorem label_text_is_short (selected : option SelectedNode) (node : GraphNode) :
  let shown := text (snd (render_node selected node)) in
  (length shown <= 15)%nat /\
  ((length (node_label node) <= 12)%nat -> shown = node_label node) /\
  ((12 < length (node_label node))%nat ->
   shown = (take 12 (node_label node) ++ [46; 46; 46]%N)%list /\ length shown = 15%nat).
Proof.
  cbv zeta. unfold render_node. cbn [snd text].
  destruct (12 <? length (node_label node))%nat eqn:E.
  - apply Nat.ltb_lt in E.
    assert (length (take 12 (node_label node) ++ lit "...")%list = 15%nat) as L.
    { rewrite length_app, length_take. cbn [length lit list_ascii_of_string map]. lia. }
    split; [lia|]. split; [lia|]. intros _. split; [reflexivity|exact L].
  - apply Nat.ltb_ge in E. split; [lia|]. split; [reflexivity|lia].
Qed.

Lemma fold_run_listener (rect : option DOMRect) (event : MouseEvent) (ls : list Listener)
    (st : State) (d : GraphData) :
  graphData st = Some d ->
  exists d', graphData (fold_left (run_listener rect event) ls st) = Some d' /\
             node_id <$> nodes d' = node_id <$> nodes d /\
             isLoading (fold_left (run_listener rect event) ls st) = isLoading st.
Proof.
  revert st d. induction ls as [|l ls IH]; intros st d Hd.
  - exists d. split; [exact Hd|]. repeat split.
  - cbn [fold_left].
    assert (exists d1, graphData (run_listener rect event st l) = Some d1 /\
                       node_id <$> nodes d1 = node_id <$> nodes d) as (d1 & Hd1 & Hid1).
    { unfold run_listener, setGraphData, handleNodeDrag. cbn [graphData]. rewrite Hd.
      destruct (l_graphData l); [destruct rect|]; eauto.
      eexists. split; [reflexivity|]. cbn [nodes]. apply drag_ids. }
    destruct (IH _ _ Hd1) as (d' & Hd' & Hid' & Hl).
    exists d'. split; [exact Hd'|]. split; [congruence|]. exact Hl.
Qed.

Lemma fold_run_listener_selected (rect : option DOMRect) (event : MouseEvent)
    (ls : list Listener) (st : State) :
  selectedNode (fold_left (run_listener rect event) ls st) = selectedNode st.
Proof.
  revert st. induction ls as [|l ls IH]; intros st; [reflexivity|].
  cbn [fold_left]. rewrite IH. reflexivity.
Qed.

(** No event takes the graph away, changes the ids of its nodes or starts a
    load. *)
Lemma step_keeps_ids (p : Page) (e : Event) (d : GraphData) :
  graphData (component p) = Some d ->
  exists d', graphData (component (step p e)) = Some d' /\
             node_id <$> nodes d' = node_id <$> nodes d /\
             isLoading (component (step p e)) = isLoading (component p).
Proof.
  intros Hd. destruct e as [index|event| | |index].
  - exists d. cbn [step]. rewrite Hd.
    destruct (svg p); [destruct (nodes d !! index)|]; cbn [component]; auto.
  - cbn [step with_component component]. apply fold_run_listener. exact Hd.
  - exists d. cbn [step component]. auto.
  - cbn [step]. rewrite Hd. destruct (svg p).
    + exists (tick d). cbn [with_component component setGraphData graphData isLoading].
      rewrite Hd. cbn [simulate].
      split; [reflexivity|]. split; [apply tick_ids|reflexivity].
    + exists d. auto.
  - exists d. cbn [step]. rewrite Hd.
    destruct (svg p); [destruct (nodes d !! index)|]; cbn [component with_component]; auto.
Qed.

Lemma steps_keep_ids (events : list Event) (p : Page) (d : GraphData) :
  graphData (component p) = Some d ->
  exists d', graphData (component (fold_left step events p)) = Some d' /\
             node_id <$> nodes d' = node_id <$> nodes d /\
             isLoading (component (fold_left step events p)) = isLoading (component p).
Proof.
  revert p d. induction events as [|e events IH]; intros p d Hd.
  - exists d. auto.
  - cbn [fold_left]. destruct (step_keeps_ids p e d Hd) as (d1 & Hd1 & Hid1 & Hl1).
    destruct (IH _ _ Hd1) as (d' & Hd' & Hid' & Hl).
    exists d'. split; [exact Hd'|]. split; congruence.
Qed.

(** Only a click writes [selectedNode]. *)
Lemma steps_keep_selection (events : list Event) (p : Page) :
  Forall no_click events ->
  selectedNode (component (fold_left step events p)) = selectedNode (component p).
Proof.
  intros H. revert p. induction H as [|e events He _ IH]; intros p; [reflexivity|].
  cbn [fold_left]. rewrite IH.
  destruct e as [index|event| | |index]; cbn [no_click] in He; try contradiction.
  - cbn [step]. destruct (graphData (component p)) as [d|]; [|reflexivity].
    destruct (svg p); [destruct (nodes d !! index)|]; reflexivity.
  - cbn [step with_component component]. apply fold_run_listener_selected.
  - reflexivity.
  - cbn [step]. destruct (graphData (component p)); [destruct (svg p)|]; reflexivity.
Qed.

Lemma strokes_of_ids (selected : SelectedNode) (ns ms : list GraphNode) :
  node_id <$> ns = node_id <$> ms ->
  (fun c : Circle * Text => stroke (fst c)) <$> map (render_node (Some selected)) ns
  = (fun n => if String.eqb (selected_id selected) (node_id n) then "#000" else "#fff") <$> ms.
Proof.
  revert ms. induction ns as [|n ns IH]; intros [|m ms] H; try discriminate H; [reflexivity|].
  cbn [fmap list_fmap map] in *. injection H as Hn H. f_equal.
  - unfold render_node. cbn [fst stroke]. rewrite Hn. reflexivity.
  - apply IH. exact H.
Qed.

(** The selection is the node of the last click.  Whatever events came
    before, clicks on other nodes included, after a click on the circle at
    index [i] of a rendered graph, and for as long as no other click follows
    (presses, pointer moves, releases and animation frames may), the circles
    drawn with the black stroke of the selection are the circles of the nodes
    that carry the id of the node at [i]: ticks and drags move the nodes, the
    selection stays with the id.  With distinct ids it is one circle, the one
    at [i]. *)
Theorem selection_follows_the_node (p : Page) (before after : list Event) (i : nat)
    (d : GraphData) (m : GraphNode) :
  graphData (component p) = Some d -> isLoading (component p) = false ->
  nodes d !! i = Some m ->
  Forall no_click after ->
  exists lines circles,
    render (component (fold_left step (before ++ Click i :: after) p))
    = Some (lines, circles) /\
    (fun c : Circle * Text => stroke (fst c)) <$> circles
    = (fun n => if String.eqb (node_id m) (node_id n) then "#000" else "#fff") <$> nodes d /\
    (NoDup (node_id <$> nodes d) ->
     (fun c : Circle * Text => stroke (fst c)) <$> circles
     = <[i := "#000"]> (replicate (length (nodes d)) "#fff")).
Proof.
  intros Hd Hl Hi Hafter.
  rewrite fold_left_app. cbn [fold_left].
  destruct (steps_keep_ids before p d Hd) as (d1 & Hd1 & Hid1 & Hl1).
  set (p1 := fold_left step before p) in *.
  assert (exists m1, nodes d1 !! i = Some m1 /\ node_id m1 = node_id m) as (m1 & Hm1 & Hidm).
  { assert ((node_id <$> nodes d1) !! i = Some (node_id m)) as H
      by (rewrite Hid1, list_lookup_fmap, Hi; reflexivity).
    rewrite list_lookup_fmap in H. destruct (nodes d1 !! i) as [m1|]; [|discriminate].
    exists m1. split; [reflexivity|]. cbn in H. congruence. }
  assert (step p1 (Click i) = with_component (handleNodeClick m1) p1) as Hclick.
  { cbn [step]. unfold svg. rewrite Hd1, Hl1, Hl, Hm1. reflexivity. }
  rewrite Hclick.
  destruct (steps_keep_ids after (with_component (handleNodeClick m1) p1) d1 Hd1)
    as (d2 & Hd2 & Hid2 & Hl2).
  pose proof (steps_keep_selection after (with_component (handleNodeClick m1) p1) Hafter)
    as Hs2.
  cbn [with_component component handleNodeClick setSelectedNode isLoading selectedNode]
    in Hl2, Hs2.
  unfold render. rewrite Hd2, Hl2, Hl1, Hl, Hs2.
  eexists. eexists. split; [reflexivity|].
  assert ((fun c : Circle * Text => stroke (fst c))
            <$> map (render_node (Some (selected_of m1))) (nodes d2)
          = (fun n => if String.eqb (node_id m) (node_id n) then "#000" else "#fff")
              <$> nodes d) as E.
  { rewrite (strokes_of_ids (selected_of m1) (nodes d2) (nodes d)) by congruence.
    cbn [selected_of selected_id]. rewrite Hidm. reflexivity. }
  split; [exact E|].
  intros Hnd. rewrite E. apply list_eq. intros j.
  rewrite list_lookup_fmap.
  destruct (decide (i = j)) as [<-|Hij].
  - rewrite list_lookup_insert_eq by (rewrite length_replicate; eapply lookup_lt_Some; exact Hi).
    rewrite Hi. cbn [fmap option_fmap option_map]. rewrite String.eqb_refl. reflexivity.
  - rewrite list_lookup_insert_ne by exact Hij.
    destruct (nodes d !! j) as [n|] eqn:Hj; cbn [fmap option_fmap option_map].
    + rewrite lookup_replicate_2 by (eapply lookup_lt_Some; exact Hj).
      destruct (String.eqb (node_id m) (node_id n)) eqn:Em; [|reflexivity].
      apply String.eqb_eq in Em. exfalso. apply Hij.
      apply (NoDup_lookup (node_id <$> nodes d) i j (node_id m) Hnd).
      * rewrite list_lookup_fmap, Hi. reflexivity.
      * rewrite list_lookup_fmap, Hj. cbn. congruence.
    + symmetry. apply lookup_replicate_None. apply lookup_ge_None in Hj. lia.
Qed.

Lemma selection_witness :
  exists lines circles,
    render (component (fold_left step
                         ([AnimationFrame; MouseDown 0; MouseUp; Click 0; MouseDown 1; MouseUp]
                          ++ Click 1
                          :: [AnimationFrame; MouseDown 0;
                              MouseMove {| clientX := 110%float; clientY := 220%float |};
                              AnimationFrame])
                         dragging_page))
    = Some (lines, circles) /\
    (fun c : Circle * Text => stroke (fst c)) <$> circles = ["#fff"; "#000"].
Proof.
  destruct (selection_follows_the_node dragging_page
              [AnimationFrame; MouseDown 0; MouseUp; Click 0; MouseDown 1; MouseUp]
              [AnimationFrame; MouseDown 0;
               MouseMove {| clientX := 110%float; clientY := 220%float |}; AnimationFrame]
              1 graph_a_b (node_at "b" 420%float 310%float) eq_refl eq_refl eq_refl)
    as (lines & circles & Hr & Hs & _).
  - repeat constructor.
  - exists lines, circles. split; [exact Hr|exact Hs].
Defined.

End GraphView.

Section ZoomSteps.
Import JS Graph Support.
Local Open Scope float_scope.

Lemma zoom_steps_at_level (z : number) :
  In z zoom_levels ->
  (z <> 3 -> (z <? zoomIn_value z) = true) /\
  (z = 3 -> zoomIn_value z = 3) /\
  (z <> 0.5 -> (zoomOut_value z <? z) = true) /\
  (z = 0.5 -> zoomOut_value z = 0.5).
Proof.
  assert (zoom_steps zoom_levels = true) as H by (vm_compute; reflexivity).
  unfold zoom_steps in H. rewrite forallb_forall in H.
  intros Hz. specialize (H z Hz). apply andb_prop in H as [Hin Hout].
  split; [|split; [|split]].
  - intros Hne. destruct (Leibniz.eqb z 3) eqn:E; [|exact Hin].
    apply FloatAxioms.Leibniz.eqb_spec in E. contradiction.
  - intros ->. reflexivity.
  - intros Hne. destruct (Leibniz.eqb z 0.5) eqn:E; [|exact Hout].
    apply FloatAxioms.Leibniz.eqb_spec in E. contradiction.
  - intros ->. reflexivity.
Qed.

(** After any clicks on the two zoom buttons, one more click on zoom-in
    raises the factor, unless it is 3 already and stays 3; one more click on
    zoom-out lowers it, unless it is 0.5 already and stays 0.5. *)
Theorem zoom_clicks_move_the_factor (cs : list ZoomClick) :
  (zoom_after cs <> 3 -> (zoom_after cs <? zoom_after (cs ++ [ClickZoomIn])) = true) /\
  (zoom_after cs = 3 -> zoom_after (cs ++ [ClickZoomIn]) = 3) /\
  (zoom_after cs <> 0.5 -> (zoom_after (cs ++ [ClickZoomOut]) <? zoom_after cs) = true) /\
  (zoom_after cs = 0.5 -> zoom_after (cs ++ [ClickZoomOut]) = 0.5).
Proof.
  unfold zoom_after. rewrite !fold_left_app. cbn [fold_left click zoomIn zoomOut setZoom zoom].
  apply zoom_steps_at_level. apply zoom_clicks_level. apply mem_In. vm_compute. reflexivity.
Qed.

End ZoomSteps.

(** ** The upload session over sequences of operations *)
Section UploadOperations.
Import JS Upload Support.
Local Open Scope string_scope.

Lemma filter_index_delete {A} (index : nat) (l : list A) (k : nat) :
  map snd (List.filter (fun p : nat * A => negb (Nat.eqb (fst p) index))
             (combine (seq k (length l)) l))
  = if (index <? k)%nat then l else delete (index - k)%nat l.
Proof.
  revert k. induction l as [|x l IH]; intros k.
  - cbn [length seq combine List.filter map].
    destruct (index <? k)%nat; [reflexivity|]. destruct (index - k)%nat; reflexivity.
  - cbn [length seq combine List.filter fst].
    destruct (Nat.eqb k index) eqn:E; cbn [negb map snd]; rewrite (IH (S k)).
    + apply Nat.eqb_eq in E. subst k.
      assert ((index <? S index)%nat = true) as -> by (apply Nat.ltb_lt; lia).
      assert ((index <? index)%nat = false) as -> by (apply Nat.ltb_ge; lia).
      rewrite Nat.sub_diag. reflexivity.
    + apply Nat.eqb_neq in E.
      destruct (index <? k)%nat eqn:Hk.
      * apply Nat.ltb_lt in Hk.
        assert ((index <? S k)%nat = true) as -> by (apply Nat.ltb_lt; lia). reflexivity.
      * apply Nat.ltb_ge in Hk.
        assert ((index <? S k)%nat = false) as -> by (apply Nat.ltb_ge; lia).
        replace (index - k)%nat with (S (index - S k)) by lia. reflexivity.
Qed.

Lemma removeFile_files (index : nat) (st : State) :
  files (removeFile index st) = delete index (files st).
Proof.
  unfold removeFile, setFiles. cbn [files]. rewrite filter_index_delete.
  cbn. rewrite Nat.sub_0_r. reflexivity.
Qed.

(** [removeFile] takes the entry at [index] out of the list and keeps the
    others in their order; with an index past the end it changes nothing.
    The rest of the state is untouched. *)
Theorem remove_file_deletes_one_entry (index : nat) (st : State) :
  removeFile index st
  = {| files := (take index (files st) ++ drop (S index) (files st))%list;
       isUploading := isUploading st; uploadProgress := uploadProgress st;
       error := error st; toasts := toasts st; requests := requests st;
       completed := completed st |} /\
  ((index < length (files st))%nat ->
   length (files (removeFile index st)) = (length (files st) - 1)%nat) /\
  ((length (files st) <= index)%nat -> removeFile index st = st).
Proof.
  assert (removeFile index st
          = {| files := (take index (files st) ++ drop (S index) (files st))%list;
               isUploading := isUploading st; uploadProgress := uploadProgress st;
               error := error st; toasts := toasts st; requests := requests st;
               completed := completed st |}) as E.
  { pose proof (removeFile_files index st) as H. rewrite delete_take_drop in H.
    rewrite <- H. reflexivity. }
  split; [exact E|]. split.
  - intros Hlt. rewrite E. cbn [files].
    rewrite length_app, length_take, length_drop. lia.
  - intros Hge. rewrite E. rewrite take_ge by exact Hge.
    rewrite drop_ge by lia. rewrite app_nil_r. destruct st; reflexivity.
Qed.

(** What [handleFiles] leaves behind: nothing but toasts when the batch has
    no PDF file, and otherwise one request with the PDF files of the batch and
    either every listed file [success], no error and one call of
    [onUploadComplete] with their names, or every listed file [error] and the
    error set. *)
Lemma handleFiles_cases (now : N) (res : FetchResult) (selectedFiles : list File)
    (st : State) :
  let st' := handleFiles now res selectedFiles st in
  let pdfFiles := List.filter is_pdf selectedFiles in
  (pdfFiles = [] /\ files st' = files st /\ isUploading st' = isUploading st /\
   error st' = error st /\ requests st' = requests st /\ completed st' = completed st) \/
  (pdfFiles <> [] /\ isUploading st' = false /\
   requests st' = (requests st ++ [pdfFiles])%list /\
   ((error st' = None /\
     Forall (fun file => status file = Success) (files st') /\
     exists clusterId,
       completed st' = (completed st ++ [(clusterId, map file_name pdfFiles)])%list) \/
    (is_Some (error st') /\
     Forall (fun file => status file = Error) (files st') /\
     completed st' = completed st))).
Proof.
  cbv zeta. unfold handleFiles.
  destruct (List.filter is_pdf selectedFiles) as [|file pdfs] eqn:E.
  - left. cbn [length Nat.eqb].
    destruct (length selectedFiles); repeat split.
  - right. split; [discriminate|].
    change (Nat.eqb (length (file :: pdfs)) 0) with false. cbv iota.
    set (st0 := if negb (Nat.eqb (length (file :: pdfs)) (length selectedFiles))
                then toast _ st else st).
    assert (requests st0 = requests st /\ completed st0 = completed st) as [Hr Hc].
    { unfold st0. destruct (negb _); split; reflexivity. }
    unfold uploadFiles, uploadFiles_settle.
    destruct (read_response res) as [message|result]; [destruct (api_unavailable message)|];
      cbn [isUploading requests completed files error setIsUploading setFiles setError toast
           onUploadComplete uploadFiles_begin setUploadProgress fetch fst snd];
      rewrite ?Hr, ?Hc; (split; [reflexivity|]); (split; [reflexivity|]).
    + left. split; [reflexivity|]. split; [|eexists; reflexivity].
      apply Forall_map, Forall_map, Forall_forall. intros. reflexivity.
    + right. split; [eexists; reflexivity|]. split; [|reflexivity].
      apply Forall_map, Forall_map, Forall_forall. intros. reflexivity.
    + left. split; [reflexivity|]. split; [|eexists; reflexivity].
      apply Forall_map, Forall_map, Forall_forall. intros. reflexivity.
Qed.

Lemma is_pdf_spec (file : File) : is_pdf file = true -> file_type file = "application/pdf".
Proof. unfold is_pdf. apply String.eqb_eq. Qed.

Lemma upload_session_snoc (ops : list UploadOp) (op : UploadOp) :
  upload_session (ops ++ [op]) = upload_op (upload_session ops) op.
Proof. unfold upload_session. rewrite fold_left_app. reflexivity. Qed.

(** After any sequence of settled operations (batches dropped or chosen,
    whatever the server answers, files removed, the list cleared), no upload
    is marked as in progress and no file is left [uploading]: when the error
    is unset every listed file is [success], and when it is set every listed
    file is [error]. *)
Theorem upload_session_settles (ops : list UploadOp) :
  isUploading (upload_session ops) = false /\
  match error (upload_session ops) with
  | None => Forall (fun file => status file = Success) (files (upload_session ops))
  | Some _ => Forall (fun file => status file = Error) (files (upload_session ops))
  end.
Proof.
  induction ops as [|op ops IH] using rev_ind.
  - split; [reflexivity|]. constructor.
  - rewrite upload_session_snoc. destruct IH as [Hu Hf].
    set (st := upload_session ops) in *. clearbody st.
    destruct op as [now res selectedFiles|index|]; cbn [upload_op].
    + destruct (handleFiles_cases now res selectedFiles st)
        as [(_ & Hfs & Hup & He & _ & _)|(_ & Hup & _ & [(He & Hfs & _)|([m He] & Hfs & _)])].
      * rewrite Hup, He, Hfs. split; [exact Hu|exact Hf].
      * rewrite Hup, He. split; [reflexivity|exact Hfs].
      * rewrite Hup, He. split; [reflexivity|exact Hfs].
    + split; [exact Hu|].
      change (error (removeFile index st)) with (error st).
      rewrite removeFile_files, delete_take_drop.
      destruct (error st); (apply Forall_app; split; [apply Forall_take|apply Forall_drop]);
        exact Hf.
    + split; [exact Hu|]. cbn. constructor.
Qed.

Lemma upload_op_io (st : State) (op : UploadOp) : upload_io st -> upload_io (upload_op st op).
Proof.
  unfold upload_io. intros (Hr & Hc & Hl).
  destruct op as [now res selectedFiles|index|]; cbn [upload_op];
    [|split; [exact Hr|split; [exact Hc|exact Hl]]..].
  destruct (handleFiles_cases now res selectedFiles st)
    as [(_ & _ & _ & _ & Hrq & Hcp)|(Hne & _ & Hrq & Hcases)].
  - rewrite Hrq, Hcp. split; [exact Hr|split; [exact Hc|exact Hl]].
  - assert (Forall (fun call => exists body,
                        In body (requests st ++ [List.filter is_pdf selectedFiles])%list /\
                        snd call = map file_name body) (completed st)) as Hc'.
    { eapply Forall_impl; [exact Hc|]. intros call (body & Hin & Hn).
      exists body. split; [apply in_or_app; left; exact Hin|exact Hn]. }
    rewrite Hrq. split; [|split].
    + apply Forall_app. split; [exact Hr|]. apply Forall_cons. split; [|constructor].
      split; [exact Hne|]. apply Forall_forall. intros file Hin.
      apply list_elem_of_In, filter_In in Hin. apply is_pdf_spec. apply Hin.
    + destruct Hcases as [(_ & _ & clusterId & Hcp)|(_ & _ & Hcp)]; rewrite Hcp;
        [|exact Hc'].
      apply Forall_app. split; [exact Hc'|]. apply Forall_cons. split; [|constructor].
      exists (List.filter is_pdf selectedFiles).
      split; [apply in_or_app; right; left; reflexivity|reflexivity].
    + rewrite length_app. cbn [length].
      destruct Hcases as [(_ & _ & clusterId & Hcp)|(_ & _ & Hcp)]; rewrite Hcp;
        [rewrite length_app; cbn [length]|]; lia.
Qed.

(** Over any sequence of settled operations, every request sent has a body
    that is not empty and holds files of type application/pdf only, and every
    call of [onUploadComplete] hands over the names of the files of one of
    these requests: there are never more calls than requests. *)
Theorem upload_requests_hold_pdf_files (ops : list UploadOp) :
  Forall (fun body => body <> [] /\
                      Forall (fun file => file_type file = "application/pdf") body)
    (requests (upload_session ops)) /\
  Forall (fun call => exists body, In body (requests (upload_session ops)) /\
                                   snd call = map file_name body)
    (completed (upload_session ops)) /\
  (length (completed (upload_session ops)) <= length (requests (upload_session ops)))%nat.
Proof.
  change (upload_io (upload_session ops)).
  induction ops as [|op ops IH] using rev_ind.
  - split; [constructor|]. split; [constructor|]. reflexivity.
  - rewrite upload_session_snoc. apply upload_op_io. exact IH.
Qed.

End UploadOperations.

(** ** The insights panel *)
Section InsightsPanel.
Import JS Text Insights Support.
Local Open Scope string_scope.

Lemma settle_recommendations_length (typeError : string) (res : FetchResult SnippetsBody)
    (st : State) :
  (length (recommendations st) <= 5)%nat ->
  (length (recommendations (fetchRecommendations_settle typeError res st)) <= 5)%nat.
Proof.
  intros H. unfold fetchRecommendations_settle.
  destruct res as [message|response]; [exact H|].
  destruct (negb (announces_json (content_type response))); [cbn; lia|].
  destruct (negb (ok response)); [exact H|].
  destruct (json response) as [message|data]; [exact H|].
  destruct (snippets_of typeError data) as [message|snippets]; [exact H|].
  cbn [recommendations setRecommendations setIsLoadingRecommendations].
  rewrite length_take. lia.
Qed.

Lemma step_recommendations_length (typeError : string) (st : State) (e : Event) :
  (length (recommendations st) <= 5)%nat ->
  (length (recommendations (step typeError st e)) <= 5)%nat.
Proof.
  intros H. destruct e as [p|res|res|p res|index]; cbn [step].
  - unfold effect_begin. destruct (no_selection p); [cbn; lia|exact H].
  - apply settle_recommendations_length. exact H.
  - unfold fetchInsights_settle. destruct res as [message|response]; [exact H|].
    destruct (negb (announces_json (content_type response))); [exact H|].
    destruct (negb (ok response)); [exact H|].
    destruct (json response); exact H.
  - unfold generatePodcast.
    destruct (negb (text_truthy (selectedText p)) || Nat.eqb (length (recommendations st)) 0);
      [exact H|].
    destruct res as [message|response]; [exact H|].
    destruct (negb (ok response)); [exact H|].
    destruct (json response) as [message|[audio_url|]]; exact H.
  - destruct (recommendations st !! index); exact H.
Qed.

(** Whatever happens to the panel (selections, answers of the
    recommendations and insights endpoints in any order and of any kind,
    podcasts generated, snippets clicked), it never holds more than five
    recommendations. *)
Theorem at_most_five_recommendations (typeError : string) (events : list Event) :
  (length (recommendations (fold_left (step typeError) events initial)) <= 5)%nat.
Proof.
  assert (forall st, (length (recommendations st) <= 5)%nat ->
                     (length (recommendations (fold_left (step typeError) events st)) <= 5)%nat)
    as H.
  { induction events as [|e events IH]; intros st Hst; [exact Hst|].
    cbn [fold_left]. apply IH. apply step_recommendations_length. exact Hst. }
  apply H. cbn. lia.
Qed.

(** The content type is looked at before the status: an answer that does
    not announce JSON, a failure included, fills the panel with the three demo
    recommendations and reports no error. *)
Theorem answer_without_json_shows_the_demo (typeError : string) (p : Props)
    (response : Response SnippetsBody) (st : State) :
  announces_json (content_type response) = false ->
  fetchRecommendations typeError p (Responded response) st
  = {| recommendations := mockRecommendations;
       insights := insights st;
       podcastUrl := podcastUrl st;
       isLoadingRecommendations := false;
       isLoadingInsights := isLoadingInsights st;
       isGeneratingPodcast := isGeneratingPodcast st;
       error := None;
       toasts := toasts st;
       requests := (requests st ++ [Recommendations_request (selectedText p) (clusterId p)])%list;
       navigations := navigations st |}.
Proof.
  intros H. unfold fetchRecommendations, fetchRecommendations_settle.
  cbn [content_type]. rewrite H. reflexivity.
Qed.

Lemma demo_witness :
  ok (@html_error SnippetsBody) = false /\
  error (fetchRecommendations "" selection_c1 (Responded html_error) initial) = None /\
  length (recommendations (fetchRecommendations "" selection_c1 (Responded html_error) initial))
  = 3%nat.
Proof.
  split; [reflexivity|].
  rewrite (answer_without_json_shows_the_demo "" selection_c1 html_error initial eq_refl).
  split; reflexivity.
Defined.

(** A failed fetch of the insights is silent: the panel keeps the insights
    it had, sets no error and raises no toast; only the request and the end of
    the loading show. *)
Theorem failed_insights_are_silent (p : Props) (res : FetchResult (option InsightData))
    (st : State) :
  insights_fetch_failed res ->
  fetchInsights p res st
  = {| recommendations := recommendations st;
       insights := insights st;
       podcastUrl := podcastUrl st;
       isLoadingRecommendations := isLoadingRecommendations st;
       isLoadingInsights := false;
       isGeneratingPodcast := isGeneratingPodcast st;
       error := error st;
       toasts := toasts st;
       requests := (requests st ++ [Insights_request (selectedText p)])%list;
       navigations := navigations st |}.
Proof.
  unfold insights_fetch_failed, fetchInsights, fetchInsights_settle.
  destruct res as [message|response]; [reflexivity|].
  intros [Hj Hfail]. rewrite Hj. cbn [negb].
  destruct Hfail as [Hok|[message Hm]].
  - rewrite Hok. reflexivity.
  - rewrite Hm. destruct (negb (ok response)); reflexivity.
Qed.

Lemma failed_insights_witness :
  insights_fetch_failed json_unavailable /\
  toasts (fetchInsights selection_c1 json_unavailable initial) = [] /\
  error (fetchInsights selection_c1 json_unavailable initial) = None.
Proof.
  assert (insights_fetch_failed json_unavailable) as H.
  { split; [reflexivity|]. left. reflexivity. }
  split; [exact H|].
  rewrite (failed_insights_are_silent selection_c1 json_unavailable initial H).
  split; reflexivity.
Defined.

Lemma length_lit (s : string) : length (lit s) = String.length s.
Proof.
  unfold lit. rewrite length_map. induction s as [|c s IH]; [reflexivity|].
  cbn [list_ascii_of_string length String.length]. rewrite IH. reflexivity.
Qed.

(** [generatePodcast] sends nothing without a selected text and at least one
    recommendation: it only raises the toast "Cannot generate podcast".  With
    both it sends one request, whose introduction quotes at most the first
    100 code units of the selection and whose discussion is the selection and
    the texts of at most the first three recommendations; when it returns the
    generation is no longer marked as running, and the podcast is the one of
    a successful answer or the one there was. *)
Theorem podcast_needs_text_and_snippets (typeError : string) (p : Props)
    (res : FetchResult (option (option string))) (st : State) :
  (selectedText p = [] \/ recommendations st = [] ->
   generatePodcast typeError p res st
   = toast {| title := "Cannot generate podcast";
              description := "Need selected text and related snippets to create podcast content.";
              variant := Some "destructive" |} st) /\
  (selectedText p <> [] -> recommendations st <> [] ->
   requests (generatePodcast typeError p res st)
   = (requests st
      ++ [Podcast_request (podcast_intro p)
            (selectedText p ++ lit " "
             ++ join (lit " ") (map snippet (take 3 (recommendations st))))])%list /\
   length (podcast_intro p) = (58 + Nat.min 100 (length (selectedText p)))%nat /\
   isGeneratingPodcast (generatePodcast typeError p res st) = false /\
   (podcastUrl (generatePodcast typeError p res st) = podcastUrl st \/
    exists response,
      res = Responded response /\ ok response = true /\
      json response = inr (Some (podcastUrl (generatePodcast typeError p res st))))).
Proof.
  unfold generatePodcast. split.
  - intros [H|H]; rewrite H; [reflexivity|]. cbn [length Nat.eqb]. rewrite orb_true_r.
    reflexivity.
  - intros Ht Hr.
    destruct (selectedText p) as [|c text] eqn:Et; [destruct (Ht eq_refl)|].
    destruct (recommendations st) as [|r recs] eqn:Er; [destruct (Hr eq_refl)|].
    cbn [text_truthy negb length Nat.eqb orb]. cbv iota.
    split; [|split; [|split]].
    + assert (podcast_discussion p (recommendations (setIsGeneratingPodcast true st))
              = ((c :: text) ++ lit " "
                 ++ join (lit " ") (map snippet (take 3 (r :: recs))))%list) as D.
      { unfold podcast_discussion. cbn [recommendations setIsGeneratingPodcast].
        rewrite Et, Er. reflexivity. }
      rewrite D.
      destruct res as [message|response]; [reflexivity|].
      destruct (negb (ok response)); [reflexivity|].
      destruct (json response) as [message|[audio_url|]]; reflexivity.
    + unfold podcast_intro, quote_unit. rewrite Et.
      rewrite !length_app, !length_lit, length_take. cbn [length String.length]. lia.
    + destruct res as [message|response]; [reflexivity|].
      destruct (negb (ok response)); [reflexivity|].
      destruct (json response) as [message|[audio_url|]]; reflexivity.
    + destruct res as [message|response]; [left; reflexivity|].
      destruct (ok response) eqn:Hok; [|left; reflexivity]. cbn [negb].
      destruct (json response) as [message|[audio_url|]] eqn:Hj;
        [left; reflexivity| |left; reflexivity].
      right. exists response. split; [reflexivity|]. split; [exact Hok|]. rewrite Hj.
      reflexivity.
Qed.

(** The two answers a selection waits for change disjoint parts of the
    state: whichever arrives first, the panel ends in the same state, the one
    [effect] gives. *)
Theorem answers_arrive_in_any_order (typeError : string) (p : Props)
    (recs : FetchResult SnippetsBody) (ins : FetchResult (option InsightData))
    (st : State) :
  fetchInsights_settle ins (fetchRecommendations_settle typeError recs st)
  = fetchRecommendations_settle typeError recs (fetchInsights_settle ins st) /\
  effect typeError p recs ins st
  = fold_left (step typeError)
      (if no_selection p then [Props_change p]
       else [Props_change p; Insights_settle ins; Recommendations_settle recs]) st.
Proof.
  assert (forall s, fetchInsights_settle ins (fetchRecommendations_settle typeError recs s)
                    = fetchRecommendations_settle typeError recs (fetchInsights_settle ins s))
    as C.
  { intros s. unfold fetchInsights_settle, fetchRecommendations_settle.
    destruct recs as [m1|r1]; destruct ins as [m2|r2];
      repeat match goal with
             | |- context [if ?b then _ else _] => destruct b
             | |- context [match ?x with inl _ => _ | inr _ => _ end] => destruct x
             end; reflexivity. }
  split; [apply C|].
  unfold effect. destruct (no_selection p) eqn:E; cbn [fold_left step].
  - reflexivity.
  - apply C.
Qed.

End InsightsPanel.

(** ** The recommendations panel *)
Section RecommendationsPanel.
Import JS Text Recommendations Support.
Local Open Scope string_scope.

Lemma effect_requests (st : State) (p : Insights.Props) :
  requests (effect st p) = requests st /\
  timeout (effect st p) = if Insights.no_selection p then None else Some p.
Proof. unfold effect. destruct (Insights.no_selection p); split; reflexivity. Qed.

Lemma effects_requests (ps : list Insights.Props) (st : State) :
  requests (fold_left effect ps st) = requests st.
Proof.
  revert st. induction ps as [|p ps IH]; intros st; [reflexivity|].
  cbn [fold_left]. rewrite IH. apply effect_requests.
Qed.

(** The debounce: however many changes of the selection follow each other
    before the timeout fires, no request is sent for any of them but the last,
    and firing the timeout sends the request of the last selection, once; it
    sends none when the last selection is empty or there is no cluster. *)
Theorem debounce_keeps_the_last_selection (ps : list Insights.Props) (p : Insights.Props)
    (st : State) :
  requests (fold_left effect (ps ++ [p]) st) = requests st /\
  requests (timeout_fires (fold_left effect (ps ++ [p]) st))
  = (requests st
     ++ if Insights.no_selection p then []
        else [Insights.Recommendations_request (Insights.selectedText p)
                (Insights.clusterId p)])%list /\
  timeout_fires (timeout_fires (fold_left effect (ps ++ [p]) st))
  = timeout_fires (fold_left effect (ps ++ [p]) st).
Proof.
  split; [apply effects_requests|].
  rewrite fold_left_app. cbn [fold_left].
  pose proof (effects_requests ps st) as Hr.
  set (s := fold_left effect ps st) in *. clearbody s.
  unfold effect. destruct (Insights.no_selection p).
  - change (timeout_fires (setRecommendations [] (clearTimeout s)))
      with (setRecommendations [] (clearTimeout s)).
    split; [|reflexivity]. cbn [requests setRecommendations clearTimeout].
    rewrite Hr, app_nil_r. reflexivity.
  - change (timeout_fires (setTimeout p (clearTimeout s)))
      with (fetchRecommendations_begin p (clearTimeout (setTimeout p (clearTimeout s)))).
    split; [|reflexivity]. cbn. rewrite Hr. reflexivity.
Qed.

(** A successful answer lists the first five snippets at most, while the
    toast counts all the snippets received; without snippets there is no
    toast. *)
Theorem toast_counts_every_snippet (typeError : string)
    (response : Insights.Response Insights.SnippetsBody) (data : Insights.SnippetsBody)
    (snippets : list Insights.RelatedSnippet) (st : State) :
  Insights.ok response = true ->
  Insights.json response = inr data ->
  Insights.snippets_of typeError data = inr snippets ->
  let st' := fetchRecommendations_settle typeError (Insights.Responded response) st in
  recommendations st' = take 5 snippets /\
  length (recommendations st') = Nat.min 5 (length snippets) /\
  error st' = error st /\ isLoading st' = false /\
  toasts st'
  = (toasts st
     ++ match snippets with
        | [] => []
        | _ :: _ =>
            [{| title := "Related content found";
                description :=
                  "Found " +:+ pretty (length snippets) +:+ " related snippet"
                  +:+ (if Nat.eqb (length snippets) 1 then "" else "s")
                  +:+ " across your documents.";
                variant := None |}]
        end)%list.
Proof.
  intros Hok Hj Hs. cbv zeta. unfold fetchRecommendations_settle. rewrite Hok, Hj.
  cbn [negb]. rewrite Hs. unfold found.
  destruct snippets as [|s1 snippets].
  - cbn. rewrite app_nil_r. repeat split.
  - change (Nat.ltb 0 (length (s1 :: snippets))) with true. cbv iota.
    cbn [recommendations error isLoading toasts setIsLoading toast setRecommendations].
    split; [reflexivity|]. split; [apply length_take|]. split; [reflexivity|].
    split; [reflexivity|].
    destruct (Nat.eqb (length (s1 :: snippets)) 1); reflexivity.
Qed.

Lemma toast_counts_witness :
  let seven := replicate 7 (snippet_of "a.pdf" None) in
  let st' := fetchRecommendations_settle "" (snippets_answer seven) initial in
  length (recommendations st') = 5%nat /\
  description <$> toasts st' = ["Found 7 related snippets across your documents."].
Proof.
  cbv zeta.
  destruct (toast_counts_every_snippet ""
              {| Insights.ok := true; Insights.statusText := "OK";
                 Insights.content_type := Some "application/json";
                 Insights.json := inr (Insights.Body_array
                                         (replicate 7 (snippet_of "a.pdf" None))) |}
              (Insights.Body_array (replicate 7 (snippet_of "a.pdf" None)))
              (replicate 7 (snippet_of "a.pdf" None)) initial eq_refl eq_refl eq_refl)
    as (_ & Hl & _ & _ & Ht).
  split; [exact Hl|]. unfold snippets_answer. rewrite Ht. reflexivity.
Defined.

End RecommendationsPanel.

(** ** The page and its children *)
Section PageAndChildren.
Import JS Text Support.
Local Open Scope string_scope.

Lemma uploads_completed_last (calls : list (string * list string)) (call : string * list string)
    (page : Page.State) :
  snd call <> [] ->
  Page.uploads_completed (calls ++ [call]) page
  = {| Page.clusterId := Some (fst call);
       Page.documents := snd call;
       Page.selectedDocument := head (snd call);
       Page.showInsights := Page.showInsights page;
       Page.showKnowledgeGraph := Page.showKnowledgeGraph page;
       Page.selectedText := Page.selectedText page;
       Page.sidebarCollapsed := Page.sidebarCollapsed page;
       Page.isMobile := Page.isMobile page;
       Page.timeouts := Page.timeouts page |}.
Proof.
  intros Hne. unfold Page.uploads_completed. rewrite fold_left_app. cbn [fold_left].
  set (f := fun (st : Page.State) (c : string * list string) =>
              Page.handleUploadComplete (fst c) (snd c) st).
  assert (forall cs st, Page.showInsights (fold_left f cs st) = Page.showInsights st /\
                        Page.showKnowledgeGraph (fold_left f cs st) = Page.showKnowledgeGraph st /\
                        Page.selectedText (fold_left f cs st) = Page.selectedText st /\
                        Page.sidebarCollapsed (fold_left f cs st) = Page.sidebarCollapsed st /\
                        Page.isMobile (fold_left f cs st) = Page.isMobile st /\
                        Page.timeouts (fold_left f cs st) = Page.timeouts st) as K.
  { induction cs as [|c cs IH]; intros st; [repeat split|].
    cbn [fold_left]. destruct (IH (f st c)) as (H1 & H2 & H3 & H4 & H5 & H6).
    rewrite H1, H2, H3, H4, H5, H6. repeat split. }
  destruct (K calls page) as (H1 & H2 & H3 & H4 & H5 & H6).
  unfold Page.handleUploadComplete. rewrite H1, H2, H3, H4, H5, H6.
  destruct (snd call) as [|first rest]; [destruct (Hne eq_refl)|]. reflexivity.
Qed.

(** The page behind an upload component: after any sequence of settled
    operations on the component, either no upload has completed and the page
    is as it started, or the page holds the cluster, its library is the names
    of the PDF files of one of the requests sent, none of them missing, and
    the first of them is the selected document; the main area then shows the
    viewer of that document, unless the cluster id is empty (the page stays
    at "Ready to Analyze") or the name of the file is. *)
Theorem uploaded_batch_is_opened (ops : list UploadOp) :
  let page := Page.uploads_completed (Upload.completed (upload_session ops)) Page.initial in
  (Upload.completed (upload_session ops) = [] /\ page = Page.initial) \/
  (exists clusterId body first rest,
      In body (Upload.requests (upload_session ops)) /\
      Forall (fun file => Upload.file_type file = "application/pdf") body /\
      map Upload.file_name body = first :: rest /\
      Page.clusterId page = Some clusterId /\
      Page.documents page = first :: rest /\
      Page.selectedDocument page = Some first /\
      Page.main_area page
      = if str_truthy clusterId
        then if str_truthy first then Page.Viewer_of first clusterId
             else Page.Select_a_document
        else Page.Ready_to_analyze).
Proof.
  cbv zeta.
  assert (upload_io (upload_session ops)) as (Hr & Hc & _).
  { induction ops as [|op ops IH] using rev_ind.
    - split; [constructor|]. split; [constructor|]. reflexivity.
    - rewrite upload_session_snoc. apply upload_op_io. exact IH. }
  induction (Upload.completed (upload_session ops)) as [|call l _] using rev_ind.
  - left. split; reflexivity.
  - right.
    apply Forall_app in Hc as [_ Hc]. apply Forall_cons in Hc as [(body & Hin & Hn) _].
    apply list_elem_of_In in Hin.
    pose proof (proj1 (Forall_forall _ _) Hr body Hin) as [Hne Hpdf].
    destruct body as [|file body']; [destruct (Hne eq_refl)|].
    assert (snd call <> []) as Hne' by (rewrite Hn; discriminate).
    rewrite (uploads_completed_last l call Page.initial Hne').
    exists (fst call), (file :: body'), (Upload.file_name file), (map Upload.file_name body').
    split; [apply list_elem_of_In; exact Hin|]. split; [exact Hpdf|].
    split; [reflexivity|]. unfold Page.main_area.
    cbn [Page.clusterId Page.documents Page.selectedDocument].
    rewrite Hn. repeat split.
Qed.

Lemma sample_texts_shape :
  (head PDFViewer.sample_text_1 = Some 77%N /\ last PDFViewer.sample_text_1 = Some 46%N) /\
  (head PDFViewer.sample_text_2 = Some 84%N /\ last PDFViewer.sample_text_2 = Some 46%N).
Proof. vm_compute. repeat split. Qed.

(** Every call of [onTextSelection] brings a text that begins and ends with
    a code unit that is no white space. *)
Lemma onTextSelection_shape (documentName : string) (s : Page.Selection)
    (text : jsstring) (name : string) :
  Page.onTextSelection documentName s = Some (text, name) ->
  exists first final,
    head text = Some first /\ is_white_space first = false /\
    last text = Some final /\ is_white_space final = false.
Proof.
  destruct s as [event| |]; cbn [Page.onTextSelection].
  - intros E. pose proof (listener_result documentName event) as H. rewrite E in H.
    destruct H as (_ & _ & pre & post & first & final & _ & _ & _ & H).
    exists first, final. exact H.
  - intros [= <- _]. exists 77%N, 46%N.
    destruct sample_texts_shape as [[H1 H2] _]. repeat split; assumption.
  - intros [= <- _]. exists 84%N, 46%N.
    destruct sample_texts_shape as [_ [H1 H2]]. repeat split; assumption.
Qed.

(** Only a selection writes [selectedText]; only a selection and the two
    buttons of the insights write [showInsights], and only the close button
    turns it off. *)
Lemma step_keeps_selectedText (st : Page.State) (e : Page.Event) :
  no_selection_made e -> Page.selectedText (Page.step st e) = Page.selectedText st.
Proof.
  destruct e; cbn [no_selection_made Page.step]; intros H; try contradiction;
    try reflexivity.
  - destruct (Page.documents st !! index); reflexivity.
  - destruct (Page.has_cluster st); reflexivity.
  - destruct (Page.has_cluster st); reflexivity.
Qed.

Lemma steps_keep_selectedText (events : list Page.Event) (st : Page.State) :
  Forall no_selection_made events ->
  Page.selectedText (fold_left Page.step events st) = Page.selectedText st.
Proof.
  intros H. revert st. induction H as [|e events He _ IH]; intros st; [reflexivity|].
  cbn [fold_left]. rewrite IH. apply step_keeps_selectedText. exact He.
Qed.

Lemma select_opens_or_keeps (documentName : string) (st : Page.State) (s : Page.Selection) :
  Page.showInsights st = true -> Page.showInsights (Page.select documentName st s) = true.
Proof.
  intros H. unfold Page.select.
  destruct (Page.onTextSelection documentName s) as [[text name]|]; [reflexivity|exact H].
Qed.

Lemma steps_keep_insights_open (events : list Page.Event) (st : Page.State) :
  Forall keeps_insights_open events -> Page.showInsights st = true ->
  Page.showInsights (fold_left Page.step events st) = true.
Proof.
  intros H. revert st. induction H as [|e events He _ IH]; intros st Hst; [exact Hst|].
  cbn [fold_left]. apply IH.
  destruct e; cbn [keeps_insights_open Page.step] in *; try contradiction; try exact Hst.
  - destruct (Page.main_area st); try exact Hst. apply select_opens_or_keeps. exact Hst.
  - destruct (Page.documents st !! index); exact Hst.
  - destruct (Page.has_cluster st); [reflexivity|exact Hst].
  - destruct (Page.has_cluster st); exact Hst.
Qed.

(** The selected text is empty or begins and ends with a code unit that is
    no white space, whatever happens to the page. *)
Lemma step_keeps_text_shape (st : Page.State) (e : Page.Event) :
  (Page.selectedText st = [] \/
   exists first final,
     head (Page.selectedText st) = Some first /\ is_white_space first = false /\
     last (Page.selectedText st) = Some final /\ is_white_space final = false) ->
  Page.selectedText (Page.step st e) = [] \/
  exists first final,
    head (Page.selectedText (Page.step st e)) = Some first /\ is_white_space first = false /\
    last (Page.selectedText (Page.step st e)) = Some final /\ is_white_space final = false.
Proof.
  intros H. destruct e as [c ns|s| | | | | | | | |];
    try (rewrite step_keeps_selectedText by exact I; exact H).
  cbn [Page.step]. destruct (Page.main_area st) as [|documentName c|]; try exact H.
  unfold Page.select.
  destruct (Page.onTextSelection documentName s) as [[text name]|] eqn:E; [|exact H].
  right. cbn [Page.handleTextSelection Page.selectedText].
  exact (onTextSelection_shape documentName s text name E).
Qed.

Lemma steps_keep_text_shape (events : list Page.Event) (st : Page.State) :
  (Page.selectedText st = [] \/
   exists first final,
     head (Page.selectedText st) = Some first /\ is_white_space first = false /\
     last (Page.selectedText st) = Some final /\ is_white_space final = false) ->
  Page.selectedText (fold_left Page.step events st) = [] \/
  exists first final,
    head (Page.selectedText (fold_left Page.step events st)) = Some first /\
    is_white_space first = false /\
    last (Page.selectedText (fold_left Page.step events st)) = Some final /\
    is_white_space final = false.
Proof.
  revert st. induction events as [|e events IH]; intros st H; [exact H|].
  cbn [fold_left]. apply IH. apply step_keeps_text_shape. exact H.
Qed.

(** A selection that leads to the call [(text, name)] of [onTextSelection]
    leaves [text] as the selected text until the next selection, and the
    insights open until they are closed. *)
Lemma selection_is_kept (old : Page.State) (after : list Page.Event)
    (documentName clusterId : string) (s : Page.Selection) (text : jsstring) (name : string) :
  Page.main_area old = Page.Viewer_of documentName clusterId ->
  Forall no_selection_made after ->
  Page.onTextSelection documentName s = Some (text, name) ->
  Page.selectedText (fold_left Page.step (Page.Selection_made s :: after) old) = text /\
  (Forall keeps_insights_open after ->
   Page.showInsights (fold_left Page.step (Page.Selection_made s :: after) old) = true).
Proof.
  intros Hm Hafter E. cbn [fold_left Page.step]. rewrite Hm. unfold Page.select. rewrite E.
  split.
  - rewrite steps_keep_selectedText by exact Hafter. reflexivity.
  - intros Hopen. apply steps_keep_insights_open; [exact Hopen|reflexivity].
Qed.

(** The selected text of the page.  When the main area shows a document and
    a selection arrives, followed by anything but another selection:
    a [SELECTION_END] event of the embedded viewer whose text is [t] between
    two runs of white space, where [t] begins and ends with a code unit that
    is none, leaves [t] as the selected text and the insights open, for as
    long as they are not closed; an event of another type, without a text or
    with white space only changes nothing at all; the two sample buttons of
    the fallback viewer leave their sample texts.  And whatever selections
    and other events came, the selected text is empty or begins and ends with
    a code unit that is no white space. *)
Theorem selected_text_is_trimmed (before after : list Page.Event)
    (documentName clusterId : string) (s : Page.Selection) :
  Page.main_area (fold_left Page.step before Page.initial)
  = Page.Viewer_of documentName clusterId ->
  Forall no_selection_made after ->
  let old := fold_left Page.step before Page.initial in
  let page := fold_left Page.step (before ++ Page.Selection_made s :: after) Page.initial in
  match s with
  | Page.Viewer_event event =>
      (forall pre t post first final,
         Viewer.event_type event = "SELECTION_END" ->
         Viewer.selection_text event = Some (pre ++ t ++ post)%list ->
         forallb is_white_space pre = true -> forallb is_white_space post = true ->
         head t = Some first -> is_white_space first = false ->
         last t = Some final -> is_white_space final = false ->
         Page.selectedText page = t /\
         (Forall keeps_insights_open after -> Page.showInsights page = true)) /\
      (Viewer.event_type event <> "SELECTION_END" \/ Viewer.selection_text event = None \/
       (exists raw, Viewer.selection_text event = Some raw /\
                    forallb is_white_space raw = true) ->
       page = fold_left Page.step after old)
  | Page.Sample_text_1 =>
      Page.selectedText page = PDFViewer.sample_text_1 /\
      (Forall keeps_insights_open after -> Page.showInsights page = true)
  | Page.Sample_text_2 =>
      Page.selectedText page = PDFViewer.sample_text_2 /\
      (Forall keeps_insights_open after -> Page.showInsights page = true)
  end /\
  (Page.selectedText page = [] \/
   exists first final,
     head (Page.selectedText page) = Some first /\ is_white_space first = false /\
     last (Page.selectedText page) = Some final /\ is_white_space final = false).
Proof.
  intros Hm Hafter. cbv zeta. split.
  - rewrite fold_left_app. destruct s as [event| |].
    + split.
      * intros pre t post first final Ht Hs Hpre Hpost Hfirst Hf Hfinal Hl.
        apply (selection_is_kept _ after documentName clusterId _ t documentName Hm Hafter).
        cbn [Page.onTextSelection].
        exact (listener_calls_between documentName event pre t post first final
                 Ht Hs Hpre Hpost Hfirst Hf Hfinal Hl).
      * intros H. cbn [fold_left Page.step]. rewrite Hm. unfold Page.select.
        cbn [Page.onTextSelection]. rewrite (listener_ignores documentName event H).
        reflexivity.
    + exact (selection_is_kept _ after documentName clusterId Page.Sample_text_1
               _ documentName Hm Hafter eq_refl).
    + exact (selection_is_kept _ after documentName clusterId Page.Sample_text_2
               _ documentName Hm Hafter eq_refl).
  - apply steps_keep_text_shape. left. reflexivity.
Qed.

Lemma selected_text_witness :
  let events :=
    ([Page.Upload_completed "c1" ["a.pdf"]]
     ++ Page.Selection_made (Page.Viewer_event hi_event)
     :: [Page.Resize 500%float; Page.Graph_button; Page.Document_click 0])%list in
  Page.main_area (fold_left Page.step [Page.Upload_completed "c1" ["a.pdf"]] Page.initial)
  = Page.Viewer_of "a.pdf" "c1" /\
  Page.selectedText (fold_left Page.step events Page.initial) = [104; 105]%N /\
  Page.showInsights (fold_left Page.step events Page.initial) = true.
Proof.
  cbv zeta. split; [reflexivity|].
  assert (Forall no_selection_made
            [Page.Resize 500%float; Page.Graph_button; Page.Document_click 0]) as Hafter
      by (repeat constructor).
  destruct (selected_text_is_trimmed [Page.Upload_completed "c1" ["a.pdf"]]
              [Page.Resize 500%float; Page.Graph_button; Page.Document_click 0]
              "a.pdf" "c1" (Page.Viewer_event hi_event) eq_refl Hafter) as [[H _] _].
  destruct (H [32; 32]%N [104; 105]%N [32]%N 104%N 105%N eq_refl eq_refl eq_refl eq_refl
              eq_refl eq_refl eq_refl eq_refl) as [Ht Hi].
  split; [exact Ht|]. apply Hi. repeat constructor.
Defined.

(** Over any sequence of window widths, the sidebar is collapsed as soon as
    one width is below 768 and stays collapsed when the window grows again:
    [checkMobile] never opens it.  The page counts as mobile by the last
    width alone. *)
Theorem narrow_window_collapses_the_sidebar (widths : list number) (st : Page.State) :
  Page.sidebarCollapsed (fold_left (fun st w => Page.checkMobile w st) widths st)
  = Page.sidebarCollapsed st || existsb (fun w => (w <? 768)%float) widths /\
  Page.isMobile (fold_left (fun st w => Page.checkMobile w st) widths st)
  = match last widths with
    | Some w => (w <? 768)%float
    | None => Page.isMobile st
    end.
Proof.
  revert st. induction widths as [|w widths IH]; intros st.
  - cbn. rewrite orb_false_r. split; reflexivity.
  - cbn [fold_left existsb]. destruct (IH (Page.checkMobile w st)) as [Hs Hm].
    rewrite Hs, Hm. cbn [Page.checkMobile Page.sidebarCollapsed Page.isMobile]. split.
    + destruct (w <? 768)%float; cbn [orb]; [rewrite orb_true_r|]; reflexivity.
    + rewrite last_cons. destruct (last widths); reflexivity.
Qed.

Lemma fallback_props_hold_no_view (events : list PDFViewer.Event) (st : PDFViewer.State) :
  Forall fallback_props events ->
  PDFViewer.adobeViewRef st = false ->
  PDFViewer.adobeViewRef (fold_left PDFViewer.step events st) = false /\
  PDFViewer.gotoLocation (fold_left PDFViewer.step events st) = PDFViewer.gotoLocation st.
Proof.
  intros H. revert st. induction H as [|e events He _ IH]; intros st Hst; [split; auto|].
  cbn [fold_left].
  assert (PDFViewer.adobeViewRef (PDFViewer.step st e) = false /\
          PDFViewer.gotoLocation (PDFViewer.step st e) = PDFViewer.gotoLocation st)
    as [H1 H2].
  { destruct e as [p sdk|p viewer how| |pageNumber]; cbn [fallback_props] in He;
      cbn [PDFViewer.step].
    - unfold PDFViewer.sdk_effect. rewrite He. split; [exact Hst|reflexivity].
    - unfold PDFViewer.viewer_effect. rewrite He. split; reflexivity.
    - split; [exact Hst|reflexivity].
    - unfold PDFViewer.goToLocation. rewrite Hst. split; [exact Hst|reflexivity]. }
  destruct (IH _ H1) as [I1 I2]. split; [exact I1|congruence].
Qed.

(** A click on a snippet of the insights panel, through the page, to the
    viewer: the page selects the document of the snippet, in the library or
    not, and [gotoLocation] is called, with the page of the snippet, exactly
    when the snippet has a page number other than 0 and the viewer holds an
    Adobe view.  A viewer whose props require the fallback (no client id, or
    a blob URL) never holds one, whatever effects, fallbacks and navigations
    came before: there no call of [gotoLocation] is ever made. *)
Theorem snippet_click_navigates (snippet : Insights.RelatedSnippet) (st : Insights.State)
    (page : Page.State) (viewer : PDFViewer.State) :
  let st' := Insights.handleSnippetClick snippet st in
  let calls := drop (length (Insights.navigations st)) (Insights.navigations st') in
  let page' := Page.navigations_made calls page in
  let timeouts := drop (length (Page.timeouts page)) (Page.timeouts page') in
  let viewer' := fold_left (fun v pageNumber => PDFViewer.goToLocation pageNumber v)
                   timeouts viewer in
  calls = [(Insights.document_name snippet, Insights.page_number snippet)] /\
  Page.selectedDocument page' = Some (Insights.document_name snippet) /\
  Page.documents page' = Page.documents page /\
  PDFViewer.gotoLocation viewer'
  = (PDFViewer.gotoLocation viewer
     ++ match Insights.page_number snippet with
        | Some n => if N.eqb n 0 || negb (PDFViewer.adobeViewRef viewer) then [] else [n]
        | None => []
        end)%list /\
  forall events : list PDFViewer.Event,
    Forall fallback_props events ->
    PDFViewer.adobeViewRef (fold_left PDFViewer.step events PDFViewer.initial) = false /\
    PDFViewer.gotoLocation
      (fold_left (fun v pageNumber => PDFViewer.goToLocation pageNumber v) timeouts
         (fold_left PDFViewer.step events PDFViewer.initial))
    = [].
Proof.
  cbv zeta. cbn [Insights.handleSnippetClick Insights.navigations Insights.toast
                 Insights.onNavigateToDocument].
  rewrite drop_app_length. split; [reflexivity|].
  cbn [Page.navigations_made fold_left fst snd Page.handleNavigateToDocument
       Page.selectedDocument Page.documents Page.timeouts].
  split; [reflexivity|]. split; [reflexivity|]. split.
  - destruct (Insights.page_number snippet) as [n|].
    + destruct (N.eqb n 0); cbn [orb].
      * rewrite drop_ge by lia. cbn [fold_left]. rewrite app_nil_r. reflexivity.
      * rewrite drop_app_length. cbn [fold_left]. unfold PDFViewer.goToLocation.
        destruct (PDFViewer.adobeViewRef viewer); cbn [negb PDFViewer.gotoLocation];
          [reflexivity|]. rewrite app_nil_r. reflexivity.
    + rewrite drop_ge by lia. cbn [fold_left]. rewrite app_nil_r. reflexivity.
  - intros events Hev.
    destruct (fallback_props_hold_no_view events PDFViewer.initial Hev eq_refl) as [Hr Hg].
    split; [exact Hr|].
    set (v := fold_left PDFViewer.step events PDFViewer.initial) in *.
    destruct (Insights.page_number snippet) as [n|].
    + destruct (N.eqb n 0).
      * rewrite drop_ge by lia. exact Hg.
      * rewrite drop_app_length. cbn [fold_left]. unfold PDFViewer.goToLocation.
        rewrite Hr. exact Hg.
    + rewrite drop_ge by lia. exact Hg.
Qed.

End PageAndChildren.

(** ** The state of the viewer *)
Section ViewerState.
Import JS Text PDFViewer Support.
Local Open Scope string_scope.

Lemma checkAdobeSDK_from (sdk : nat -> bool) (st : State) (fuel attempts : nat) :
  (fuel + attempts = 30)%nat -> (0 < fuel)%nat ->
  (forall k, (k < attempts)%nat -> sdk k = false) ->
  exists n st',
    checkAdobeSDK fuel sdk attempts st = Some (n, st') /\
    (((n < 30)%nat /\ sdk n = true /\ (forall k, (k < n)%nat -> sdk k = false) /\
      st' = setIsAdobeSDKReady true st) \/
     (n = 30%nat /\ (forall k, (k < 30)%nat -> sdk k = false) /\
      st' = setIsLoading false (setUseFallback true st))).
Proof.
  revert attempts. induction fuel as [|fuel IH]; intros attempts Hsum Hpos Hbefore; [lia|].
  cbn [checkAdobeSDK]. destruct (sdk attempts) eqn:Hs.
  - exists attempts, (setIsAdobeSDKReady true st). split; [reflexivity|].
    left. split; [lia|]. split; [exact Hs|]. split; [exact Hbefore|reflexivity].
  - assert (forall k, (k < S attempts)%nat -> sdk k = false) as Hbefore'.
    { intros k Hk. destruct (decide (k = attempts)) as [->|Hne]; [exact Hs|].
      apply Hbefore. lia. }
    unfold maxAttempts. destruct (Nat.leb 30 (S attempts)) eqn:Hle.
    + apply Nat.leb_le in Hle. assert (S attempts = 30)%nat as Heq by lia.
      exists (S attempts), (setIsLoading false (setUseFallback true st)).
      split; [reflexivity|]. right. split; [exact Heq|]. split; [|reflexivity].
      rewrite <- Heq. exact Hbefore'.
    + apply Nat.leb_gt in Hle. apply IH; [lia|lia|exact Hbefore'].
Qed.

(** [checkAdobeSDK] looks for the SDK at most 30 times, 100 ms apart, and
    always comes to an end: at the first look that finds it the viewer is
    marked ready, after the looks before it, which found nothing; when none
    of the 30 looks finds it the viewer falls back to the demo mode and stops
    loading. *)
Theorem sdk_is_awaited_thirty_times (sdk : nat -> bool) (st : State) :
  exists attempts st',
    checkAdobeSDK maxAttempts sdk 0 st = Some (attempts, st') /\
    (((attempts < 30)%nat /\ sdk attempts = true /\
      (forall k, (k < attempts)%nat -> sdk k = false) /\
      st' = setIsAdobeSDKReady true st) \/
     (attempts = 30%nat /\ (forall k, (k < 30)%nat -> sdk k = false) /\
      st' = setIsLoading false (setUseFallback true st))).
Proof.
  apply checkAdobeSDK_from; [reflexivity|unfold maxAttempts; lia|]. intros k Hk. lia.
Qed.

Lemma checkAdobeSDK_keeps (sdk : nat -> bool) (fuel attempts : nat) (st : State) (n : nat)
    (st' : State) :
  checkAdobeSDK fuel sdk attempts st = Some (n, st') ->
  error st' = error st /\ (useFallback st = true -> useFallback st' = true).
Proof.
  revert attempts. induction fuel as [|fuel IH]; intros attempts; [discriminate|].
  cbn [checkAdobeSDK]. destruct (sdk attempts).
  - intros [= _ <-]. split; [reflexivity|]. intros H. exact H.
  - destruct (Nat.leb maxAttempts (S attempts)); [|apply IH].
    intros [= _ <-]. split; reflexivity.
Qed.

Lemma no_clientId_falls_back (p : Props) (b : bool) :
  shouldUseFallback p || b = false -> no_clientId p = false.
Proof.
  unfold shouldUseFallback. destruct (no_clientId p); [discriminate|reflexivity].
Qed.

Lemma step_keeps (st : State) (e : Event) :
  (error st = None -> error (step st e) = None) /\
  (useFallback st = true -> useFallback (step st e) = true).
Proof.
  destruct e as [p sdk|p viewer how| |pageNumber]; cbn [step].
  - unfold sdk_effect. destruct (shouldUseFallback p); [split; intros H; [exact H|reflexivity]|].
    destruct (checkAdobeSDK maxAttempts sdk 0 st) as [[n st']|] eqn:E.
    + destruct (checkAdobeSDK_keeps _ _ _ _ _ _ E) as [He Hf]. rewrite He.
      split; [intros H; exact H|exact Hf].
    + split; intros H; exact H.
  - unfold viewer_effect. cbn [useFallback setAdobeViewRef].
    destruct (shouldUseFallback p || useFallback st) eqn:F.
    + split; intros H; exact H.
    + rewrite (no_clientId_falls_back p _ F).
      split.
      * intros H.
        destruct (isAdobeSDKReady _ && viewer && str_truthy (documentUrl p)); [|exact H].
        destruct how; reflexivity.
      * intros H. rewrite H, orb_true_r in F. discriminate F.
  - split; intros H; [exact H|reflexivity].
  - unfold goToLocation. destruct (adobeViewRef st); split; intros H; exact H.
Qed.

Lemma steps_keep (events : list Event) (st : State) :
  (error st = None -> error (fold_left step events st) = None) /\
  (useFallback st = true -> useFallback (fold_left step events st) = true).
Proof.
  revert st. induction events as [|e events IH]; intros st; [split; intros H; exact H|].
  cbn [fold_left]. destruct (IH (step st e)) as [He Hf]. destruct (step_keeps st e) as [He1 Hf1].
  split; intros H; [apply He, He1, H|apply Hf, Hf1, H].
Qed.

(** The viewer never sets an error: the only message it could set stands
    behind a test for a missing client id, which the fallback test before it
    has already answered.  Whatever effects run and however the
    initialization goes, the error stays unset and the error view is never
    rendered. *)
Theorem viewer_error_is_never_set (events : list Event) (p : Props) :
  error (fold_left step events initial) = None /\
  forall message, render p (fold_left step events initial) <> Error_alert message.
Proof.
  assert (error (fold_left step events initial) = None) as H
      by (apply steps_keep; reflexivity).
  split; [exact H|]. intros message. unfold render. rewrite H.
  destruct (shouldUseFallback p || useFallback _); [discriminate|].
  destruct (negb (isAdobeSDKReady _)); discriminate.
Qed.

(** Once the viewer has fallen back to the demo mode it stays there:
    no effect, initialization or navigation brings the Adobe viewer back, for
    any document. *)
Theorem fallback_is_final (events : list Event) (p : Props) (st : State) :
  useFallback st = true ->
  useFallback (fold_left step events st) = true /\
  render p (fold_left step events st) = Fallback_viewer.
Proof.
  intros H. assert (useFallback (fold_left step events st) = true) as H'
      by (apply steps_keep; exact H).
  split; [exact H'|]. unfold render. rewrite H', orb_true_r. reflexivity.
Qed.

Lemma fallback_witness :
  useFallback fallen_back = true /\
  render viewer_props
    (fold_left step [Viewer_effect viewer_props true Succeeds; Navigate 3] fallen_back)
  = Fallback_viewer.
Proof.
  split; [reflexivity|].
  exact (proj2 (fallback_is_final [Viewer_effect viewer_props true Succeeds; Navigate 3]
                  viewer_props fallen_back eq_refl)).
Defined.

End ViewerState.

(** ** The relevance badge *)
Section RelevanceBadge.
Import JS Insights Support.
Local Open Scope float_scope.

Lemma leb_trans_from_positive (c a b : number) (mc : positive) (ec : Z) :
  Prim2SF c = S754_finite false mc ec ->
  (c <=? a) = true -> (a <=? b) = true -> (c <=? b) = true.
Proof.
  intros Hc. rewrite !FloatAxioms.leb_spec, Hc.
  destruct (Prim2SF a) as [sa|sa| |sa ma ea]; try discriminate;
    destruct (Prim2SF b) as [sb|sb| |sb mb eb]; try discriminate;
    destruct sa; try discriminate; destruct sb; try discriminate; try (intros; reflexivity).
  rewrite !SFleb_below. unfold Round.below. intros H1 H2. lia.
Qed.

(** The colour of the relevance badge never goes down when the score goes
    up: a score above a green one is green, a score above a yellow one is
    yellow or green; a score that is not a number is gray. *)
Theorem relevance_color_is_monotone (a b : number) :
  (a <=? b) = true ->
  (getRelevanceColor a = "bg-green-100 text-green-800 dark:bg-green-900 dark:text-green-200"%string ->
   getRelevanceColor b = "bg-green-100 text-green-800 dark:bg-green-900 dark:text-green-200"%string) /\
  (getRelevanceColor a = "bg-yellow-100 text-yellow-800 dark:bg-yellow-900 dark:text-yellow-200"%string ->
   getRelevanceColor b = "bg-yellow-100 text-yellow-800 dark:bg-yellow-900 dark:text-yellow-200"%string \/
   getRelevanceColor b = "bg-green-100 text-green-800 dark:bg-green-900 dark:text-green-200"%string) /\
  getRelevanceColor nan = "bg-gray-100 text-gray-800 dark:bg-gray-800 dark:text-gray-200"%string.
Proof.
  intros Hab. split; [|split; [|reflexivity]].
  - unfold getRelevanceColor. destruct (0.8 <=? a) eqn:Ha.
    + intros _. rewrite (leb_trans_from_positive 0.8 a b _ _ eq_refl Ha Hab). reflexivity.
    + destruct (0.6 <=? a); discriminate.
  - unfold getRelevanceColor. destruct (0.8 <=? a) eqn:Ha; [discriminate|].
    destruct (0.6 <=? a) eqn:Ha'; [|discriminate].
    intros _. rewrite (leb_trans_from_positive 0.6 a b _ _ eq_refl Ha' Hab).
    destruct (0.8 <=? b); [right|left]; reflexivity.
Qed.

Lemma relevance_witness :
  (0.81 <=? 0.92) = true /\
  getRelevanceColor 0.92 = "bg-green-100 text-green-800 dark:bg-green-900 dark:text-green-200"%string.
Proof.
  split; [reflexivity|].
  exact (proj1 (relevance_color_is_monotone 0.81 0.92 eq_refl) eq_refl).
Defined.

End RelevanceBadge.
